(** * Raven bridge example scripts: a shallow embedding

    The repository holds two command line scripts ([bridge_l1_to_l2.ts],
    [bridge_l2_to_l1.ts]) and two utility modules ([utils/balance.ts],
    [utils/create_account_from_env.ts]).  They drive the bridge
    orchestrator of the package [@ravenhouse/bridge-sdk], the Aztec
    client libraries and [viem]; those packages are not part of the
    repository and appear here as explicit collaborators.

    Asynchronous code is embedded in a state / trace / error monad: the
    state is the state of the two chains, the trace records every call
    that leaves the process, and an [await] of a rejected promise is a
    thrown error. *)

From Stdlib Require Import ZArith NArith Ascii String List Lia.
From Stdlib Require Import DecimalString DecimalN DecimalFacts.
From stdpp Require Import base option strings gmap list.

Local Open Scope string_scope.
Local Open Scope list_scope.
Local Open Scope stdpp_scope.

(* ===================================================================== *)
(** * JavaScript values used by the scripts *)
(* ===================================================================== *)

Module Js.

(** [String.prototype.slice(n)] for [0 <= n]. *)
Fixpoint drop (n : nat) (s : string) : string :=
  match n, s with
  | O, _ => s
  | S _, EmptyString => EmptyString
  | S n', String _ s' => drop n' s'
  end.

(** [s.replace(pat, rep)] with a string pattern: only the FIRST
    occurrence of [pat] is replaced, wherever it stands.  ([rep] holds no
    [$] in the scripts, so it is inserted as it is.) *)
Fixpoint replace (pat rep s : string) : string :=
  if String.prefix pat s then rep +:+ drop (String.length pat) s
  else match s with
       | EmptyString => EmptyString
       | String c s' => String c (replace pat rep s')
       end.

(** Truthiness of [string | undefined]: [undefined] and [''] are falsy. *)
Definition truthy (v : option string) : bool :=
  match v with
  | Some s => negb (String.eqb s "")
  | None => false
  end.

(** [v || dflt] on [string | undefined]. *)
Definition or_else (v : option string) (dflt : string) : string :=
  match v with
  | Some s => if String.eqb s "" then dflt else s
  | None => dflt
  end.

(** [v === lit] on [string | undefined]. *)
Definition strict_eq (v : option string) (lit : string) : bool :=
  match v with
  | Some s => String.eqb s lit
  | None => false
  end.

(** [s.repeat(n)] *)
Fixpoint repeat (s : string) (n : nat) : string :=
  match n with
  | O => ""
  | S n' => s +:+ repeat s n'
  end.

(** The double quote character, as a one-character string. *)
Definition dquote : string := String (ascii_of_nat 34) "".

(** [String(b)] of a boolean. *)
Definition of_bool (b : bool) : string := if b then "true" else "false".

(** [`${error}`] of a thrown [Error], an error being represented by its
    message: [Error.prototype.toString] gives the name and the message,
    and the name alone when the message is empty. *)
Definition error_to_string (message : string) : string :=
  if String.eqb message "" then "Error" else "Error: " +:+ message.

(** The names every object inherits from [Object.prototype]. *)
Definition Object_prototype : list string :=
  [ "constructor"; "hasOwnProperty"; "isPrototypeOf"; "propertyIsEnumerable";
    "toLocaleString"; "toString"; "valueOf"; "__proto__";
    "__defineGetter__"; "__defineSetter__"; "__lookupGetter__";
    "__lookupSetter__" ].

(** What a property read [o[k]] finds on a plain object used as a table:
    the entry of the table, or the member [k] of [Object.prototype] (a
    function, or the prototype itself for [__proto__]: truthy, and none of
    them has the fields of an entry), or [undefined]. *)
Inductive Property (A : Type) : Type :=
| Own (a : A)
| Inherited (k : string)
| Undefined.
Arguments Own {A} a.
Arguments Inherited {A} k.
Arguments Undefined {A}.

Definition get {A} (o : gmap string A) (k : string) : Property A :=
  match o !! k with
  | Some a => Own a
  | None => if bool_decide (k ∈ Object_prototype) then Inherited k else Undefined
  end.

(** [`${f.name}`] of the member [k] of [Object.prototype]: the functions
    are named as their key, the prototype object has no [name]. *)
Definition inherited_name (k : string) : string :=
  if String.eqb k "__proto__" then "undefined" else k.

End Js.

(* ===================================================================== *)
(** * Effects: chain state, trace of outside calls, thrown errors *)
(* ===================================================================== *)

(** A settled promise of an outside call. *)
Inductive Settled (A : Type) : Type :=
| Fulfilled (a : A)
| Rejected (reason : string).
Arguments Fulfilled {A} a.
Arguments Rejected {A} reason.

(** How a piece of script ends: with a value, with a thrown error (an
    error is represented by its message), or by [process.exit(code)],
    which no [catch] intercepts. *)
Inductive Outcome (A : Type) : Type :=
| Ret (a : A)
| Throw (e : string)
| Exit (code : Z).
Arguments Ret {A} a.
Arguments Throw {A} e.
Arguments Exit {A} code.

(** The four statuses of a bridge step, as [getStepStatusIcon] switches
    on them. *)
Inductive StepStatus : Type := pending | loading | completed | error.

(** The sub-operations of a bridge run (the step ids). *)
Inductive StepId : Type :=
| approve_l1 | deposit_to_portal | wait_l2_message | claim_on_l2
| burn_on_l2 | wait_for_proof | finalize_withdrawal_l1.

Inductive Direction : Type := L1ToL2 | L2ToL1.

Record BridgeStep : Type := {
  id : StepId;
  label : string;
  status : StepStatus;
  description : option string;
}.

(** What the process does to the outside world, in order. *)
Inductive Event : Type :=
| EvConsoleError (args : list string)
| EvLoggerError (msg : string)
| EvExit (code : Z)
| EvCreateL1Client (key : string) (urls : string) (sandbox : bool)
| EvNodeInitialize (url : string)
| EvWaitForNode
| EvTestWalletCreate (proverEnabled : bool)
| EvCreateSchnorrAccount (secret salt signing : string)
| EvGetAccounts
| EvGetAccount
| EvGetSponsoredFPC
| EvRegisterContract (address : string)
| EvNodeGetContract (address : string)
| EvTokenContractAt (address : string)
| EvReadContract (token wallet : string)
| EvSimulatePublic (owner : string)
| EvSimulatePrivate (owner : string)
| EvBridge (dir : Direction) (symbol amount : string) (isPrivate : bool)
| EvStepOperation (step : StepId)
| EvStep (step : BridgeStep).

Section Monad.
(** The state of the outside world (both chains, the node, the wallet). *)
Context {Σ : Type}.

Definition M (A : Type) : Type := Σ -> list Event * Outcome A * Σ.

Definition ret {A} (a : A) : M A := fun σ => ([], Ret a, σ).

Definition throw {A} (e : string) : M A := fun σ => ([], Throw e, σ).

(** [process.exit(code)] *)
Definition exit {A} (code : Z) : M A := fun σ => ([EvExit code], Exit code, σ).

Definition emit (ev : Event) : M unit := fun σ => ([ev], Ret tt, σ).

Definition bind {A B} (m : M A) (k : A -> M B) : M B :=
  fun σ =>
    match m σ with
    | (t1, Ret a, σ1) =>
        match k a σ1 with
        | (t2, o, σ2) => (t1 ++ t2, o, σ2)
        end
    | (t1, Throw e, σ1) => (t1, Throw e, σ1)
    | (t1, Exit c, σ1) => (t1, Exit c, σ1)
    end.

(** [try { m } catch (e) { h e }] *)
Definition try_catch {A} (m : M A) (h : string -> M A) : M A :=
  fun σ =>
    match m σ with
    | (t1, Throw e, σ1) =>
        match h e σ1 with
        | (t2, o, σ2) => (t1 ++ t2, o, σ2)
        end
    | r => r
    end.

(** [await f(...)]: the call leaves the process (event [ev]), acts on the
    outside state, and its promise fulfils or rejects. *)
Definition await {A} (ev : Event) (f : Σ -> Settled A * Σ) : M A :=
  fun σ =>
    match f σ with
    | (Fulfilled a, σ1) => ([ev], Ret a, σ1)
    | (Rejected e, σ1) => ([ev], Throw e, σ1)
    end.

(** Starting a call without awaiting it: the promise is kept as a value. *)
Definition start {A} (ev : Event) (f : Σ -> Settled A * Σ) : M (Settled A) :=
  fun σ =>
    match f σ with
    | (p, σ1) => ([ev], Ret p, σ1)
    end.

Definition trace {A} (r : list Event * Outcome A * Σ) : list Event := r.1.1.
Definition outcome {A} (r : list Event * Outcome A * Σ) : Outcome A := r.1.2.
Definition final {A} (r : list Event * Outcome A * Σ) : Σ := r.2.

End Monad.
Arguments M Σ A : clear implicits.

Notation "'do' x <- m ; k" := (bind m (fun x => k))
  (at level 20, x name, m at level 100, k at level 200, only parsing).
Notation "m ;; k" := (bind m (fun _ => k))
  (at level 100, k at level 200, right associativity, only parsing).

Section MonadOps.
Context {Σ : Type}.

(** [await p] for a promise [p] that was started earlier. *)
Definition settle {A} (p : Settled A) : M Σ A :=
  match p with
  | Fulfilled a => ret a
  | Rejected e => throw e
  end.

(** [try { m } catch (e) { ... }] with the two ways out kept apart. *)
Definition attempt {A} (m : M Σ A) : M Σ (string + A) :=
  try_catch (do a <- m; ret (inr a)) (fun e => ret (inl e)).

(** [logger.info(msg)], [logger.error(msg)], [console.error(msg)]:
    only the two error channels are kept in the trace. *)
Definition logger_info (msg : string) : M Σ unit := ret tt.
Definition logger_error (msg : string) : M Σ unit := emit (EvLoggerError msg).
Definition console_error (args : list string) : M Σ unit :=
  emit (EvConsoleError args).

End MonadOps.

(** [Promise.all([p, q])]: fulfils with both values when both promises
    fulfil, and rejects as soon as one of them rejects, with the reason of
    the first one to do so ([q_first] says that [q] settles before [p]). *)
Definition Promise_all {A B} (q_first : bool) (p : Settled A) (q : Settled B)
  : Settled (A * B) :=
  match p, q with
  | Fulfilled a, Fulfilled b => Fulfilled (a, b)
  | Rejected e, Fulfilled _ => Rejected e
  | Fulfilled _, Rejected e => Rejected e
  | Rejected e1, Rejected e2 => Rejected (if q_first then e2 else e1)
  end.

(* ===================================================================== *)
(** * utils/balance.ts *)
(* ===================================================================== *)

Module Balance.

(** ** Decimal rendering *)

(** The character of a decimal digit [0 <= n < 10]. *)
Definition digit_char (n : N) : ascii := ascii_of_N (48 + n).

(** The value of a digit character. *)
Definition digit_val (c : ascii) : option N :=
  let n := N_of_ascii c in
  if ((48 <=? n) && (n <=? 57))%N then Some (n - 48)%N else None.

(** The [d] low decimal digits of [n], most significant first (leading
    zeros kept). *)
Fixpoint fixed_digits (d : nat) (n : N) : string :=
  match d with
  | O => ""
  | S d' => fixed_digits d' (n / 10)%N +:+ String (digit_char (n mod 10)%N) ""
  end.

(** [bigint.toString()] of a non-negative value. *)
Definition toString (n : N) : string := NilZero.string_of_uint (N.to_uint n).

(** Drop the zeros at the end of a digit string. *)
Fixpoint strip_trailing_zeros (s : string) : string :=
  match s with
  | EmptyString => EmptyString
  | String c s' =>
      match strip_trailing_zeros s' with
      | EmptyString => if Ascii.eqb c "0" then EmptyString else String c EmptyString
      | t => String c t
      end
  end.

(** Modelled from the spec: [formatUnits] of the package [viem], which
    [formatBalance] calls and whose source is not in the repository:
    "standard fixed-point scaling (divide by 10^decimals, render without
    losing precision)", with ["1.5"] for [1500000000000000000] at 18
    decimals.  The quotient is the integer part, the remainder gives the
    [decimals] fractional digits, and zeros at the end of the fraction
    (and the point before an empty fraction) are not written. *)
Definition formatUnits (value : Z) (decimals : nat) : string :=
  let scale := (10 ^ N.of_nat decimals)%N in
  let a := Z.abs_N value in
  let integer := toString (a / scale)%N in
  let fraction := strip_trailing_zeros (fixed_digits decimals (a mod scale)%N) in
  (if (value <? 0)%Z then "-" else "") +:+ integer +:+
  (match fraction with
   | EmptyString => ""
   | _ => "." +:+ fraction
   end).

(** [export function formatBalance(balance: bigint, decimals: number = 18)]:
    an omitted [decimals] is [None]. *)
Definition formatBalance (balance : Z) (decimals : option nat) : string :=
  formatUnits balance (default 18%nat decimals).

(** ** Reading a rendered amount back (used to state exactness) *)

(** Horner evaluation of a digit string. *)
Fixpoint digits_value (acc : N) (s : string) : option N :=
  match s with
  | EmptyString => Some acc
  | String c s' =>
      match digit_val c with
      | Some v => digits_value (10 * acc + v)%N s'
      | None => None
      end
  end.

(** Split at the first ['.']: the text before it and the text after it. *)
Fixpoint split_point (s : string) : string * string :=
  match s with
  | EmptyString => (EmptyString, EmptyString)
  | String c s' =>
      if Ascii.eqb c "." then (EmptyString, s')
      else let '(i, f) := split_point s' in (String c i, f)
  end.

(** A leading ['-'] and the rest. *)
Definition split_sign (s : string) : bool * string :=
  match s with
  | String c r => if Ascii.eqb c "-" then (true, r) else (false, s)
  | EmptyString => (false, s)
  end.

Fixpoint zeros (n : nat) : string :=
  match n with
  | O => ""
  | S n' => String "0" (zeros n')
  end.

(** The amount that an unsigned decimal text denotes at [decimals]
    fractional digits: [integer * 10^decimals + fraction], the fraction
    being read as exactly [decimals] digits.  [None] when the text is not
    of the form [digits(.digits)?] or has more fractional digits than
    [decimals]. *)
Definition magnitude (body : string) (decimals : nat) : option N :=
  let '(i, f) := split_point body in
  if (String.length f <=? decimals)%nat then
    match i, digits_value 0 i, digits_value 0 (f +:+ zeros (decimals - String.length f)) with
    | String _ _, Some iv, Some fv => Some (iv * 10 ^ N.of_nat decimals + fv)%N
    | _, _, _ => None
    end
  else None.

(** The amount in smallest units that a decimal text with an optional
    sign denotes. *)
Definition smallest_units (s : string) (decimals : nat) : option Z :=
  let '(neg, body) := split_sign s in
  match magnitude body decimals with
  | Some a => Some (if neg then (- Z.of_N a)%Z else Z.of_N a)
  | None => None
  end.

(** Characters of a rendered number: decimal digits only. *)
Definition is_digit (c : ascii) : Prop := exists v, digit_val c = Some v.

Fixpoint all_digits (s : string) : Prop :=
  match s with
  | EmptyString => True
  | String c s' => is_digit c /\ all_digits s'
  end.

(** ** Balance queries *)

Section Readers.
Context {Σ : Type}.

(** The argument object of [readContract] (the ABI is the constant
    [ERC20_ABI]: the single view function [balanceOf(address)]). *)
Record ReadContractParameters : Type := {
  address : string;
  functionName : string;
  args : list string;
}.

(** The part of the viem client the scripts use. *)
Record L1Client : Type := {
  readContract : ReadContractParameters -> Σ -> Settled Z * Σ;
  account_address : string;
}.

(** The part of the Aztec token contract handle the scripts use:
    [methods.balance_of_public(owner).simulate({from: owner})] and its
    private twin; [private_settles_first] is the network timing of two
    simulations in flight together. *)
Record TokenContract : Type := {
  balance_of_public : string -> Σ -> Settled Z * Σ;
  balance_of_private : string -> Σ -> Settled Z * Σ;
  private_settles_first : bool;
}.

Record L2Balances : Type := {
  public : Z;
  private : Z;
}.

Definition getL1TokenBalance (l1Client : L1Client)
    (tokenAddress walletAddress : string) : M Σ Z :=
  await (EvReadContract tokenAddress walletAddress)
    (readContract l1Client
       {| address := tokenAddress;
          functionName := "balanceOf";
          args := [walletAddress] |}).

Definition getL2TokenBalances (tokenContract : TokenContract)
    (ownerAddress : string) : M Σ L2Balances :=
  do p <- start (EvSimulatePublic ownerAddress)
            (balance_of_public tokenContract ownerAddress);
  do q <- start (EvSimulatePrivate ownerAddress)
            (balance_of_private tokenContract ownerAddress);
  do r <- settle (Promise_all (private_settles_first tokenContract) p q);
  ret {| public := r.1; private := r.2 |}.

(** The [logger] argument of [logBalances]: its [info] method. *)
Record Logger : Type := {
  info : string -> M Σ unit;
}.

Definition logBalances (label : string) (l1Client : L1Client)
    (l1TokenAddress l1WalletAddress : string) (tokenContract : TokenContract)
    (l2OwnerAddress symbol : string) (logger : Logger) : M Σ unit :=
  info logger "" ;;
  info logger ("=== " +:+ label +:+ " ===") ;;
  do l1Balance <- getL1TokenBalance l1Client l1TokenAddress l1WalletAddress;
  info logger ("L1 " +:+ symbol +:+ " Balance: "
               +:+ formatBalance l1Balance None +:+ " " +:+ symbol) ;;
  do l2Balances <- getL2TokenBalances tokenContract l2OwnerAddress;
  info logger ("L2 " +:+ symbol +:+ " Public Balance: "
               +:+ formatBalance (public l2Balances) None +:+ " " +:+ symbol) ;;
  info logger ("L2 " +:+ symbol +:+ " Private Balance: "
               +:+ formatBalance (private l2Balances) None +:+ " " +:+ symbol) ;;
  info logger "".

End Readers.
Arguments L1Client Σ : clear implicits.
Arguments TokenContract Σ : clear implicits.
Arguments Logger Σ : clear implicits.

End Balance.

(* ===================================================================== *)
(** * The package @ravenhouse/bridge-sdk, as the specification describes it *)
(* ===================================================================== *)

Module Sdk.

Record L1Addresses : Type := {
  l1_tokenAddress : string;
  portalAddress : string;
}.

Record L2Addresses : Type := {
  l2_tokenAddress : string;
  bridgeAddress : string;
}.

(** Modelled from the spec: the token descriptor type of the package
    (section 3): [{ symbol, name, l1: {tokenAddress, portalAddress},
    l2: {tokenAddress, bridgeAddress} }]. *)
Record TokenConfig : Type := {
  symbol : string;
  token_name : string;
  l1 : L1Addresses;
  l2 : L2Addresses;
}.

(** Modelled from the spec: the network description type of the package
    (section 6), with the fields the scripts read: [name],
    [network.l1RpcUrl], [network.nodeUrl], [settings.skipSandbox],
    [tokens], [backend.zk_verify]; [explorer] is the base of the
    block-explorer links, when the network has one. *)
Record NetworkConfig : Type := {
  name : string;
  l1RpcUrl : string;
  nodeUrl : string;
  skipSandbox : bool;
  tokens : list TokenConfig;
  zk_verify : string;
  explorer : option string;
}.

(** Modelled from the spec: [getToken(symbol) -> TokenDescriptor |
    not-found] of the orchestrator, missing with the package: the token
    of the network configuration whose identity is [symbol]. *)
Definition getToken (network : NetworkConfig) (sym : string) : option TokenConfig :=
  List.find (fun t => String.eqb (symbol t) sym) (tokens network).

(** Modelled from the spec: the bridge result record (section 3). *)
Record BridgeResult : Type := {
  success : bool;
  direction : Direction;
  amount : string;
  result_symbol : string;
  steps : list BridgeStep;
  message : string;
  finalTxHash : option string;
  explorerUrl : option string;
}.

(** Modelled from the spec: the direction as section 3 writes it. *)
Definition direction_text (d : Direction) : string :=
  match d with
  | L1ToL2 => "L1->L2"
  | L2ToL1 => "L2->L1"
  end.

(** Modelled from the spec: the transfer request (section 3) with the
    step sink the scripts pass as [onStep].  The sink is a consumer: it
    returns or throws, and what it does is no business of the machine. *)
Record BridgeRequest : Type := {
  token : TokenConfig;
  req_amount : string;
  isPrivate : bool;
  onStep : BridgeStep -> Settled unit;
}.

(** Modelled from the spec: the step table of section 4.1.  The ids
    depend on the direction; the private variants differ in what the
    claim credits and in which balance is burnt. *)
Definition step_ids (dir : Direction) : list StepId :=
  match dir with
  | L1ToL2 => [approve_l1; deposit_to_portal; wait_l2_message; claim_on_l2]
  | L2ToL1 => [burn_on_l2; wait_for_proof; finalize_withdrawal_l1]
  end.

Definition step_label (priv : bool) (i : StepId) : string :=
  match i with
  | approve_l1 => "approve L1 allowance"
  | deposit_to_portal => "deposit to L2 portal (public)"
  | wait_l2_message => "wait for L2 message availability"
  | claim_on_l2 =>
      if priv then "claim on L2 (credit private balance)"
      else "claim on L2 (credit public balance)"
  | burn_on_l2 =>
      if priv then "burn token (private balance) on L2"
      else "burn token (public balance) on L2"
  | wait_for_proof => "wait for block inclusion + proof generation"
  | finalize_withdrawal_l1 => "finalize withdrawal on L1 portal"
  end.

(** Every step of a run starts [pending]. *)
Definition initial_steps (dir : Direction) (priv : bool) : list BridgeStep :=
  List.map (fun i => {| id := i; label := step_label priv i;
                        status := pending; description := None |})
    (step_ids dir).

Definition with_status (st : StepStatus) (d : option string) (s : BridgeStep)
  : BridgeStep :=
  {| id := id s; label := label s; status := st; description := d |}.

(** Modelled from the spec: "Amount is validated as a non-negative
    decimal": digits, then optionally a point and digits. *)
Definition valid_amount (s : string) : bool :=
  let '(i, f) := Balance.split_point s in
  match i, Balance.digits_value 0 i, Balance.digits_value 0 f with
  | String _ _, Some _, Some _ => true
  | _, _, _ => false
  end.

Section Machine.
Context {Σ : Type}.

(** The chain operation behind each step, run against the outside
    world: it fulfils (with the transaction hash, when the step sends
    one) or rejects. *)
Variable operation : StepId -> Σ -> Settled (option string) * Σ.

(** Modelled from the spec: the step sink is isolated: the step is
    announced and a consumer that throws changes nothing. *)
Definition announce (sink : BridgeStep -> Settled unit) (s : BridgeStep)
  : M Σ unit :=
  emit (EvStep s) ;;
  match sink s with
  | Fulfilled _ => ret tt
  | Rejected _ => ret tt
  end.

(** Modelled from the spec: the step machine of section 4.1, missing
    with the package.  Each step goes pending -> loading on start,
    loading -> completed on success, loading -> error on failure; on
    the first error the machine halts and the steps not yet started
    stay as they are.  The result is (all completed?, final steps,
    hash of the last transaction sent). *)
Fixpoint run_steps (sink : BridgeStep -> Settled unit)
    (done todo : list BridgeStep) (tx : option string)
  : M Σ (bool * list BridgeStep * option string * string) :=
  match todo with
  | [] => ret (true, done, tx, "Bridge completed successfully")
  | s :: rest =>
      announce sink (with_status loading None s) ;;
      do r <- attempt (await (EvStepOperation (id s)) (operation (id s)));
      match r with
      | inr h =>
          let s' := with_status completed None s in
          announce sink s' ;;
          run_steps sink (done ++ [s']) rest
            (match h with Some _ => h | None => tx end)
      | inl e =>
          let s' := with_status error (Some e) s in
          announce sink s' ;;
          ret (false, done ++ s' :: rest, tx,
               "Bridge failed at step " +:+ label s +:+ ": " +:+ e)
      end
  end.

(** Modelled from the spec: [execute(request) -> BridgeResult]. *)
Definition execute (network : NetworkConfig) (dir : Direction)
    (request : BridgeRequest) : M Σ BridgeResult :=
  do r <- run_steps (onStep request)
            [] (initial_steps dir (isPrivate request)) None;
  let '(ok, final_steps, tx, msg) := r in
  let settled := if ok then tx else None in
  ret {| success := ok;
         direction := dir;
         amount := req_amount request;
         result_symbol := symbol (token request);
         steps := final_steps;
         message := msg;
         finalTxHash := settled;
         explorerUrl :=
           match explorer network, settled with
           | Some base, Some h => Some (base +:+ h)
           | _, _ => None
           end |}.

(** Modelled from the spec: the orchestrator entry points
    [bridgeL1ToL2] and [bridgeL2ToL1] (section 4.2): the token is
    resolved once, failing fast when it is not configured, a malformed
    amount is refused before the step sequence starts, then the step
    machine of the direction runs to completion or first failure. *)
Definition bridge (network : NetworkConfig) (dir : Direction)
    (request : BridgeRequest) : M Σ BridgeResult :=
  emit (EvBridge dir (symbol (token request)) (req_amount request)
          (isPrivate request)) ;;
  match getToken network (symbol (token request)) with
  | None => throw "token not configured"
  | Some _ =>
      if valid_amount (req_amount request)
      then execute network dir request
      else throw "invalid amount"
  end.

Definition bridgeL1ToL2 network request := bridge network L1ToL2 request.
Definition bridgeL2ToL1 network request := bridge network L2ToL1 request.

End Machine.

End Sdk.

(* ===================================================================== *)
(** * The outside world of a script run *)
(* ===================================================================== *)

(** Everything a script reads or calls outside the repository: the
    environment, the [networks] table of the bridge package, and the
    Aztec, viem and bridge calls with what they answer in a given state of
    the world.  A synchronous call that can throw is a [Settled] value, an
    asynchronous one a function of the state. *)
Record World (Σ : Type) : Type := {
  (** [process.env], after [dotenv.config()] *)
  env : gmap string string;
  (** the JavaScript engine: the message of the [TypeError] thrown when a
      property is read on [undefined], for the expression that is read
      (engines word it differently) *)
  undefined_read : string -> string;
  (** [networks] of @ravenhouse/bridge-sdk *)
  networks : gmap string Sdk.NetworkConfig;
  (** viem: the account (its address) of a private key; throws on a key
      that is not one *)
  privateKeyToAccount : string -> Settled string;
  (** @aztec/ethereum: the client of an account *)
  createExtendedL1Client : string -> Balance.L1Client Σ;
  waitForNode : Σ -> Settled unit * Σ;
  TestWallet_create : bool -> Σ -> Settled unit * Σ;
  Fr_fromString : string -> Settled string;
  GrumpkinScalar_fromString : string -> Settled string;
  (** [wallet.createSchnorrAccount(secretKey, salt, signingKey)]: the
      account manager, named by its address *)
  createSchnorrAccount : string -> string -> string -> Σ -> Settled string * Σ;
  getAccounts : Σ -> Settled (list string) * Σ;
  (** [(await accountManager.getAccount()).getAddress()] *)
  getAccount : string -> Σ -> Settled string * Σ;
  (** utils/sponsored_fpc: the address of the sponsored fee contract *)
  getSponsoredFPCInstance : Σ -> Settled string * Σ;
  registerContract : string -> Σ -> Settled unit * Σ;
  AztecAddress_fromString : string -> Settled string;
  (** [node.getContract(address)]: is there an instance? *)
  getContract : string -> Σ -> Settled bool * Σ;
  TokenContract_at : string -> Σ -> Settled (Balance.TokenContract Σ) * Σ;
  (** the chain operation behind a bridge step of a request *)
  operation : Direction -> bool -> Sdk.TokenConfig -> string ->
              StepId -> Σ -> Settled (option string) * Σ;
}.
Arguments env {Σ} w.
Arguments undefined_read {Σ} w _.
Arguments networks {Σ} w.
Arguments privateKeyToAccount {Σ} w _.
Arguments createExtendedL1Client {Σ} w _.
Arguments waitForNode {Σ} w _.
Arguments TestWallet_create {Σ} w _ _.
Arguments Fr_fromString {Σ} w _.
Arguments GrumpkinScalar_fromString {Σ} w _.
Arguments createSchnorrAccount {Σ} w _ _ _ _.
Arguments getAccounts {Σ} w _.
Arguments getAccount {Σ} w _ _.
Arguments getSponsoredFPCInstance {Σ} w _.
Arguments registerContract {Σ} w _ _.
Arguments AztecAddress_fromString {Σ} w _.
Arguments getContract {Σ} w _ _.
Arguments TokenContract_at {Σ} w _ _.
Arguments operation {Σ} w _ _ _ _ _ _.

(* ===================================================================== *)
(** * utils/create_account_from_env.ts *)
(* ===================================================================== *)

Module Account.
Section Account.
Context {Σ : Type} (w : World Σ).

Definition createAccountFromEnv : M Σ string :=
  logger_info "Creating Schnorr account from environment variables..." ;;
  let secretEnv := env w !! "ADMIN_SECRET_KEY" in
  let signingKeyEnv := env w !! "ADMIN_SIGNING_KEY" in
  let saltEnv := env w !! "ADMIN_SALT" in
  if negb (Js.truthy secretEnv) then
    throw "ADMIN_SECRET_KEY environment variable is required. Please set it in your .env file."
  else if negb (Js.truthy signingKeyEnv) then
    throw "ADMIN_SIGNING_KEY environment variable is required. Please set it in your .env file."
  else if negb (Js.truthy saltEnv) then
    throw "ADMIN_SALT environment variable is required. Please set it in your .env file."
  else
    let secretEnv := default "" secretEnv in
    let signingKeyEnv := default "" signingKeyEnv in
    let saltEnv := default "" saltEnv in
    do keys <-
      try_catch
        (do secretKey <- settle (Fr_fromString w secretEnv);
         do signingKey <- settle (GrumpkinScalar_fromString w signingKeyEnv);
         do salt <- settle (Fr_fromString w saltEnv);
         logger_info "Successfully parsed SECRET and SALT values" ;;
         ret (secretKey, signingKey, salt))
        (fun error =>
           logger_error ("Failed to parse SECRET and SALT values: "
                         +:+ Js.error_to_string error) ;;
           throw ("Invalid SECRET or SALT format. Please ensure they are valid hex strings starting with "
                  +:+ Js.dquote +:+ "0x" +:+ Js.dquote +:+ "."));
    let '(secretKey, signingKey, salt) := keys in
    logger_info "Creating Schnorr account instance with environment values..." ;;
    do schnorrAccount <-
      await (EvCreateSchnorrAccount secretKey salt signingKey)
        (createSchnorrAccount w secretKey salt signingKey);
    let accountAddress := schnorrAccount in
    logger_info ("Account address: " +:+ accountAddress) ;;
    logger_info "Checking if account is already deployed..." ;;
    try_catch
      (do registeredAccounts <- await EvGetAccounts (getAccounts w);
       let isRegistered :=
         existsb (fun acc => String.eqb acc accountAddress) registeredAccounts in
       if isRegistered
       then logger_info "Account is already registered with PXE"
       else logger_info "Account is not yet registered. You may need to deploy it first.")
      (fun error =>
         (* logger.warn *)
         logger_info ("Could not check account registration: "
                      +:+ Js.error_to_string error)) ;;
    logger_info "Schnorr account instance created successfully!" ;;
    logger_info "Account Summary:" ;;
    logger_info ("   - Address: " +:+ accountAddress) ;;
    logger_info ("   - SECRET (truncated): " +:+ String.substring 0 10 secretEnv +:+ "...") ;;
    logger_info ("   - SALT (truncated): " +:+ String.substring 0 10 saltEnv +:+ "...") ;;
    ret schnorrAccount.

Definition getAccountFromEnv : M Σ string := createAccountFromEnv.

End Account.
End Account.

(* ===================================================================== *)
(** * bridge_l1_to_l2.ts and bridge_l2_to_l1.ts *)
(* ===================================================================== *)

(** The two scripts are the same text up to the direction: the default
    amount, the wording of the log lines and the entry point of the bridge
    that is called.  [dir] selects the script. *)
Module Script.
Section Script.
Context {Σ : Type} (dir : Direction) (w : World Σ).

(** [process.env.BRIDGE_AMOUNT || '2'] (['1'] from L2 to L1) *)
Definition BRIDGE_AMOUNT : string :=
  Js.or_else (env w !! "BRIDGE_AMOUNT")
    (match dir with L1ToL2 => "2" | L2ToL1 => "1" end).

(** [process.env.BRIDGE_PRIVATE === 'true'] *)
Definition BRIDGE_PRIVATE : bool :=
  Js.strict_eq (env w !! "BRIDGE_PRIVATE") "true".

(** [process.env.AZTEC_ENV || 'devnet'] *)
Definition ENV : string := Js.or_else (env w !! "AZTEC_ENV") "devnet".

(** [networks[ENV]]: a property read on the [networks] object. *)
Definition networkConfig : Js.Property Sdk.NetworkConfig :=
  Js.get (networks w) ENV.

Definition status_text (st : StepStatus) : string :=
  match st with
  | pending => "pending"
  | loading => "loading"
  | completed => "completed"
  | error => "error"
  end.

(** [getStepStatusIcon]: the [switch] on the status text.  Each script
    has a copy of its own, and the two copies hold different literals
    (those of [bridge_l1_to_l2.ts] are the icons of the other file read
    in another encoding, as the file has them). *)
Definition getStepStatusIcon (status : string) : string :=
  match dir with
  | L1ToL2 =>
      (* bridge_l1_to_l2.ts *)
      if String.eqb status "pending" then "â³"
      else if String.eqb status "loading" then "ðŸ”„"
      else if String.eqb status "completed" then "âœ…"
      else if String.eqb status "error" then "âŒ"
      else "â€¢"
  | L2ToL1 =>
      (* bridge_l2_to_l1.ts *)
      if String.eqb status "pending" then "⏳"
      else if String.eqb status "loading" then "🔄"
      else if String.eqb status "completed" then "✅"
      else if String.eqb status "error" then "❌"
      else "•"
  end.

(** [const logger = createLogger(...)]: the logger of the script. *)
Definition logger : Balance.Logger Σ := {| Balance.info := logger_info |}.

(** [`0x${privateKey.replace('0x', '')}`] *)
Definition normalizedKey (privateKey : string) : string :=
  "0x" +:+ Js.replace "0x" "" privateKey.

(** The [onStep] callback: one [logger.info] line per step event, made
    of the icon, the id, the label and [description || status]; it
    returns normally. *)
Definition onStep (step : BridgeStep) : Settled unit := Fulfilled tt.

(** [for (const step of steps) logger.info(...)] *)
Fixpoint log_steps (steps : list BridgeStep) : M Σ unit :=
  match steps with
  | [] => ret tt
  | step :: rest =>
      let icon := getStepStatusIcon (status_text (status step)) in
      logger_info ("  " +:+ icon +:+ " " +:+ label step +:+ ": "
                   +:+ status_text (status step)) ;;
      log_steps rest
  end.

Definition main (networkConfig : Sdk.NetworkConfig) : M Σ unit :=
  let transferMode := if BRIDGE_PRIVATE then "PRIVATE" else "PUBLIC" in
  logger_info (Js.repeat "=" 60) ;;
  logger_info (match dir with
               | L1ToL2 => "Raven Bridge SDK - L1 to L2 Token Bridge"
               | L2ToL1 => "Raven Bridge SDK - L2 to L1 Token Bridge"
               end) ;;
  logger_info (Js.repeat "=" 60) ;;
  logger_info ("Environment: " +:+ Sdk.name networkConfig) ;;
  logger_info ("Transfer Mode: " +:+ transferMode) ;;
  logger_info ("L1 RPC: " +:+ Sdk.l1RpcUrl networkConfig) ;;
  logger_info ("L2 Node: " +:+ Sdk.nodeUrl networkConfig) ;;
  logger_info "" ;;
  (* Step 1: Setup L1 Wallet *)
  logger_info "Step 1: Setting up L1 wallet..." ;;
  let privateKey := env w !! "ETHEREUM_WALLET_PRIVATE_KEY" in
  if negb (Js.truthy privateKey) then
    throw "ETHEREUM_WALLET_PRIVATE_KEY environment variable is required"
  else
  let privateKey := default "" privateKey in
  do privateKeyAccount <-
    settle (privateKeyToAccount w (normalizedKey privateKey));
  let sandbox := String.eqb ENV "sandbox" in
  emit (EvCreateL1Client (normalizedKey privateKey)
          (Sdk.l1RpcUrl networkConfig) sandbox) ;;
  let l1Client := createExtendedL1Client w privateKeyAccount in
  logger_info ("L1 Wallet Address: " +:+ Balance.account_address l1Client) ;;
  (* Step 2: Setup L2 Wallet *)
  logger_info "" ;;
  logger_info "Step 2: Setting up L2 wallet..." ;;
  emit (EvNodeInitialize (Sdk.nodeUrl networkConfig)) ;;
  await EvWaitForNode (waitForNode w) ;;
  logger_info "Connected to Aztec node" ;;
  await (EvTestWalletCreate (Sdk.skipSandbox networkConfig))
    (TestWallet_create w (Sdk.skipSandbox networkConfig)) ;;
  logger_info "Test wallet created" ;;
  do accountManager <- Account.getAccountFromEnv w;
  do ownerAztecAddress <- await EvGetAccount (getAccount w accountManager);
  logger_info ("L2 Account Address: " +:+ ownerAztecAddress) ;;
  do sponsoredFPC <- await EvGetSponsoredFPC (getSponsoredFPCInstance w);
  await (EvRegisterContract sponsoredFPC) (registerContract w sponsoredFPC) ;;
  logger_info ("Sponsored FPC registered: " +:+ sponsoredFPC) ;;
  (* networkConfig.tokens[0].l2.bridgeAddress *)
  do token0 <-
    match Sdk.tokens networkConfig with
    | t :: _ => ret t
    | [] => throw (undefined_read w "networkConfig.tokens[0].l2")
    end;
  let bridgeAddress := Sdk.bridgeAddress (Sdk.l2 token0) in
  do bridgeAztecAddress <- settle (AztecAddress_fromString w bridgeAddress);
  do bridgeInstance <-
    await (EvNodeGetContract bridgeAztecAddress) (getContract w bridgeAztecAddress);
  if negb bridgeInstance then
    throw ("Bridge contract not found at " +:+ bridgeAddress)
  else
  await (EvRegisterContract bridgeAddress) (registerContract w bridgeAddress) ;;
  logger_info ("Bridge contract registered: " +:+ bridgeAddress) ;;
  let tokenAddress := Sdk.l2_tokenAddress (Sdk.l2 token0) in
  do tokenAztecAddress <- settle (AztecAddress_fromString w tokenAddress);
  do tokenInstance <-
    await (EvNodeGetContract tokenAztecAddress) (getContract w tokenAztecAddress);
  if negb tokenInstance then
    throw ("Token contract not found at " +:+ tokenAddress)
  else
  await (EvRegisterContract tokenAddress) (registerContract w tokenAddress) ;;
  logger_info ("Token contract registered: " +:+ tokenAddress) ;;
  do tokenAztecAddress' <- settle (AztecAddress_fromString w tokenAddress);
  do tokenContract <-
    await (EvTokenContractAt tokenAztecAddress') (TokenContract_at w tokenAztecAddress');
  (* Step 3: Initialize CompliantBridge *)
  logger_info "" ;;
  logger_info "Step 3: Initializing CompliantBridge..." ;;
  match Sdk.getToken networkConfig "RHT" with
  | None => throw "RHT token not found in network configuration"
  | Some rhtToken =>
  logger_info ("Token: " +:+ Sdk.token_name rhtToken +:+ " (" +:+ Sdk.symbol rhtToken +:+ ")") ;;
  (match dir with
   | L1ToL2 =>
       logger_info ("L1 Token: " +:+ Sdk.l1_tokenAddress (Sdk.l1 rhtToken)) ;;
       logger_info ("L1 Portal: " +:+ Sdk.portalAddress (Sdk.l1 rhtToken)) ;;
       logger_info ("L2 Token: " +:+ Sdk.l2_tokenAddress (Sdk.l2 rhtToken)) ;;
       logger_info ("L2 Bridge: " +:+ Sdk.bridgeAddress (Sdk.l2 rhtToken))
   | L2ToL1 =>
       logger_info ("L2 Token: " +:+ Sdk.l2_tokenAddress (Sdk.l2 rhtToken)) ;;
       logger_info ("L2 Bridge: " +:+ Sdk.bridgeAddress (Sdk.l2 rhtToken)) ;;
       logger_info ("L1 Token: " +:+ Sdk.l1_tokenAddress (Sdk.l1 rhtToken)) ;;
       logger_info ("L1 Portal: " +:+ Sdk.portalAddress (Sdk.l1 rhtToken))
   end) ;;
  (* Step 4: Execute the bridge *)
  logger_info "" ;;
  logger_info (match dir with
               | L1ToL2 => "Step 4: Executing L1 to L2 bridge..."
               | L2ToL1 => "Step 4: Executing L2 to L1 bridge..."
               end) ;;
  logger_info ("Amount: " +:+ BRIDGE_AMOUNT +:+ " " +:+ Sdk.symbol rhtToken) ;;
  logger_info ("Mode: " +:+
               match dir, BRIDGE_PRIVATE with
               | L1ToL2, true => "Private (shielded on L2)"
               | L1ToL2, false => "Public"
               | L2ToL1, true => "Private (from private balance)"
               | L2ToL1, false => "Public (from public balance)"
               end) ;;
  logger_info "" ;;
  (if BRIDGE_PRIVATE then
     logger_info (match dir with
                  | L1ToL2 => "NOTE: Private transfer will shield tokens on L2."
                  | L2ToL1 => "NOTE: Private transfer will withdraw from your private (shielded) balance."
                  end) ;;
     logger_info (match dir with
                  | L1ToL2 => "      Tokens will be deposited to your private balance."
                  | L2ToL1 => "      Tokens will be unshielded and sent to L1."
                  end) ;;
     logger_info ""
   else ret tt) ;;
  (match dir with
   | L1ToL2 => ret tt
   | L2ToL1 =>
       logger_info "NOTE: This operation includes waiting for block proof generation," ;;
       logger_info "      which can take several minutes on devnet/testnet." ;;
       logger_info ""
   end) ;;
  Balance.logBalances "BEFORE BRIDGE" l1Client
    (Sdk.l1_tokenAddress (Sdk.l1 rhtToken)) (Balance.account_address l1Client)
    tokenContract ownerAztecAddress (Sdk.symbol rhtToken) logger ;;
  try_catch
    (do result <-
       (let request :=
          {| Sdk.token := rhtToken;
             Sdk.req_amount := BRIDGE_AMOUNT;
             Sdk.isPrivate := BRIDGE_PRIVATE;
             Sdk.onStep := onStep |} in
        let chain := operation w dir BRIDGE_PRIVATE rhtToken BRIDGE_AMOUNT in
        match dir with
        | L1ToL2 => Sdk.bridgeL1ToL2 chain networkConfig request
        | L2ToL1 => Sdk.bridgeL2ToL1 chain networkConfig request
        end);
     logger_info "" ;;
     logger_info (Js.repeat "=" 60) ;;
     logger_info "Bridge Result" ;;
     logger_info (Js.repeat "=" 60) ;;
     logger_info ("Success: " +:+ Js.of_bool (Sdk.success result)) ;;
     logger_info ("Direction: " +:+ Sdk.direction_text (Sdk.direction result)) ;;
     logger_info ("Amount: " +:+ Sdk.amount result +:+ " " +:+ Sdk.result_symbol result) ;;
     logger_info ("Message: " +:+ Sdk.message result) ;;
     (match Sdk.finalTxHash result with
      | Some h => if String.eqb h "" then ret tt
                  else logger_info ("Transaction Hash: " +:+ h)
      | None => ret tt
      end) ;;
     (match Sdk.explorerUrl result with
      | Some u => if String.eqb u "" then ret tt
                  else logger_info ("Explorer URL: " +:+ u)
      | None => ret tt
      end) ;;
     logger_info "" ;;
     logger_info "Steps Summary:" ;;
     log_steps (Sdk.steps result) ;;
     Balance.logBalances "AFTER BRIDGE" l1Client
       (Sdk.l1_tokenAddress (Sdk.l1 rhtToken)) (Balance.account_address l1Client)
       tokenContract ownerAztecAddress (Sdk.symbol rhtToken) logger ;;
     logger_info "" ;;
     logger_info "Bridge completed successfully!" ;;
     logger_info (match dir, BRIDGE_PRIVATE with
                  | L1ToL2, true => "Tokens have been deposited to your private balance on L2."
                  | L1ToL2, false => "Tokens have been deposited to your public balance on L2."
                  | L2ToL1, _ => "Tokens have been withdrawn to your L1 wallet."
                  end))
    (fun error =>
       logger_error "" ;;
       logger_error "Bridge failed!" ;;
       logger_error ("Error: " +:+ error) ;;
       exit 1)
  end.

(** [main] when [networkConfig] is a member of [Object.prototype]: it
    has a [name] at most and no [network], so the read of
    [networkConfig.network.l1RpcUrl] for the third line of the banner
    throws a [TypeError]. *)
Definition main_on_inherited (member : string) : M Σ unit :=
  let transferMode := if BRIDGE_PRIVATE then "PRIVATE" else "PUBLIC" in
  logger_info (Js.repeat "=" 60) ;;
  logger_info (match dir with
               | L1ToL2 => "Raven Bridge SDK - L1 to L2 Token Bridge"
               | L2ToL1 => "Raven Bridge SDK - L2 to L1 Token Bridge"
               end) ;;
  logger_info (Js.repeat "=" 60) ;;
  logger_info ("Environment: " +:+ Js.inherited_name member) ;;
  logger_info ("Transfer Mode: " +:+ transferMode) ;;
  throw (undefined_read w "networkConfig.network.l1RpcUrl").

(** The module body: the configuration constants, the check of
    [networkConfig], then [main().catch(...)]. *)
Definition script : M Σ unit :=
  match networkConfig with
  | Js.Undefined =>
      console_error
        ["Invalid AZTEC_ENV: " +:+ ENV +:+ ". Must be one of: devnet, sandbox, testnet"] ;;
      exit 1
  | Js.Own networkConfig =>
      try_catch (main networkConfig)
        (fun error =>
           console_error ["Unhandled error:"; error] ;;
           exit 1)
  | Js.Inherited member =>
      try_catch (main_on_inherited member)
        (fun error =>
           console_error ["Unhandled error:"; error] ;;
           exit 1)
  end.

End Script.

Definition bridge_l1_to_l2 {Σ} (w : World Σ) : M Σ unit := script L1ToL2 w.
Definition bridge_l2_to_l1 {Σ} (w : World Σ) : M Σ unit := script L2ToL1 w.

(** The status the process ends with. *)
Definition exit_code {A} (o : Outcome A) : Z :=
  match o with
  | Exit c => c
  | Throw _ => 1
  | Ret _ => 0
  end.

(** Calls that reach one of the two chains: the L2 node and what sits
    behind it (wallet, contracts, simulations), L1 contract reads, and the
    bridge with its step operations.  Building the L1 client and naming
    the node URL are local. *)
Definition chain_interaction (ev : Event) : bool :=
  match ev with
  | EvWaitForNode | EvTestWalletCreate _ | EvCreateSchnorrAccount _ _ _
  | EvGetAccounts | EvGetAccount | EvGetSponsoredFPC
  | EvRegisterContract _ | EvNodeGetContract _ | EvTokenContractAt _
  | EvReadContract _ _ | EvSimulatePublic _ | EvSimulatePrivate _
  | EvBridge _ _ _ _ | EvStepOperation _ | EvStep _ => true
  | EvConsoleError _ | EvLoggerError _ | EvExit _
  | EvCreateL1Client _ _ _ | EvNodeInitialize _ => false
  end.

(** Events of a bridge run: the call of the bridge, its step operations
    and its step announcements. *)
Definition bridge_event (ev : Event) : bool :=
  match ev with
  | EvBridge _ _ _ _ | EvStepOperation _ | EvStep _ => true
  | _ => false
  end.

End Script.

(* ===================================================================== *)
(** * Vocabulary of the properties *)
(* ===================================================================== *)

(** An outside call is a view when it leaves the outside state as it
    found it (an [eth_call] of a [view] function, a [simulate]). *)
Definition view {Σ A} (f : Σ -> Settled A * Σ) : Prop :=
  forall σ, (f σ).2 = σ.

(** A run in which every event satisfies [P], which ends normally only
    with a value in [R], and otherwise only with a thrown error or an exit
    code in [E]. *)
Definition run_within {Σ A} (P : Event -> Prop) (R : A -> Prop)
    (E : string + Z -> Prop) (m : M Σ A) : Prop :=
  forall σ,
    Forall P (trace (m σ)) /\
    match outcome (m σ) with
    | Ret a => R a
    | Throw e => E (inl e)
    | Exit c => E (inr c)
    end.

(** Ways out of a run: by a thrown error only; by a thrown error or
    [process.exit(1)]. *)
Definition only_throws (x : string + Z) : Prop :=
  match x with
  | inl _ => True
  | inr _ => False
  end.

Definition throws_or_exits_1 (x : string + Z) : Prop :=
  match x with
  | inl _ => True
  | inr c => c = 1%Z
  end.

(** ** Configuration of a script run *)

(** The same world with another environment. *)
Definition with_env {Σ} (w : World Σ) (e : gmap string string) : World Σ :=
  {| env := e;
     undefined_read := undefined_read w;
     networks := networks w;
     privateKeyToAccount := privateKeyToAccount w;
     createExtendedL1Client := createExtendedL1Client w;
     waitForNode := waitForNode w;
     TestWallet_create := TestWallet_create w;
     Fr_fromString := Fr_fromString w;
     GrumpkinScalar_fromString := GrumpkinScalar_fromString w;
     createSchnorrAccount := createSchnorrAccount w;
     getAccounts := getAccounts w;
     getAccount := getAccount w;
     getSponsoredFPCInstance := getSponsoredFPCInstance w;
     registerContract := registerContract w;
     AztecAddress_fromString := AztecAddress_fromString w;
     getContract := getContract w;
     TokenContract_at := TokenContract_at w;
     operation := operation w |}.

(** A required variable is missing: unset, or set to the empty string. *)
Definition missing_credential {Σ} (w : World Σ) (name : string) : Prop :=
  Js.truthy (env w !! name) = false.

(** [AZTEC_ENV] names no network of the [networks] table. *)
Definition unknown_environment {Σ} (w : World Σ) : Prop :=
  forall network, Script.networkConfig w <> Js.Own network.

(** The error of [createAccountFromEnv] for a variable that is missing. *)
Definition required_message (name : string) : string :=
  name +:+ " environment variable is required. Please set it in your .env file.".


(** The events of a run up to the creation of the L2 account: the L1
    client, the connection to the node, the test wallet, and the error
    output. *)
Definition before_account (ev : Event) : bool :=
  match ev with
  | EvCreateL1Client _ _ _ | EvNodeInitialize _ | EvWaitForNode
  | EvTestWalletCreate _ | EvConsoleError _ | EvExit _ => true
  | _ => false
  end.

(** Hexadecimal digits: the characters of a private key. *)
Definition hex_digit (c : ascii) : bool :=
  let n := N_of_ascii c in
  ((48 <=? n) && (n <=? 57) || (65 <=? n) && (n <=? 70)
   || (97 <=? n) && (n <=? 102))%N.

Fixpoint hex_string (s : string) : bool :=
  match s with
  | EmptyString => true
  | String c s' => hex_digit c && hex_string s'
  end.

(** The mode in which a bridge call recorded in the trace was made. *)
Definition bridge_call_mode (dir : Direction) (priv : bool) (ev : Event) : Prop :=
  match ev with
  | EvBridge d _ _ p => d = dir /\ p = priv
  | _ => True
  end.

(** ** Reading the trace of a bridge run *)

Global Instance StepId_eq_dec : EqDecision StepId.
Proof. solve_decision. Defined.

Global Instance StepStatus_eq_dec : EqDecision StepStatus.
Proof. solve_decision. Defined.

(** The steps whose chain operation was started, in order. *)
Fixpoint started (t : list Event) : list StepId :=
  match t with
  | [] => []
  | EvStepOperation i :: t' => i :: started t'
  | _ :: t' => started t'
  end.


(** The statuses in which the step [i] was announced, in order. *)
Fixpoint announced (i : StepId) (t : list Event) : list StepStatus :=
  match t with
  | [] => []
  | EvStep s :: t' =>
      if decide (id s = i) then status s :: announced i t' else announced i t'
  | _ :: t' => announced i t'
  end.

(** The order pending < loading < {completed, error}. *)
Definition rank (st : StepStatus) : nat :=
  match st with
  | pending => 0
  | loading => 1
  | completed => 2
  | error => 2
  end.

(** A history of statuses that only moves up in the order. *)
Fixpoint ascending (h : list StepStatus) : Prop :=
  match h with
  | [] => True
  | a :: h' =>
      match h' with
      | [] => True
      | b :: _ => rank a < rank b /\ ascending h'
      end
  end.

(** The events of a step that succeeds, and of a step that fails with [e]. *)
Definition done_events (s : BridgeStep) : list Event :=
  [EvStep (Sdk.with_status loading None s); EvStepOperation (id s);
   EvStep (Sdk.with_status completed None s)].

Definition fail_events (e : string) (s : BridgeStep) : list Event :=
  [EvStep (Sdk.with_status loading None s); EvStepOperation (id s);
   EvStep (Sdk.with_status error (Some e) s)].

(** ** A small world for the examples: one state, every call answers *)

Module Example.

Definition ok {A} (a : A) : unit -> Settled A * unit := fun σ => (Fulfilled a, σ).
Definition ko {A} (e : string) : unit -> Settled A * unit := fun σ => (Rejected e, σ).

Definition rht : Sdk.TokenConfig :=
  {| Sdk.symbol := "RHT"; Sdk.token_name := "Raven House Token";
     Sdk.l1 := {| Sdk.l1_tokenAddress := "0xL1T"; Sdk.portalAddress := "0xL1P" |};
     Sdk.l2 := {| Sdk.l2_tokenAddress := "0xL2T"; Sdk.bridgeAddress := "0xL2B" |} |}.

Definition usdc : Sdk.TokenConfig :=
  {| Sdk.symbol := "USDC"; Sdk.token_name := "USD Coin";
     Sdk.l1 := {| Sdk.l1_tokenAddress := "0xL1U"; Sdk.portalAddress := "0xL1Q" |};
     Sdk.l2 := {| Sdk.l2_tokenAddress := "0xL2U"; Sdk.bridgeAddress := "0xL2C" |} |}.

Definition devnet (toks : list Sdk.TokenConfig) : Sdk.NetworkConfig :=
  {| Sdk.name := "devnet"; Sdk.l1RpcUrl := "http://l1"; Sdk.nodeUrl := "http://l2";
     Sdk.skipSandbox := true; Sdk.tokens := toks; Sdk.zk_verify := "http://zk";
     Sdk.explorer := None |}.

Definition tokenContract : Balance.TokenContract unit :=
  {| Balance.balance_of_public := fun _ => ok 7%Z;
     Balance.balance_of_private := fun _ => ok 9%Z;
     Balance.private_settles_first := false |}.

(** A token contract whose private balance query fails. *)
Definition half_tokenContract : Balance.TokenContract unit :=
  {| Balance.balance_of_public := fun _ => ok 7%Z;
     Balance.balance_of_private := fun _ => ko "private query failed";
     Balance.private_settles_first := false |}.

Definition l1Client (account : string) : Balance.L1Client unit :=
  {| Balance.readContract := fun _ => ok 5%Z; Balance.account_address := account |}.

(** The proof wait of a withdrawal times out; every other step succeeds. *)
Definition proof_times_out (i : StepId) : unit -> Settled (option string) * unit :=
  match i with
  | wait_for_proof => ko "timed out"
  | _ => ok (Some "0xTX")
  end.

Definition all_steps_succeed (i : StepId) : unit -> Settled (option string) * unit :=
  ok (Some "0xTX").

(** A private key of 32 bytes, in hexadecimal. *)
Definition l1_key : string :=
  "0123456789abcdef0123456789abcdef0123456789abcdef0123456789abcdef".

(** viem's [privateKeyToAccount] takes ["0x"] and 64 hexadecimal digits
    and refuses anything else. *)
Definition viem_account (key : string) : Settled string :=
  if String.prefix "0x" key && hex_string (Js.drop 2 key)
     && (String.length key =? 66)%nat
  then Fulfilled "0xACC"
  else Rejected "invalid private key".

(** The wording of JavaScriptCore, the engine of Bun. *)
Definition jsc_undefined_read (expression : string) : string :=
  "undefined is not an object (evaluating '" +:+ expression +:+ "')".

Definition world (e : gmap string string) (toks : list Sdk.TokenConfig) : World unit :=
  {| env := e;
     undefined_read := jsc_undefined_read;
     networks := {[ "devnet" := devnet toks ]};
     privateKeyToAccount := viem_account;
     createExtendedL1Client := l1Client;
     waitForNode := ok tt;
     TestWallet_create := fun _ => ok tt;
     Fr_fromString := fun s => Fulfilled s;
     GrumpkinScalar_fromString := fun s => Fulfilled s;
     createSchnorrAccount := fun _ _ _ => ok "0xL2ACC";
     getAccounts := ok [];
     getAccount := fun a => ok a;
     getSponsoredFPCInstance := ok "0xFPC";
     registerContract := fun _ => ok tt;
     AztecAddress_fromString := fun s => Fulfilled s;
     getContract := fun _ => ok true;
     TokenContract_at := fun _ => ok tokenContract;
     operation := fun _ _ _ _ => proof_times_out |}.

(** Every variable of the README set. *)
Definition full_env : gmap string string :=
  {[ "AZTEC_ENV" := "devnet";
     "ETHEREUM_WALLET_PRIVATE_KEY" := l1_key;
     "ADMIN_SECRET_KEY" := "0x01";
     "ADMIN_SIGNING_KEY" := "0x02";
     "ADMIN_SALT" := "0x03" ]}.

Definition request (priv : bool) : Sdk.BridgeRequest :=
  {| Sdk.token := rht; Sdk.req_amount := "1"; Sdk.isPrivate := priv;
     Sdk.onStep := fun _ => Fulfilled tt |}.

(** The README set without [ADMIN_SECRET_KEY]. *)
Definition env_without_secret : gmap string string :=
  delete "ADMIN_SECRET_KEY" full_env.

(** The README set without the L1 key. *)
Definition env_without_l1_key : gmap string string :=
  delete "ETHEREUM_WALLET_PRIVATE_KEY" full_env.

End Example.

(* ===================================================================== *)
(** * Vocabulary of the further properties *)
(* ===================================================================== *)

(** A variable is set to a text that is not empty. *)
Definition set_to {Σ} (w : World Σ) (name value : string) : Prop :=
  env w !! name = Some value /\ value <> "".

(** A logger that only writes: it makes no outside call, does not throw
    and leaves the outside state alone (the logger of the scripts). *)
Definition quiet {Σ} (logger : Balance.Logger Σ) : Prop :=
  forall msg σ, Balance.info logger msg σ = ([], Ret tt, σ).

(** A logger that writes its lines somewhere in the state, and does
    nothing else. *)
Definition writes {Σ} (logger : Balance.Logger Σ) (write : string -> Σ -> Σ) : Prop :=
  forall msg σ, Balance.info logger msg σ = ([], Ret tt, write msg σ).

(** A call that answers [a] in every state, and leaves the state. *)
Definition answers {Σ A} (f : Σ -> Settled A * Σ) (a : A) : Prop :=
  forall σ, f σ = (Fulfilled a, σ).

(** The message of [createAccountFromEnv] on a value that does not parse. *)
Definition invalid_format_message : string :=
  "Invalid SECRET or SALT format. Please ensure they are valid hex strings starting with "
  +:+ Js.dquote +:+ "0x" +:+ Js.dquote +:+ ".".

(** ** Worlds for the examples of the further properties *)

Module Scenario.

(** What the collaborators answer in a scenario. *)
Record Answers : Type := {
  account_of_key : string -> Settled string;
  node : Settled unit;
  parse : string -> Settled string;
  create : Settled string;
  accounts : Settled (list string);
  has_contract : bool;
  l1_balance : Settled Z;
}.

Definition always {A} (p : Settled A) : unit -> Settled A * unit := fun σ => (p, σ).

(** Hexadecimal values start with ["0x"]. *)
Definition parse_hex (s : string) : Settled string :=
  if String.prefix "0x" s then Fulfilled s else Rejected "expected a hex string".

Definition fine : Answers :=
  {| account_of_key := Example.viem_account;
     node := Fulfilled tt;
     parse := parse_hex;
     create := Fulfilled "0xL2ACC";
     accounts := Fulfilled [];
     has_contract := true;
     l1_balance := Fulfilled 5%Z |}.

Definition world (e : gmap string string) (toks : list Sdk.TokenConfig)
    (a : Answers) : World unit :=
  {| env := e;
     undefined_read := Example.jsc_undefined_read;
     networks := {[ "devnet" := Example.devnet toks ]};
     privateKeyToAccount := account_of_key a;
     createExtendedL1Client := fun account =>
       {| Balance.readContract := fun _ => always (l1_balance a);
          Balance.account_address := account |};
     waitForNode := always (node a);
     TestWallet_create := fun _ => Example.ok tt;
     Fr_fromString := parse a;
     GrumpkinScalar_fromString := parse a;
     createSchnorrAccount := fun _ _ _ => always (create a);
     getAccounts := always (accounts a);
     getAccount := fun account => Example.ok account;
     getSponsoredFPCInstance := Example.ok "0xFPC";
     registerContract := fun _ => Example.ok tt;
     AztecAddress_fromString := fun s => Fulfilled s;
     getContract := fun _ => Example.ok (has_contract a);
     TokenContract_at := fun _ => Example.ok Example.tokenContract;
     operation := fun _ _ _ _ => Example.all_steps_succeed |}.

(** The wallet cannot list its accounts. *)
Definition no_account_list : Answers :=
  {| account_of_key := account_of_key fine; node := node fine; parse := parse fine;
     create := create fine; accounts := Rejected "PXE unavailable";
     has_contract := true; l1_balance := l1_balance fine |}.

(** The wallet refuses to create the account. *)
Definition no_account : Answers :=
  {| account_of_key := account_of_key fine; node := node fine; parse := parse fine;
     create := Rejected "account creation failed"; accounts := accounts fine;
     has_contract := true; l1_balance := l1_balance fine |}.

(** The node does not answer. *)
Definition node_down : Answers :=
  {| account_of_key := account_of_key fine; node := Rejected "node unreachable";
     parse := parse fine; create := create fine; accounts := accounts fine;
     has_contract := true; l1_balance := l1_balance fine |}.

(** The README set with a private key of two bytes, which viem refuses. *)
Definition env_short_key : gmap string string :=
  <["ETHEREUM_WALLET_PRIVATE_KEY" := "ab12"]> Example.full_env.

(** The node knows no contract. *)
Definition no_contract : Answers :=
  {| account_of_key := account_of_key fine; node := node fine; parse := parse fine;
     create := create fine; accounts := accounts fine;
     has_contract := false; l1_balance := l1_balance fine |}.

(** The L1 balance read fails. *)
Definition l1_read_fails : Answers :=
  {| account_of_key := account_of_key fine; node := node fine; parse := parse fine;
     create := create fine; accounts := accounts fine;
     has_contract := true; l1_balance := Rejected "execution reverted" |}.

(** The README set with a signing key that is not hexadecimal. *)
Definition env_bad_signing_key : gmap string string :=
  <["ADMIN_SIGNING_KEY" := "secret"]> Example.full_env.

(** The README set without the signing key. *)
Definition env_without_signing_key : gmap string string :=
  delete "ADMIN_SIGNING_KEY" Example.full_env.

(** A state that is the log, with a logger that appends to it, an L1
    client and a token contract that answer fixed balances. *)
Definition recorder : Balance.Logger (list string) :=
  {| Balance.info := fun msg log => ([], Ret tt, log ++ [msg]) |}.

Definition l1Client_holding (a : Z) : Balance.L1Client (list string) :=
  {| Balance.readContract := fun _ log => (Fulfilled a, log);
     Balance.account_address := "0xACC" |}.

Definition tokenContract_holding (b c : Z) : Balance.TokenContract (list string) :=
  {| Balance.balance_of_public := fun _ log => (Fulfilled b, log);
     Balance.balance_of_private := fun _ log => (Fulfilled c, log);
     Balance.private_settles_first := false |}.

End Scenario.

(** ** Orders of events *)

(** Reading a trace with an automaton: the state reached from [s], or
    [None] when an event is not allowed where it stands. *)
Fixpoint follows {S : Type} (step : S -> Event -> option S) (s : S)
    (t : list Event) : option S :=
  match t with
  | [] => Some s
  | ev :: t' =>
      match step s ev with
      | Some s' => follows step s' t'
      | None => None
      end
  end.

(** A run whose trace the automaton accepts from [s]: it ends normally
    only in a state and with a value in [R], and otherwise only in a state
    and with an error or exit code in [E]. *)
Definition run_phase {Σ A S} (step : S -> Event -> option S) (s : S)
    (R : A -> S -> Prop) (E : S -> string + Z -> Prop) (m : M Σ A) : Prop :=
  forall σ,
    exists s', follows step s (trace (m σ)) = Some s' /\
      match outcome (m σ) with
      | Ret a => R a s'
      | Throw e => E s' (inl e)
      | Exit c => E s' (inr c)
      end.

(** Error output, the exit, and the outside calls. *)
Definition is_report (ev : Event) : bool :=
  match ev with
  | EvConsoleError _ | EvLoggerError _ => true
  | _ => false
  end.

Definition is_call (ev : Event) : bool :=
  match ev with
  | EvConsoleError _ | EvLoggerError _ | EvExit _ => false
  | _ => true
  end.

(** How a process may end: it makes its calls, and then either stops, or
    reports an error (once or more) and exits with status 1, with no call
    in between or after. *)
Inductive Ending : Type := Running | Reported | Exited.

Definition ending_step (s : Ending) (ev : Event) : option Ending :=
  match ev with
  | EvExit c =>
      match s with
      | Reported => if (c =? 1)%Z then Some Exited else None
      | _ => None
      end
  | EvConsoleError _ | EvLoggerError _ =>
      match s with
      | Exited => None
      | _ => Some Reported
      end
  | _ =>
      match s with
      | Running => Some Running
      | _ => None
      end
  end.

(** The balance reads of a trace, in order. *)
Fixpoint balance_reads (t : list Event) : list Event :=
  match t with
  | [] => []
  | EvReadContract token wallet :: t' => EvReadContract token wallet :: balance_reads t'
  | EvSimulatePublic owner :: t' => EvSimulatePublic owner :: balance_reads t'
  | EvSimulatePrivate owner :: t' => EvSimulatePrivate owner :: balance_reads t'
  | _ :: t' => balance_reads t'
  end.

Definition is_bridge_call (ev : Event) : bool :=
  match ev with
  | EvBridge _ _ _ _ => true
  | _ => false
  end.

(** The bridge in a run: the handle of the L2 token contract is built,
    then a balance snapshot is taken (the L1 read, then the public and the
    private simulation), then comes the one call of the bridge, with the
    step operations and announcements that belong to it, then a second
    snapshot.  Neither the handle nor the bridge is asked for twice. *)
Inductive BridgePhase : Type :=
  Setup | Handle | ReadL1 | ReadPublic | Ready
| Bridged | AfterL1 | AfterPublic | Done.

Definition bridge_step (s : BridgePhase) (ev : Event) : option BridgePhase :=
  match ev with
  | EvTokenContractAt _ =>
      match s with
      | Setup => Some Handle
      | _ => None
      end
  | EvReadContract _ _ =>
      match s with
      | Handle => Some ReadL1
      | Bridged => Some AfterL1
      | _ => None
      end
  | EvSimulatePublic _ =>
      match s with
      | ReadL1 => Some ReadPublic
      | AfterL1 => Some AfterPublic
      | _ => None
      end
  | EvSimulatePrivate _ =>
      match s with
      | ReadPublic => Some Ready
      | AfterPublic => Some Done
      | _ => None
      end
  | EvBridge _ _ _ _ =>
      match s with
      | Ready => Some Bridged
      | _ => None
      end
  | EvStepOperation _ | EvStep _ =>
      match s with
      | Bridged => Some Bridged
      | _ => None
      end
  | _ => Some s
  end.

(** The phases from the call of the bridge on. *)
Definition bridge_called (s : BridgePhase) : bool :=
  match s with
  | Bridged | AfterL1 | AfterPublic | Done => true
  | _ => false
  end.

(** The events that concern the order of the bridge; the others may come
    anywhere. *)
Definition bridge_order_event (ev : Event) : bool :=
  match ev with
  | EvTokenContractAt _ | EvReadContract _ _ | EvSimulatePublic _
  | EvSimulatePrivate _ | EvBridge _ _ _ _ | EvStepOperation _ | EvStep _ => true
  | _ => false
  end.

(** Where an error may be thrown inside a [try] block of the scripts:
    before anything was reported. *)
Definition thrown_while_running (s : Ending) (x : string + Z) : Prop :=
  match x with
  | inl _ => s = Running
  | inr _ => False
  end.

(** How [main] may end otherwise than normally: with an error thrown
    before or after a report of it, or by the exit with status 1. *)
Definition main_ends (s : Ending) (x : string + Z) : Prop :=
  match x with
  | inl _ => s = Running \/ s = Reported
  | inr c => s = Exited /\ c = 1%Z
  end.

(** Inside a [try] block nothing exits.  An error of a block begun during
    the setup is thrown during the setup; for the block around the bridge
    the place of a throw is of no concern. *)
Definition thrown_in_block (s0 s : BridgePhase) (x : string + Z) : Prop :=
  match x with
  | inl _ =>
      match s0 with
      | Setup => s = Setup
      | _ => True
      end
  | inr _ => False
  end.

Definition ends_anywhere (s : BridgePhase) (x : string + Z) : Prop := True.

(** ** What a script hands on *)

(** The arguments of the outside calls of a script that come from its
    configuration: the L1 client is built on the normalized key, the RPC
    URL of the network and the sandbox flag; the node and the wallet take
    the node URL and the [skipSandbox] flag; the contracts looked up on
    the node and the L2 token handle are those of the first token of the
    network; the L1 balance is read of the token found as ["RHT"] for the
    address of the L1 account; the bridge is called in the direction of
    the script with that token and the configured amount and mode. *)
Definition handed_on {Σ} (dir : Direction) (w : World Σ)
    (network : Sdk.NetworkConfig) (ev : Event) : Prop :=
  let key :=
    Script.normalizedKey (default "" (env w !! "ETHEREUM_WALLET_PRIVATE_KEY")) in
  match ev with
  | EvCreateL1Client k urls sandbox =>
      k = key /\ urls = Sdk.l1RpcUrl network /\
      sandbox = String.eqb (Script.ENV w) "sandbox"
  | EvNodeInitialize url => url = Sdk.nodeUrl network
  | EvTestWalletCreate prover => prover = Sdk.skipSandbox network
  | EvNodeGetContract a =>
      exists first rest, Sdk.tokens network = first :: rest /\
        (AztecAddress_fromString w (Sdk.bridgeAddress (Sdk.l2 first)) = Fulfilled a \/
         AztecAddress_fromString w (Sdk.l2_tokenAddress (Sdk.l2 first)) = Fulfilled a)
  | EvTokenContractAt a =>
      exists first rest, Sdk.tokens network = first :: rest /\
        AztecAddress_fromString w (Sdk.l2_tokenAddress (Sdk.l2 first)) = Fulfilled a
  | EvReadContract token wallet =>
      exists rhtToken account,
        Sdk.getToken network "RHT" = Some rhtToken /\
        privateKeyToAccount w key = Fulfilled account /\
        token = Sdk.l1_tokenAddress (Sdk.l1 rhtToken) /\
        wallet = Balance.account_address (createExtendedL1Client w account)
  | EvBridge d symbol amount isPrivate =>
      exists rhtToken,
        Sdk.getToken network "RHT" = Some rhtToken /\
        d = dir /\ symbol = Sdk.symbol rhtToken /\
        amount = Script.BRIDGE_AMOUNT dir w /\
        isPrivate = Script.BRIDGE_PRIVATE w
  | _ => True
  end.


(* ===================================================================== *)
(** * Properties *)
(* ===================================================================== *)

(* ===================================================================== *)
(** * Balance formatting is exact *)
(* ===================================================================== *)

Section FormatFacts.
Import Balance.
Local Open Scope N_scope.

Lemma append_cons (c : ascii) (a b : string) :
  String c a +:+ b = String c (a +:+ b).
Proof. reflexivity. Qed.

Lemma append_nil (b : string) : "" +:+ b = b.
Proof. reflexivity. Qed.

Lemma string_app_assoc (a b c : string) : (a +:+ b) +:+ c = a +:+ (b +:+ c).
Proof.
  induction a as [|x a IH]; [reflexivity|]. now rewrite !append_cons, IH.
Qed.

Lemma string_app_nil_r (a : string) : a +:+ "" = a.
Proof.
  induction a as [|x a IH]; [reflexivity|]. now rewrite append_cons, IH.
Qed.

Lemma string_length_app (a b : string) :
  String.length (a +:+ b) = (String.length a + String.length b)%nat.
Proof.
  induction a as [|x a IH]; [reflexivity|].
  rewrite append_cons. simpl. now rewrite IH.
Qed.

Lemma digit_val_digit_char (n : N) : n < 10 -> digit_val (digit_char n) = Some n.
Proof.
  intros Hn. unfold digit_val, digit_char.
  rewrite N_ascii_embedding by lia.
  replace (48 <=? 48 + n) with true by (symmetry; apply N.leb_le; lia).
  replace (48 + n <=? 57) with true by (symmetry; apply N.leb_le; lia).
  simpl. f_equal. lia.
Qed.

Lemma digits_value_app (s t : string) (acc : N) :
  digits_value acc (s +:+ t) =
  match digits_value acc s with
  | Some v => digits_value v t
  | None => None
  end.
Proof.
  revert acc. induction s as [|c s IH]; intros acc; [reflexivity|].
  rewrite append_cons. simpl.
  destruct (digit_val c); [apply IH | reflexivity].
Qed.

Lemma digits_value_fixed (d : nat) : forall n acc,
  digits_value acc (fixed_digits d n) = Some (acc * 10 ^ N.of_nat d + n mod 10 ^ N.of_nat d).
Proof.
  induction d as [|d IH]; intros n acc.
  - simpl. rewrite N.mod_1_r. f_equal. lia.
  - cbn [fixed_digits]. rewrite digits_value_app, IH. cbn [digits_value].
    rewrite digit_val_digit_char by (apply N.mod_lt; lia).
    f_equal. rewrite Nat2N.inj_succ, N.pow_succ_r'.
    rewrite (N.Div0.mod_mul_r n 10 (10 ^ N.of_nat d)). lia.
Qed.

Lemma length_fixed_digits (d : nat) : forall n, String.length (fixed_digits d n) = d.
Proof.
  induction d as [|d IH]; intros n; simpl; [reflexivity|].
  rewrite string_length_app, IH. simpl. lia.
Qed.

Lemma digits_value_zeros (k : nat) : forall acc,
  digits_value acc (zeros k) = Some (acc * 10 ^ N.of_nat k).
Proof.
  induction k as [|k IH]; intros acc.
  - simpl. f_equal. lia.
  - cbn [zeros digits_value]. change (digit_val "0"%char) with (Some 0).
    cbv iota. rewrite IH. f_equal. rewrite Nat2N.inj_succ, N.pow_succ_r'. lia.
Qed.

(** Stripping the final zeros only removes zeros. *)
Lemma strip_trailing_zeros_spec (s : string) :
  exists k : nat, s = strip_trailing_zeros s +:+ zeros k.
Proof.
  induction s as [|c s [k IH]].
  - exists 0%nat. reflexivity.
  - cbn [strip_trailing_zeros].
    destruct (strip_trailing_zeros s) as [|c' t] eqn:E.
    + destruct (Ascii.eqb_spec c "0") as [->|Hc].
      * exists (S k). simpl. now rewrite IH at 1.
      * exists k. simpl. now rewrite IH at 1.
    + exists k. rewrite IH at 1. reflexivity.
Qed.

Lemma length_zeros (k : nat) : String.length (zeros k) = k.
Proof. induction k; simpl; congruence. Qed.

(** Putting the zeros back after the stripped fraction gives the fraction. *)
Lemma strip_trailing_zeros_pad (s : string) :
  strip_trailing_zeros s
    +:+ zeros (String.length s - String.length (strip_trailing_zeros s)) = s.
Proof.
  destruct (strip_trailing_zeros_spec s) as [k Hk].
  assert (Hl : String.length s
            = (String.length (strip_trailing_zeros s) + k)%nat).
  { rewrite Hk at 1. now rewrite string_length_app, length_zeros. }
  rewrite Hl. replace (_ + k - _)%nat with k by lia. now symmetry.
Qed.

Lemma all_digits_string_of_uint (u : Decimal.uint) :
  all_digits (NilEmpty.string_of_uint u).
Proof.
  induction u; simpl; (split; [ | assumption ]) || exact I;
    eexists; reflexivity.
Qed.

Lemma digits_value_string_of_uint (u : Decimal.uint) : forall acc,
  digits_value acc (NilEmpty.string_of_uint u)
  = Some (acc * 10 ^ DecimalPos.Unsigned.usize u + Pos.of_uint u).
Proof.
  induction u; intros acc;
    [ simpl; f_equal; lia | .. ];
    cbn [NilEmpty.string_of_uint digits_value];
    match goal with
    | |- context [digit_val ?c] =>
        let v := eval vm_compute in (digit_val c) in
        change (digit_val c) with v
    end; cbv iota;
    rewrite IHu; f_equal;
    rewrite !DecimalPos.Unsigned.of_uint_alt;
    unfold Decimal.rev; cbn [Decimal.revapp];
    match goal with
    | |- context [Decimal.revapp u (?d Decimal.Nil)] =>
        rewrite (DecimalPos.Unsigned.of_lu_revapp u (d Decimal.Nil))
    end;
    cbn [DecimalPos.Unsigned.usize DecimalPos.Unsigned.of_lu];
    unfold Decimal.rev; rewrite N.pow_succ_r'; lia.
Qed.

Lemma toString_nonempty (n : N) : toString n <> "".
Proof.
  unfold toString, NilZero.string_of_uint.
  destruct (N.to_uint n) eqn:E; simpl; congruence.
Qed.

Lemma all_digits_toString (n : N) : all_digits (toString n).
Proof.
  unfold toString, NilZero.string_of_uint.
  destruct (N.to_uint n) eqn:E;
    [ simpl; split; [eexists; reflexivity | exact I] | .. ];
    rewrite <- E; apply all_digits_string_of_uint.
Qed.

Lemma digits_value_toString (n : N) : digits_value 0 (toString n) = Some n.
Proof.
  unfold toString, NilZero.string_of_uint.
  pose proof (DecimalN.Unsigned.of_to n) as Hn.
  destruct (N.to_uint n) eqn:E;
    [ simpl in Hn; subst n; reflexivity | .. ];
    rewrite digits_value_string_of_uint; f_equal;
    unfold N.of_uint in Hn; rewrite Hn; lia.
Qed.


Lemma is_digit_not_point (c : ascii) : is_digit c -> Ascii.eqb c "." = false.
Proof.
  intros [v Hv]. destruct (Ascii.eqb_spec c ".") as [->|]; [|reflexivity].
  vm_compute in Hv. discriminate.
Qed.

Lemma is_digit_not_minus (c : ascii) : is_digit c -> Ascii.eqb c "-" = false.
Proof.
  intros [v Hv]. destruct (Ascii.eqb_spec c "-") as [->|]; [|reflexivity].
  vm_compute in Hv. discriminate.
Qed.

Lemma split_point_digits (i f : string) :
  all_digits i ->
  split_point (i +:+ match f with "" => "" | _ => "." +:+ f end) = (i, f).
Proof.
  induction i as [|c i IH]; intros Hi.
  - rewrite append_nil. destruct f; reflexivity.
  - destruct Hi as [Hc Hi]. rewrite append_cons. cbn [split_point].
    rewrite (is_digit_not_point c Hc), (IH Hi). reflexivity.
Qed.

Lemma length_strip_trailing_zeros (s : string) :
  (String.length (strip_trailing_zeros s) <= String.length s)%nat.
Proof.
  destruct (strip_trailing_zeros_spec s) as [k Hk].
  rewrite Hk at 2. rewrite string_length_app. lia.
Qed.

(** Reading back what [formatUnits] wrote gives the amount. *)
Lemma smallest_units_formatUnits (value : Z) (decimals : nat) :
  smallest_units (formatUnits value decimals) decimals = Some value.
Proof.
  unfold formatUnits.
  set (scale := 10 ^ N.of_nat decimals).
  set (a := Z.abs_N value).
  set (fd := fixed_digits decimals (a mod scale)).
  assert (Hscale : scale <> 0) by (apply N.pow_nonzero; lia).
  pose proof (toString_nonempty (a / scale)) as Hne.
  pose proof (all_digits_toString (a / scale)) as Hdig.
  pose proof (digits_value_toString (a / scale)) as Hval.
  pose proof (length_strip_trailing_zeros fd) as Hlen.
  pose proof (strip_trailing_zeros_pad fd) as Hpad.
  assert (Hfd : String.length fd = decimals) by apply length_fixed_digits.
  rewrite Hfd in Hlen, Hpad.
  assert (Hbody :
    magnitude
      (toString (a / scale) +:+
       match strip_trailing_zeros fd with "" => "" | _ => "." +:+ strip_trailing_zeros fd end)
      decimals = Some a).
  { unfold magnitude. rewrite (split_point_digits _ _ Hdig).
    replace (String.length (strip_trailing_zeros fd) <=? decimals)%nat with true
      by (symmetry; apply Nat.leb_le; exact Hlen).
    rewrite Hpad. unfold fd.
    destruct (toString (a / scale)) as [|c r]; [congruence|].
    rewrite Hval, digits_value_fixed.
    fold scale. rewrite N.Div0.mod_mod. f_equal.
    rewrite (N.div_mod a scale) at 3 by assumption. lia. }
  unfold smallest_units.
  destruct (Z.ltb_spec value 0) as [Hneg|Hpos].
  - rewrite append_cons, append_nil. cbn [split_sign].
    change (Ascii.eqb "-" "-") with true. cbv iota.
    rewrite Hbody. f_equal. unfold a. rewrite N2Z.inj_abs_N. lia.
  - rewrite append_nil.
    assert (Hs : forall t, split_sign (toString (a / scale) +:+ t)
                 = (false, toString (a / scale) +:+ t)).
    { intros t. destruct (toString (a / scale)) as [|c r]; [congruence|].
      destruct Hdig as [Hc _]. rewrite append_cons. cbn [split_sign].
      now rewrite (is_digit_not_minus c Hc). }
    rewrite Hs, Hbody. f_equal. unfold a.
    rewrite N2Z.inj_abs_N. lia.
Qed.

(** C5.  [formatBalance] renders a smallest-unit amount by exact
    fixed-point scaling at the token's decimal count: an omitted
    [decimals] means 18, [1500000000000000000] at 18 decimals is written
    ["1.5"], and for every amount and every decimal count the text written
    denotes exactly the amount (reading it back at the same scale returns
    it), so no precision is lost. *)
Theorem formatBalance_exact :
  (forall balance : Z,
     formatBalance balance None = formatBalance balance (Some 18%nat)) /\
  formatBalance 1500000000000000000 (Some 18%nat) = "1.5" /\
  formatBalance 1500000000000000000 None = "1.5" /\
  (forall (balance : Z) (decimals : nat),
     smallest_units (formatBalance balance (Some decimals)) decimals = Some balance) /\
  (forall balance : Z,
     smallest_units (formatBalance balance None) 18 = Some balance).
Proof.
  split; [intros balance; reflexivity|].
  split; [vm_compute; reflexivity|].
  split; [vm_compute; reflexivity|].
  split.
  - intros balance decimals. apply smallest_units_formatUnits.
  - intros balance. apply smallest_units_formatUnits.
Qed.

End FormatFacts.

(* ===================================================================== *)
(** * Balance reads *)
(* ===================================================================== *)

Section ReaderFacts.
Context {Σ : Type}.
Import Balance.

(** What a run of [getL1TokenBalance] is, in terms of the client call. *)
Lemma getL1TokenBalance_run (c : L1Client Σ) (token wallet : string) (σ : Σ) :
  let call := readContract c
      {| address := token; functionName := "balanceOf"; args := [wallet] |} σ in
  getL1TokenBalance c token wallet σ =
  ([EvReadContract token wallet],
   match call.1 with Fulfilled v => Ret v | Rejected e => Throw e end,
   call.2).
Proof.
  unfold getL1TokenBalance, await. cbv zeta.
  destruct (readContract c _ σ) as [[v|e] σ1]; reflexivity.
Qed.

(** What a run of [getL2TokenBalances] is, in terms of the two
    simulations: both are issued, the second in the state the first
    left, and the outcome is that of [Promise.all]. *)
Lemma getL2TokenBalances_run (tc : TokenContract Σ) (owner : string) (σ : Σ) :
  let pub := balance_of_public tc owner σ in
  let prv := balance_of_private tc owner pub.2 in
  getL2TokenBalances tc owner σ =
  ([EvSimulatePublic owner; EvSimulatePrivate owner],
   match Promise_all (private_settles_first tc) pub.1 prv.1 with
   | Fulfilled r => Ret {| public := r.1; private := r.2 |}
   | Rejected e => Throw e
   end,
   prv.2).
Proof.
  unfold getL2TokenBalances, bind, start, settle, ret, throw. cbv zeta.
  destruct (balance_of_public tc owner σ) as [p σ1]. cbn [fst snd].
  destruct (balance_of_private tc owner σ1) as [q σ2]. cbn [fst snd].
  destruct p as [a|e1], q as [b|e2]; reflexivity.
Qed.

End ReaderFacts.

(** C4.  The L2 balance read issues the public and the private query
    together: both simulations are started, whatever the other one
    answers, before either result is awaited.  It returns the pair
    [{public, private}] exactly when both queries succeed, with the two
    values they gave; when either query fails the read fails as a whole,
    so one balance is never returned without the other. *)
Theorem getL2TokenBalances_both_or_fail {Σ : Type}
    (tokenContract : Balance.TokenContract Σ) (ownerAddress : string) (σ : Σ) :
  let pub := Balance.balance_of_public tokenContract ownerAddress σ in
  let prv := Balance.balance_of_private tokenContract ownerAddress pub.2 in
  let run := Balance.getL2TokenBalances tokenContract ownerAddress σ in
  trace run = [EvSimulatePublic ownerAddress; EvSimulatePrivate ownerAddress] /\
  (forall a b, pub.1 = Fulfilled a -> prv.1 = Fulfilled b ->
     outcome run = Ret {| Balance.public := a; Balance.private := b |}) /\
  ((exists e, pub.1 = Rejected e) \/ (exists e, prv.1 = Rejected e) ->
     exists e, outcome run = Throw e) /\
  (forall r, outcome run = Ret r ->
     pub.1 = Fulfilled (Balance.public r) /\ prv.1 = Fulfilled (Balance.private r)).
Proof.
  cbv zeta. rewrite getL2TokenBalances_run. cbv zeta.
  destruct (Balance.balance_of_public tokenContract ownerAddress σ) as [p σ1].
  cbn [fst snd].
  destruct (Balance.balance_of_private tokenContract ownerAddress σ1) as [q σ2].
  unfold trace, outcome. cbn [fst snd].
  split; [reflexivity|].
  split; [intros a b -> ->; reflexivity|].
  split.
  - intros [[e ->]|[e ->]].
    + destruct q; simpl; eauto.
    + destruct p; simpl; eauto.
  - intros r. destruct p as [a|e1], q as [b|e2]; simpl; intros [= <-] || intros [=].
    split; reflexivity.
Qed.

(** The failing half of the read above, at a contract whose private
    query is refused. *)
Lemma getL2TokenBalances_both_or_fail_witness :
  exists e,
    outcome (Balance.getL2TokenBalances Example.half_tokenContract "0xL2ACC" tt)
    = Throw e.
Proof.
  destruct (getL2TokenBalances_both_or_fail Example.half_tokenContract "0xL2ACC" tt)
    as (_ & _ & Hfail & _).
  apply Hfail. right. exists "private query failed". reflexivity.
Defined.

(** C8.  Balance reads are idempotent and free of side effects: when the
    contract calls behind them are views, a read leaves the outside state
    as it was, and reading again with the same owner and token, nothing
    having happened in between, returns the same result: the same amount
    on L1, the same [{public, private}] pair on L2 (or the same failure). *)
Theorem balance_reads_idempotent {Σ : Type}
    (l1Client : Balance.L1Client Σ) (tokenContract : Balance.TokenContract Σ)
    (tokenAddress ownerAddress : string) (σ : Σ) :
  (forall request, view (Balance.readContract l1Client request)) ->
  view (Balance.balance_of_public tokenContract ownerAddress) ->
  view (Balance.balance_of_private tokenContract ownerAddress) ->
  let first_l1 := Balance.getL1TokenBalance l1Client tokenAddress ownerAddress σ in
  let again_l1 :=
    Balance.getL1TokenBalance l1Client tokenAddress ownerAddress (final first_l1) in
  let first_l2 := Balance.getL2TokenBalances tokenContract ownerAddress σ in
  let again_l2 :=
    Balance.getL2TokenBalances tokenContract ownerAddress (final first_l2) in
  final first_l1 = σ /\ outcome again_l1 = outcome first_l1 /\
  final first_l2 = σ /\ outcome again_l2 = outcome first_l2.
Proof.
  intros Hread Hpub Hprv. cbv zeta.
  assert (H1 : final (Balance.getL1TokenBalance l1Client tokenAddress ownerAddress σ) = σ).
  { rewrite getL1TokenBalance_run. apply Hread. }
  assert (H2 : final (Balance.getL2TokenBalances tokenContract ownerAddress σ) = σ).
  { rewrite getL2TokenBalances_run. cbv zeta. unfold final. cbn [snd].
    rewrite Hprv. apply Hpub. }
  rewrite H1, H2. repeat split; reflexivity.
Qed.

Lemma balance_reads_idempotent_witness :
  outcome (Balance.getL2TokenBalances Example.tokenContract "0xL2ACC"
             (final (Balance.getL2TokenBalances Example.tokenContract "0xL2ACC" tt)))
  = outcome (Balance.getL2TokenBalances Example.tokenContract "0xL2ACC" tt).
Proof.
  apply (balance_reads_idempotent (Example.l1Client "0xACC") Example.tokenContract
           "0xL1T" "0xL2ACC" tt).
  - intros request σ. reflexivity.
  - intros σ. reflexivity.
  - intros σ. reflexivity.
Defined.

(* ===================================================================== *)
(** * The step machine *)
(* ===================================================================== *)

Section MachineFacts.
Context {Σ : Type}.
Variable operation : StepId -> Σ -> Settled (option string) * Σ.
Variable sink : BridgeStep -> Settled unit.

Local Abbreviation complete := (Sdk.with_status completed None).
Local Abbreviation errored e := (Sdk.with_status error (Some e)).

Lemma announce_run (s : BridgeStep) (σ : Σ) :
  Sdk.announce sink s σ = ([EvStep s], Ret tt, σ).
Proof.
  unfold Sdk.announce, bind, emit, ret. destruct (sink s); reflexivity.
Qed.

(** One step of the machine, spelled out. *)
Lemma run_steps_cons (done rest : list BridgeStep) (s : BridgeStep)
    (tx : option string) (σ : Σ) :
  Sdk.run_steps operation sink done (s :: rest) tx σ =
  match operation (id s) σ with
  | (Fulfilled h, σ1) =>
      let r := Sdk.run_steps operation sink (done ++ [complete s]) rest
                 (match h with Some _ => h | None => tx end) σ1 in
      (done_events s ++ trace r, outcome r, final r)
  | (Rejected e, σ1) =>
      (fail_events e s,
       Ret (false, done ++ errored e s :: rest, tx,
            "Bridge failed at step " +:+ label s +:+ ": " +:+ e),
       σ1)
  end.
Proof.
  cbn [Sdk.run_steps]. unfold bind at 1. rewrite announce_run.
  unfold bind at 1. unfold attempt, try_catch, bind at 1, await.
  destruct (operation (id s) σ) as [[h|e] σ1]; cbn [ret].
  - unfold bind at 1. rewrite announce_run.
    destruct (Sdk.run_steps operation sink _ rest _ σ1) as [[t o] σ2].
    reflexivity.
  - unfold bind at 1. rewrite announce_run. reflexivity.
Qed.

(** The shape of every run: a prefix of the steps completes; then either
    nothing is left, or the next step fails and the rest is untouched. *)
Lemma run_steps_shape (todo : list BridgeStep) :
  forall (done : list BridgeStep) (tx : option string) (σ : Σ),
  exists (ok : bool) (final_steps : list BridgeStep) (tx' : option string)
         (msg : string),
    outcome (Sdk.run_steps operation sink done todo tx σ)
      = Ret (ok, done ++ final_steps, tx', msg) /\
    ((ok = true /\ final_steps = map complete todo /\
      trace (Sdk.run_steps operation sink done todo tx σ) = flat_map done_events todo) \/
     (ok = false /\ exists pre s rest e,
        todo = pre ++ s :: rest /\
        final_steps = map complete pre ++ errored e s :: rest /\
        trace (Sdk.run_steps operation sink done todo tx σ)
          = flat_map done_events pre ++ fail_events e s)).
Proof.
  induction todo as [|s rest IH]; intros done tx σ.
  - exists true, [], tx, "Bridge completed successfully".
    split; [cbn; now rewrite app_nil_r | left; repeat split].
  - rewrite run_steps_cons.
    destruct (operation (id s) σ) as [[h|e] σ1]; cbv zeta.
    + destruct (IH (done ++ [complete s])
                  (match h with Some _ => h | None => tx end) σ1)
        as (ok & fs & tx' & msg & Hout & Hshape).
      exists ok, (complete s :: fs), tx', msg.
      unfold outcome, trace in *. cbn [fst snd] in *.
      split; [rewrite Hout; now rewrite <- app_assoc|].
      destruct Hshape as [(-> & -> & Ht)|(-> & pre & s' & rest' & e & -> & -> & Ht)].
      * left. repeat split. cbn [flat_map]. now rewrite Ht.
      * right. split; [reflexivity|].
        exists (s :: pre), s', rest', e. repeat split.
        cbn [flat_map]. rewrite Ht. now rewrite <- app_assoc.
    + exists false, (errored e s :: rest), tx,
        ("Bridge failed at step " +:+ label s +:+ ": " +:+ e).
      split; [reflexivity|]. right. split; [reflexivity|].
      exists [], s, rest, e. repeat split.
Qed.


End MachineFacts.

Local Abbreviation complete := (Sdk.with_status completed None).
Local Abbreviation errored e := (Sdk.with_status error (Some e)).

(** [execute] always returns a result, and its run has the shape above
    on the step table of the direction. *)
Lemma execute_shape {Σ : Type}
    (operation : StepId -> Σ -> Settled (option string) * Σ) (network : Sdk.NetworkConfig) (dir : Direction)
    (request : Sdk.BridgeRequest) (σ : Σ) :
  let plan := Sdk.initial_steps dir (Sdk.isPrivate request) in
  let run := Sdk.execute operation network dir request σ in
  exists r : Sdk.BridgeResult,
    outcome run = Ret r /\
    Sdk.direction r = dir /\
    ((Sdk.success r = true /\ Sdk.steps r = map complete plan /\
      trace run = flat_map done_events plan) \/
     (Sdk.success r = false /\ exists pre s rest e,
        plan = pre ++ s :: rest /\
        Sdk.steps r = map complete pre ++ errored e s :: rest /\
        trace run = flat_map done_events pre ++ fail_events e s)).
Proof.
  cbv zeta. unfold Sdk.execute, bind.
  destruct (run_steps_shape operation (Sdk.onStep request)
              (Sdk.initial_steps dir (Sdk.isPrivate request)) [] None σ) as (ok & fs & tx' & msg & Hout & Hshape).
  revert Hout Hshape. unfold outcome, trace.
  destruct (Sdk.run_steps operation _ [] _ None σ) as [[t o] σ1].
  cbn [fst snd]. intros -> Hshape. cbn [app ret fst snd].
  eexists. split; [reflexivity|]. cbn [Sdk.direction Sdk.success Sdk.steps].
  split; [reflexivity|]. rewrite app_nil_r. exact Hshape.
Qed.

(** ** Reading the events of a run *)

Lemma started_app (t1 t2 : list Event) : started (t1 ++ t2) = started t1 ++ started t2.
Proof.
  induction t1 as [|ev t1 IH]; [reflexivity|].
  destruct ev; cbn [app started]; rewrite IH; reflexivity.
Qed.


Lemma announced_app (i : StepId) (t1 t2 : list Event) :
  announced i (t1 ++ t2) = announced i t1 ++ announced i t2.
Proof.
  induction t1 as [|ev t1 IH]; [reflexivity|].
  destruct ev; cbn [app announced]; rewrite IH; try reflexivity.
  destruct (decide _); reflexivity.
Qed.

Lemma started_done (l : list BridgeStep) : started (flat_map done_events l) = map id l.
Proof.
  induction l as [|s l IH]; [reflexivity|].
  cbn [flat_map map]. rewrite started_app, IH. reflexivity.
Qed.


Lemma announced_done_other (i : StepId) (l : list BridgeStep) :
  i ∉ map id l -> announced i (flat_map done_events l) = [].
Proof.
  induction l as [|s l IH]; intros Hi; [reflexivity|].
  cbn [map] in Hi. apply not_elem_of_cons in Hi as [Hne Hi].
  cbn [flat_map]. rewrite announced_app, (IH Hi).
  cbn. destruct (decide (id s = i)); [congruence | reflexivity].
Qed.

Lemma announced_done_one (i : StepId) (l : list BridgeStep) :
  NoDup (map id l) -> i ∈ map id l ->
  announced i (flat_map done_events l) = [loading; completed].
Proof.
  induction l as [|s l IH]; intros Hnd Hi; [inversion Hi|].
  cbn [map] in Hnd, Hi. apply NoDup_cons in Hnd as [Hs Hnd].
  cbn [flat_map]. rewrite announced_app. cbn.
  destruct (decide (id s = i)) as [<-|Hne].
  - now rewrite (announced_done_other _ _ Hs).
  - apply elem_of_cons in Hi as [->|Hi]; [congruence|]. now apply IH.
Qed.

Lemma announced_fail (i : StepId) (e : string) (s : BridgeStep) :
  announced i (fail_events e s) = if decide (id s = i) then [loading; error] else [].
Proof. cbn. destruct (decide (id s = i)); reflexivity. Qed.

(** ** The step table *)

Lemma initial_steps_ids (dir : Direction) (priv : bool) :
  map id (Sdk.initial_steps dir priv) = Sdk.step_ids dir.
Proof. destruct dir; reflexivity. Qed.

Lemma step_ids_NoDup (dir : Direction) : NoDup (Sdk.step_ids dir).
Proof. destruct dir; compute_done. Qed.

Lemma initial_steps_pending (dir : Direction) (priv : bool) :
  Forall (fun s => status s = pending) (Sdk.initial_steps dir priv).
Proof. destruct dir; repeat constructor. Qed.


Lemma lookup_map {A B} (f : A -> B) (l : list A) (i : nat) :
  map f l !! i = f <$> (l !! i).
Proof.
  revert i. induction l as [|x l IH]; intros [|i]; try reflexivity. apply IH.
Qed.

(** Every history of one step, at any moment of a run, is one of four. *)
Lemma announced_history {Σ : Type}
    (operation : StepId -> Σ -> Settled (option string) * Σ)
    (network : Sdk.NetworkConfig) (dir : Direction)
    (request : Sdk.BridgeRequest) (σ : Σ) (i : StepId) (seen : list Event) :
  seen `prefix_of` trace (Sdk.execute operation network dir request σ) ->
  announced i seen = [] \/ announced i seen = [loading] \/
  announced i seen = [loading; completed] \/ announced i seen = [loading; error].
Proof.
  intros [later Hseen].
  assert (Hfull : announced i (trace (Sdk.execute operation network dir request σ)) = []
            \/ announced i (trace (Sdk.execute operation network dir request σ))
               = [loading; completed]
            \/ announced i (trace (Sdk.execute operation network dir request σ))
               = [loading; error]).
  { destruct (execute_shape operation network dir request σ)
      as (r & _ & _ & [(_ & _ & ->)|(_ & pre & s & rest & e & Hplan & _ & ->)]).
    - destruct (decide (i ∈ map id (Sdk.initial_steps dir (Sdk.isPrivate request))))
        as [Hin|Hout].
      + right; left. apply announced_done_one; [|exact Hin].
        rewrite initial_steps_ids. apply step_ids_NoDup.
      + left. now apply announced_done_other.
    - pose proof (step_ids_NoDup dir) as Hnd.
      rewrite <- (initial_steps_ids dir (Sdk.isPrivate request)), Hplan in Hnd.
      rewrite map_app in Hnd. cbn [map] in Hnd.
      apply NoDup_app in Hnd as (Hpre & Hdisj & Hrest).
      rewrite announced_app, announced_fail.
      destruct (decide (id s = i)) as [<-|Hne].
      + right; right. rewrite announced_done_other; [reflexivity|].
        intros Hin. apply (Hdisj _ Hin). now left.
      + rewrite app_nil_r.
        destruct (decide (i ∈ map id pre)) as [Hin|Hout].
        * right; left. now apply announced_done_one.
        * left. now apply announced_done_other. }
  rewrite Hseen, announced_app in Hfull.
  destruct (announced i seen) as [|a [|b [|c h]]];
    destruct Hfull as [H|[H|H]]; try discriminate H;
    cbn in H; simplify_eq; auto.
Qed.

Lemma completed_event_kept (s' : BridgeStep) (l : list BridgeStep) :
  EvStep s' ∈ flat_map done_events l -> status s' = completed ->
  s' ∈ map complete l.
Proof.
  induction l as [|p l IH]; intros Hin Hst; [inversion Hin|].
  cbn [flat_map] in Hin. apply elem_of_app in Hin as [Hin|Hin].
  - unfold done_events in Hin.
    repeat (apply elem_of_cons in Hin as [Hin|Hin]); try inversion Hin; subst.
    + discriminate Hst.
    + cbn [map]. left.
  - cbn [map]. right. now apply IH.
Qed.

(** The facts about a failing run that the three properties below share:
    where the steps of the plan stand once the step [s] has failed. *)
Lemma failing_run_facts (dir : Direction) (priv : bool)
    (pre rest : list BridgeStep) (s : BridgeStep) :
  Sdk.initial_steps dir priv = pre ++ s :: rest ->
  NoDup (map id pre) /\ (id s ∉ map id pre) /\
  Forall (fun p => status p = pending /\ (id p ∉ map id pre) /\ id p <> id s) rest.
Proof.
  intros Hplan.
  pose proof (step_ids_NoDup dir) as Hnd.
  pose proof (initial_steps_pending dir priv) as Hpend.
  rewrite <- (initial_steps_ids dir priv), Hplan in Hnd.
  rewrite Hplan in Hpend.
  rewrite map_app in Hnd. cbn [map] in Hnd.
  apply NoDup_app in Hnd as (Hpre & Hdisj & Hrest).
  apply NoDup_cons in Hrest as [Hs Hrest].
  apply Forall_app in Hpend as [_ Hpend].
  apply Forall_cons in Hpend as [_ Hpend].
  split; [exact Hpre|]. split.
  - intros Hin. apply (Hdisj _ Hin). left.
  - apply Forall_forall. intros p Hp.
    split; [exact (proj1 (Forall_forall _ _) Hpend p Hp)|].
    assert (Hid : id p ∈ map id rest).
    { apply list_elem_of_In, in_map, list_elem_of_In, Hp. }
    split.
    + intros Hin. apply (Hdisj _ Hin). now right.
    + intros Heq. apply Hs. now rewrite <- Heq.
Qed.

(** C1.  Every bridge run returns a result, and when a step of the
    returned history has ended in [error]: the run's [success] is false;
    no later step of the sequence was ever started (it is still
    [pending], its chain operation was never called and it was never
    announced); every earlier step is [completed]; and every step that
    was announced [completed] during the run stands, completed, in the
    returned history: progress is reported, not rolled back. *)
Theorem first_error_halts {Σ : Type}
    (operation : StepId -> Σ -> Settled (option string) * Σ)
    (network : Sdk.NetworkConfig) (dir : Direction)
    (request : Sdk.BridgeRequest) (σ : Σ) :
  let run := Sdk.execute operation network dir request σ in
  exists r : Sdk.BridgeResult,
    outcome run = Ret r /\
    forall (k : nat) (s : BridgeStep),
      Sdk.steps r !! k = Some s -> status s = error ->
      Sdk.success r = false /\
      (forall j s', k < j -> Sdk.steps r !! j = Some s' ->
         status s' = pending /\ (id s' ∉ started (trace run)) /\
         announced (id s') (trace run) = []) /\
      (forall j s', j < k -> Sdk.steps r !! j = Some s' -> status s' = completed) /\
      (forall s', EvStep s' ∈ trace run -> status s' = completed ->
         s' ∈ Sdk.steps r).
Proof.
  cbv zeta.
  destruct (execute_shape operation network dir request σ)
    as (r & Hout & _ & [(_ & Hsteps & _)|(Hfail & pre & s0 & rest & e & Hplan & Hsteps & Ht)]);
    exists r; (split; [exact Hout|]); intros k s Hk Hst.
  - (* every step completed: no step is in error *)
    rewrite Hsteps, lookup_map in Hk.
    destruct (Sdk.initial_steps dir (Sdk.isPrivate request) !! k) as [p|];
      cbn in Hk; [|discriminate Hk].
    injection Hk as <-. discriminate Hst.
  - destruct (failing_run_facts dir _ pre rest s0 Hplan) as (Hnd & Hs0 & Hrest).
    assert (Hlen : length (map complete pre) = length pre) by apply length_map.
    assert (Hlater : forall j s', length pre < j -> Sdk.steps r !! j = Some s' ->
                     s' ∈ rest).
    { intros j s' Hj Hl. rewrite Hsteps, lookup_app_r in Hl by lia.
      rewrite Hlen in Hl.
      destruct (j - length pre) as [|m] eqn:Em; [lia|].
      cbn in Hl. apply list_elem_of_lookup. eauto. }
    assert (Hearlier : forall j s', j < length pre -> Sdk.steps r !! j = Some s' ->
                       status s' = completed).
    { intros j s' Hj Hl. rewrite Hsteps, lookup_app_l in Hl by lia.
      rewrite lookup_map in Hl. destruct (pre !! j); cbn in Hl; [|discriminate Hl].
      now injection Hl as <-. }
    assert (Hkpre : k = length pre).
    { destruct (lt_eq_lt_dec k (length pre)) as [[Hlt|Heq]|Hgt]; [|exact Heq|].
      - rewrite (Hearlier k s Hlt Hk) in Hst. discriminate Hst.
      - pose proof (Hlater k s Hgt Hk) as Hin.
        destruct (proj1 (Forall_forall _ _) Hrest s Hin) as (Hp & _).
        rewrite Hp in Hst. discriminate Hst. }
    subst k. split; [exact Hfail|]. split; [|split].
    + intros j s' Hj Hl. pose proof (Hlater j s' Hj Hl) as Hin.
      destruct (proj1 (Forall_forall _ _) Hrest s' Hin) as (Hp & Hnpre & Hne).
      split; [exact Hp|]. rewrite Ht. split.
      * rewrite started_app, started_done. cbn.
        intros Hin'. apply elem_of_app in Hin' as [Hin'|Hin']; [now apply Hnpre|].
        apply list_elem_of_singleton in Hin'. now apply Hne.
      * rewrite announced_app, announced_fail, (announced_done_other _ _ Hnpre).
        destruct (decide (id s0 = id s')); [congruence | reflexivity].
    + exact Hearlier.
    + intros s' Hin Hc. rewrite Ht in Hin. rewrite Hsteps.
      apply elem_of_app in Hin as [Hin|Hin].
      * apply elem_of_app. left. now apply completed_event_kept.
      * unfold fail_events in Hin.
        repeat (apply elem_of_cons in Hin as [Hin|Hin]); try inversion Hin; subst;
          discriminate Hc.
Qed.

(** A withdrawal whose proof wait times out: the step of index 1 is in
    error, and the run is reported as failed. *)
Lemma first_error_halts_witness :
  exists r : Sdk.BridgeResult,
    outcome (Sdk.execute Example.proof_times_out (Example.devnet [Example.rht])
               L2ToL1 (Example.request true) tt) = Ret r /\
    Sdk.success r = false.
Proof.
  destruct (first_error_halts Example.proof_times_out
              (Example.devnet [Example.rht]) L2ToL1 (Example.request true) tt)
    as (r & Hout & Hhalt).
  exists r. split; [exact Hout|].
  vm_compute in Hout. injection Hout as <-.
  refine (proj1 (Hhalt 1 _ _ _)); [vm_compute; reflexivity | reflexivity].
Defined.

(** C2.  At every moment of every run (after any prefix [seen] of its
    events) and for every step [i]: the step starts [pending]; the
    statuses in which it has been observed only go up in the order
    pending < loading < {completed, error}, so it never regresses; and a
    terminal status is observed only after [loading].  The status of a
    step in the returned history is the last one it was observed in. *)
Theorem step_status_never_regresses {Σ : Type}
    (operation : StepId -> Σ -> Settled (option string) * Σ)
    (network : Sdk.NetworkConfig) (dir : Direction)
    (request : Sdk.BridgeRequest) (σ : Σ) (i : StepId) (seen : list Event) :
  let run := Sdk.execute operation network dir request σ in
  seen `prefix_of` trace run ->
  Forall (fun s => status s = pending)
    (Sdk.initial_steps dir (Sdk.isPrivate request)) /\
  ascending (pending :: announced i seen) /\
  (forall before st after,
     announced i seen = before ++ st :: after -> rank st = 2 ->
     loading ∈ before) /\
  exists r : Sdk.BridgeResult,
    outcome run = Ret r /\
    forall s, s ∈ Sdk.steps r ->
      status s = List.last (announced (id s) (trace run)) pending.
Proof.
  cbv zeta. intros Hseen.
  split; [apply initial_steps_pending|].
  pose proof (announced_history operation network dir request σ i seen Hseen) as Hh.
  split; [|split].
  - destruct Hh as [-> | [-> | [-> | ->]]]; cbn; auto.
  - intros before st after Heq Hrank.
    destruct Hh as [H|[H|[H|H]]]; rewrite H in Heq;
      destruct before as [|b0 [|b1 [|b2 before]]]; cbn in Heq;
      simplify_eq; cbn in Hrank; try discriminate Hrank; set_solver.
  - destruct (execute_shape operation network dir request σ)
      as (r & Hout & _ & [(_ & Hsteps & Ht)|(_ & pre & s0 & rest & e & Hplan & Hsteps & Ht)]);
      exists r; (split; [exact Hout|]); intros s Hs; rewrite Ht; rewrite Hsteps in Hs.
    + apply list_elem_of_In in Hs. apply in_map_iff in Hs as (p & <- & Hp).
      rewrite announced_done_one; [reflexivity| |].
      * rewrite initial_steps_ids. apply step_ids_NoDup.
      * apply list_elem_of_In. exact (in_map id _ p Hp).
    + destruct (failing_run_facts dir _ pre rest s0 Hplan) as (Hnd & Hs0 & Hrest).
      rewrite announced_app, announced_fail.
      apply elem_of_app in Hs as [Hs|Hs].
      * apply list_elem_of_In in Hs. apply in_map_iff in Hs as (p & <- & Hp).
        assert (Hin : id p ∈ map id pre)
          by (apply list_elem_of_In; exact (in_map id _ p Hp)).
        change (id (complete p)) with (id p).
        rewrite (announced_done_one _ _ Hnd Hin).
        destruct (decide (id s0 = id p)) as [Heq|]; [|reflexivity].
        exfalso. apply Hs0. now rewrite Heq.
      * apply elem_of_cons in Hs as [-> | Hs].
        -- change (id (errored e s0)) with (id s0).
           rewrite (announced_done_other _ _ Hs0).
           destruct (decide (id s0 = id s0)); [reflexivity|congruence].
        -- destruct (proj1 (Forall_forall _ _) Hrest s Hs) as (Hp & Hnpre & Hne).
           rewrite (announced_done_other _ _ Hnpre).
           destruct (decide (id s0 = id s)); [congruence|]. exact Hp.
Qed.

(** The moment after the burn of a withdrawal has been announced
    [loading] and its operation called. *)
Lemma step_status_never_regresses_witness :
  ascending (pending :: announced burn_on_l2
    (take 2 (trace (Sdk.execute Example.proof_times_out (Example.devnet [Example.rht])
                      L2ToL1 (Example.request true) tt)))).
Proof.
  refine (proj1 (proj2 (step_status_never_regresses Example.proof_times_out
            (Example.devnet [Example.rht]) L2ToL1 (Example.request true) tt
            burn_on_l2 _ _))).
  exists (drop 2 (trace (Sdk.execute Example.proof_times_out
            (Example.devnet [Example.rht]) L2ToL1 (Example.request true) tt))).
  symmetry. apply take_drop.
Defined.





(* ===================================================================== *)
(** * Rules for runs *)
(* ===================================================================== *)

Section RunRules.
Context {Σ : Type}.
Implicit Types (P : Event -> Prop) (E : string + Z -> Prop).

Lemma rw_ret {A} P (R : A -> Prop) E (a : A) :
  R a -> run_within (Σ := Σ) P R E (ret a).
Proof. intros Ha σ. split; [constructor | exact Ha]. Qed.

Lemma rw_throw {A} P (R : A -> Prop) E (e : string) :
  E (inl e) -> run_within (Σ := Σ) P R E (throw e).
Proof. intros He σ. split; [constructor | exact He]. Qed.

Lemma rw_exit {A} P (R : A -> Prop) E (c : Z) :
  P (EvExit c) -> E (inr c) -> run_within (Σ := Σ) P R E (exit c).
Proof. intros Hp He σ. split; [repeat constructor; exact Hp | exact He]. Qed.

Lemma rw_emit P (R : unit -> Prop) E (ev : Event) :
  P ev -> R tt -> run_within (Σ := Σ) P R E (emit ev).
Proof. intros Hp Hr σ. split; [repeat constructor; exact Hp | exact Hr]. Qed.

Lemma rw_await {A} P (R : A -> Prop) E (ev : Event) (f : Σ -> Settled A * Σ) :
  P ev -> (forall a, R a) -> (forall e, E (inl e)) ->
  run_within P R E (await ev f).
Proof.
  intros Hp Hr He σ. unfold await, trace, outcome.
  destruct (f σ) as [[a|e] σ1]; cbn; (split; [repeat constructor; exact Hp|]); auto.
Qed.

Lemma rw_start {A} P (R : Settled A -> Prop) E (ev : Event) (f : Σ -> Settled A * Σ) :
  P ev -> (forall p, R p) -> run_within P R E (start ev f).
Proof.
  intros Hp Hr σ. unfold start, trace, outcome.
  destruct (f σ) as [p σ1]; cbn. split; [repeat constructor; exact Hp | apply Hr].
Qed.

Lemma rw_settle {A} P (R : A -> Prop) E (p : Settled A) :
  (forall a, R a) -> (forall e, E (inl e)) -> run_within (Σ := Σ) P R E (settle p).
Proof.
  intros Hr He. destruct p as [a|e]; [apply rw_ret | apply rw_throw]; auto.
Qed.

Lemma rw_bind {A B} P (R1 : A -> Prop) (R2 : B -> Prop) E
    (m : M Σ A) (k : A -> M Σ B) :
  run_within P R1 E m ->
  (forall a, R1 a -> run_within P R2 E (k a)) ->
  run_within P R2 E (bind m k).
Proof.
  intros Hm Hk σ. destruct (Hm σ) as [Ht Ho]. revert Ht Ho.
  unfold bind, trace, outcome. destruct (m σ) as [[t1 [a|e|c]] σ1]; cbn.
  - intros Ht Ha. destruct (Hk a Ha σ1) as [Ht2 Ho2]. revert Ht2 Ho2.
    unfold trace, outcome. destruct (k a σ1) as [[t2 o] σ2]; cbn.
    intros Ht2 Ho2. split; [apply Forall_app; split; assumption | exact Ho2].
  - intros Ht He. split; assumption.
  - intros Ht He. split; assumption.
Qed.

Lemma rw_try_catch {A} P (R : A -> Prop) E1 E
    (m : M Σ A) (h : string -> M Σ A) :
  run_within P R E1 m ->
  (forall e, E1 (inl e) -> run_within P R E (h e)) ->
  (forall c, E1 (inr c) -> E (inr c)) ->
  run_within P R E (try_catch m h).
Proof.
  intros Hm Hh Hc σ. destruct (Hm σ) as [Ht Ho]. revert Ht Ho.
  unfold try_catch, trace, outcome. destruct (m σ) as [[t1 [a|e|c]] σ1]; cbn.
  - intros Ht Ha. split; assumption.
  - intros Ht He. destruct (Hh e He σ1) as [Ht2 Ho2]. revert Ht2 Ho2.
    unfold trace, outcome. destruct (h e σ1) as [[t2 o] σ2]; cbn.
    intros Ht2 Ho2. split; [apply Forall_app; split; assumption | exact Ho2].
  - intros Ht He. split; [assumption | now apply Hc].
Qed.

Lemma rw_weaken {A} (P P' : Event -> Prop) (R R' : A -> Prop)
    (E E' : string + Z -> Prop) (m : M Σ A) :
  run_within P R E m ->
  (forall ev, P ev -> P' ev) -> (forall a, R a -> R' a) -> (forall x, E x -> E' x) ->
  run_within P' R' E' m.
Proof.
  intros Hm Hp Hr He σ. destruct (Hm σ) as [Ht Ho]. split.
  - eapply Forall_impl; [exact Ht | exact Hp].
  - destruct (outcome (m σ)); auto.
Qed.

End RunRules.

(** Walking through a script: the head of a sequence is one of the
    primitives, whose value is of no concern ([R1] is [True]). *)
Ltac rw_side := try exact I; try reflexivity; try (split; reflexivity).

Ltac rw_prim :=
  lazymatch goal with
  | |- run_within _ _ _ (ret _) => apply rw_ret; rw_side
  | |- run_within _ _ _ (logger_info _) => apply rw_ret; rw_side
  | |- run_within _ _ _ (throw _) => apply rw_throw; rw_side
  | |- run_within _ _ _ (exit _) => apply rw_exit; rw_side
  | |- run_within _ _ _ (emit _) => apply rw_emit; rw_side
  | |- run_within _ _ _ (logger_error _) => apply rw_emit; rw_side
  | |- run_within _ _ _ (console_error _) => apply rw_emit; rw_side
  | |- run_within _ _ _ (await _ _) =>
      apply rw_await; [rw_side | intros; exact I | intros; exact I]
  | |- run_within _ _ _ (start _ _) =>
      apply rw_start; [rw_side | intros; exact I]
  | |- run_within _ _ _ (settle _) =>
      apply rw_settle; [intros; exact I | intros; exact I]
  end.

Section ScriptFacts.
Context {Σ : Type}.
Implicit Types (w : World Σ) (P : Event -> Prop).

(** Events a bridge run may produce besides those of its step machine. *)
Lemma run_steps_within P E
    (operation : StepId -> Σ -> Settled (option string) * Σ)
    (sink : BridgeStep -> Settled unit) (todo : list BridgeStep) :
  (forall s, P (EvStep s)) -> (forall i, P (EvStepOperation i)) ->
  forall done tx,
    run_within P (fun _ => True) E (Sdk.run_steps operation sink done todo tx).
Proof.
  intros Hs Hi. induction todo as [|s rest IH]; intros done tx σ.
  - split; [constructor | exact I].
  - rewrite run_steps_cons. destruct (operation (id s) σ) as [[h|e] σ1]; cbv zeta.
    + destruct (IH (done ++ [Sdk.with_status completed None s])
                  (match h with Some _ => h | None => tx end) σ1) as [Ht Ho].
      unfold trace, outcome in *. cbn [fst snd].
      split; [|exact Ho]. apply Forall_app. split; [|exact Ht].
      unfold done_events. repeat constructor; auto.
    + unfold trace, outcome. cbn [fst snd].
      split; [|exact I]. unfold fail_events. repeat constructor; auto.
Qed.

Lemma log_steps_within P E (dir : Direction) (l : list BridgeStep) :
  run_within (Σ := Σ) P (fun _ => True) E (Script.log_steps dir l).
Proof.
  induction l as [|s l IH]; cbn [Script.log_steps]; [rw_prim|].
  eapply (rw_bind _ (fun _ => True)); [rw_prim | intros _ _; exact IH].
Qed.

End ScriptFacts.

(** Unfolding the functions of the repository on the way. *)
Ltac rw_unfold :=
  lazymatch goal with
  | |- run_within _ _ _ (Account.getAccountFromEnv _) =>
      unfold Account.getAccountFromEnv, Account.createAccountFromEnv
  | |- run_within _ _ _ (Balance.logBalances _ _ _ _ _ _ _ _) =>
      unfold Balance.logBalances
  | |- run_within _ _ _ (Balance.info Script.logger _) =>
      unfold Script.logger; cbn [Balance.info]
  | |- run_within _ _ _ (Balance.getL1TokenBalance _ _ _) => unfold Balance.getL1TokenBalance
  | |- run_within _ _ _ (Balance.getL2TokenBalances _ _) => unfold Balance.getL2TokenBalances
  | |- run_within _ _ _ (Sdk.bridgeL1ToL2 _ _ _) => unfold Sdk.bridgeL1ToL2
  | |- run_within _ _ _ (Sdk.bridgeL2ToL1 _ _ _) => unfold Sdk.bridgeL2ToL1
  | |- run_within _ _ _ (Sdk.bridge _ _ _ _) => unfold Sdk.bridge
  | |- run_within _ _ _ (Sdk.execute _ _ _ _) => unfold Sdk.execute
  | |- run_within _ _ _ (Sdk.run_steps _ _ _ _ _) =>
      apply run_steps_within; intros; rw_side
  | |- run_within _ _ _ (Script.log_steps _ _) => apply log_steps_within
  end.

Ltac rw_step :=
  first
    [ rw_prim
    | progress cbv beta iota zeta
    | lazymatch goal with
      | |- run_within _ _ _ (bind _ _) =>
          eapply (rw_bind _ (fun _ => True)); [ | intros ? _ ]
      | |- run_within _ _ _ (try_catch _ _) =>
          eapply (rw_try_catch _ _ only_throws); [ | intros ? _ | intros ? [] ]
      | |- run_within _ _ _ (attempt _) => unfold attempt
      | |- run_within _ _ _ (if ?c then _ else _) => destruct c
      | |- run_within _ _ _ (match ?x with | (_, _) => _ end) => destruct x
      | |- run_within _ _ _ (match ?x with | Some _ => _ | None => _ end) => destruct x
      | |- run_within _ _ _ (match ?x with | nil => _ | cons _ _ => _ end) => destruct x
      | |- run_within _ _ _ (match ?x with | L1ToL2 => _ | L2ToL1 => _ end) => destruct x
      end
    | rw_unfold ].

Ltac rw_walk := repeat rw_step.

(** A run that never returns normally and leaves only by [process.exit(1)]
    ends with the status 1. *)
Lemma run_within_exit_1 {Σ A} (P : Event -> Prop) (m : M Σ A) (σ : Σ) :
  run_within P (fun _ => False) (fun x => x = inr 1%Z) m ->
  Forall P (trace (m σ)) /\ Script.exit_code (outcome (m σ)) = 1%Z.
Proof.
  intros Hm. destruct (Hm σ) as [Ht Ho]. split; [exact Ht|].
  destruct (outcome (m σ)) as [a|e|c]; [contradiction | discriminate Ho |].
  now injection Ho as ->.
Qed.

(** On a member of [Object.prototype], [main] throws before any call. *)
Lemma main_on_inherited_within {Σ} (P : Event -> Prop) (R : unit -> Prop)
    (dir : Direction) (w : World Σ) (member : string) :
  run_within P R throws_or_exits_1 (Script.main_on_inherited dir w member).
Proof. unfold Script.main_on_inherited. rw_walk. Qed.

(** Whatever [main] does, the module body turns a thrown error into the
    exit status 1. *)
Lemma script_within {Σ} (P : Event -> Prop) (dir : Direction) (w : World Σ) :
  (forall args, P (EvConsoleError args)) -> P (EvExit 1%Z) ->
  (forall network, Script.networkConfig w = Js.Own network ->
     run_within P (fun _ => False) throws_or_exits_1 (Script.main dir w network)) ->
  run_within P (fun _ => False) (fun x => x = inr 1%Z) (Script.script dir w).
Proof.
  intros Hc He Hmain. unfold Script.script.
  destruct (Script.networkConfig w) as [network|member|].
  - eapply (rw_try_catch _ _ throws_or_exits_1).
    + now apply Hmain.
    + intros e _. eapply (rw_bind _ (fun _ => True)).
      * apply rw_emit; [apply Hc | exact I].
      * intros _ _. apply rw_exit; [exact He | reflexivity].
    + intros c Hc1. cbn in Hc1. now subst c.
  - eapply (rw_try_catch _ _ throws_or_exits_1).
    + apply main_on_inherited_within.
    + intros e _. eapply (rw_bind _ (fun _ => True)).
      * apply rw_emit; [apply Hc | exact I].
      * intros _ _. apply rw_exit; [exact He | reflexivity].
    + intros c Hc1. cbn in Hc1. now subst c.
  - eapply (rw_bind _ (fun _ => True)).
    + apply rw_emit; [apply Hc | exact I].
    + intros _ _. apply rw_exit; [exact He | reflexivity].
Qed.

(** ** An unknown token *)

Lemma getToken_absent (network : Sdk.NetworkConfig) (sym : string) :
  sym ∉ map Sdk.symbol (Sdk.tokens network) -> Sdk.getToken network sym = None.
Proof.
  unfold Sdk.getToken. induction (Sdk.tokens network) as [|t l IH]; intros Hsym.
  - reflexivity.
  - cbn [map] in Hsym. apply not_elem_of_cons in Hsym as [Hne Hsym].
    cbn [find]. destruct (String.eqb_spec (Sdk.symbol t) sym) as [Heq|_].
    + now symmetry in Heq.
    + now apply IH.
Qed.

Lemma main_without_RHT {Σ} (dir : Direction) (w : World Σ)
    (network : Sdk.NetworkConfig) :
  Sdk.getToken network "RHT" = None ->
  run_within (fun ev => Script.bridge_event ev = false) (fun _ => False)
    throws_or_exits_1 (Script.main dir w network).
Proof.
  intros Hget. unfold Script.main. rewrite Hget. rw_walk.
Qed.

(** C6.  For a token symbol [sym] that is absent from the network
    configuration: [getToken] returns not-found; the orchestrator, called
    for a token of that symbol, rejects the run with nothing after the
    call itself (no step announced, no step operation started); and a
    script whose token lookup fails never reaches the bridge call: its run
    holds no bridge event at all and the process ends with status 1. *)
Theorem unknown_token_rejected {Σ : Type} (dir : Direction) (w : World Σ)
    (network : Sdk.NetworkConfig) (sym : string) (σ : Σ) :
  sym ∉ map Sdk.symbol (Sdk.tokens network) ->
  Sdk.getToken network sym = None /\
  (forall operation request,
     Sdk.symbol (Sdk.token request) = sym ->
     Sdk.bridge operation network dir request σ
     = ([EvBridge dir sym (Sdk.req_amount request) (Sdk.isPrivate request)],
        Throw "token not configured", σ)) /\
  (Script.networkConfig w = Js.Own network -> sym = "RHT" ->
     Forall (fun ev => Script.bridge_event ev = false)
       (trace (Script.script dir w σ)) /\
     Script.exit_code (outcome (Script.script dir w σ)) = 1%Z).
Proof.
  intros Habsent. pose proof (getToken_absent network sym Habsent) as Hget.
  split; [exact Hget|]. split.
  - intros operation request Hsym. unfold Sdk.bridge, bind, emit, throw.
    rewrite Hsym, Hget. reflexivity.
  - intros Hnet ->. apply run_within_exit_1. apply script_within.
    + reflexivity.
    + reflexivity.
    + intros network' Hnet'. rewrite Hnet in Hnet'. injection Hnet' as <-.
      now apply main_without_RHT.
Qed.

(** A network that lists USDC only: the scripts, which bridge RHT, stop
    with status 1. *)
Lemma unknown_token_rejected_witness :
  Script.exit_code
    (outcome (Script.bridge_l1_to_l2
                (Example.world Example.full_env [Example.usdc]) tt)) = 1%Z.
Proof.
  refine (proj2 (proj2 (proj2 (unknown_token_rejected L1ToL2
            (Example.world Example.full_env [Example.usdc])
            (Example.devnet [Example.usdc]) "RHT" tt _)) _ _)).
  - compute_done.
  - vm_compute. reflexivity.
  - reflexivity.
Defined.

(** ** Evaluating a run *)

Section RunEquations.
Context {Σ : Type}.

Lemma bind_run_ret {A B} (m : M Σ A) (k : A -> M Σ B) (σ σ1 σ2 : Σ)
    (t1 t2 : list Event) (a : A) (o : Outcome B) :
  m σ = (t1, Ret a, σ1) -> k a σ1 = (t2, o, σ2) ->
  bind m k σ = (t1 ++ t2, o, σ2).
Proof. intros Hm Hk. unfold bind. now rewrite Hm, Hk. Qed.

Lemma bind_run_throw {A B} (m : M Σ A) (k : A -> M Σ B) (σ σ1 : Σ)
    (t1 : list Event) (e : string) :
  m σ = (t1, Throw e, σ1) -> bind m k σ = (t1, Throw e, σ1).
Proof. intros Hm. unfold bind. now rewrite Hm. Qed.

Lemma bind_run_exit {A B} (m : M Σ A) (k : A -> M Σ B) (σ σ1 : Σ)
    (t1 : list Event) (c : Z) :
  m σ = (t1, Exit c, σ1) -> bind m k σ = (t1, Exit c, σ1).
Proof. intros Hm. unfold bind. now rewrite Hm. Qed.

Lemma try_catch_run_ret {A} (m : M Σ A) (h : string -> M Σ A) (σ σ1 : Σ)
    (t1 : list Event) (a : A) :
  m σ = (t1, Ret a, σ1) -> try_catch m h σ = (t1, Ret a, σ1).
Proof. intros Hm. unfold try_catch. now rewrite Hm. Qed.

Lemma try_catch_run_throw {A} (m : M Σ A) (h : string -> M Σ A) (σ σ1 σ2 : Σ)
    (t1 t2 : list Event) (e : string) (o : Outcome A) :
  m σ = (t1, Throw e, σ1) -> h e σ1 = (t2, o, σ2) ->
  try_catch m h σ = (t1 ++ t2, o, σ2).
Proof. intros Hm Hh. unfold try_catch. now rewrite Hm, Hh. Qed.

Lemma await_run_ok {A} (ev : Event) (f : Σ -> Settled A * Σ) (σ σ1 : Σ) (a : A) :
  f σ = (Fulfilled a, σ1) -> await ev f σ = ([ev], Ret a, σ1).
Proof. intros Hf. unfold await. now rewrite Hf. Qed.

Lemma await_run_ko {A} (ev : Event) (f : Σ -> Settled A * Σ) (σ σ1 : Σ) (e : string) :
  f σ = (Rejected e, σ1) -> await ev f σ = ([ev], Throw e, σ1).
Proof. intros Hf. unfold await. now rewrite Hf. Qed.

Lemma settle_run_ok {A} (p : Settled A) (a : A) (σ : Σ) :
  p = Fulfilled a -> settle p σ = ([], Ret a, σ).
Proof. now intros ->. Qed.

Lemma settle_run_ko {A} (p : Settled A) (e : string) (σ : Σ) :
  p = Rejected e -> settle p σ = ([], Throw e, σ).
Proof. now intros ->. Qed.

End RunEquations.

(** Evaluating a run step by step; outside calls are answered by the
    hypotheses in the context. *)
Ltac run_prim :=
  lazymatch goal with
  | |- ret _ _ = _ => reflexivity
  | |- throw _ _ = _ => reflexivity
  | |- exit _ _ = _ => reflexivity
  | |- emit _ _ = _ => reflexivity
  | |- logger_info _ _ = _ => reflexivity
  | |- logger_error _ _ = _ => reflexivity
  | |- console_error _ _ = _ => reflexivity
  | |- await _ _ _ = _ =>
      first [ apply await_run_ok; eassumption | apply await_run_ko; eassumption ]
  | |- settle _ _ = _ =>
      first [ apply settle_run_ok; eassumption | apply settle_run_ko; eassumption ]
  | |- Account.createAccountFromEnv _ _ = _ =>
      match goal with
      | H : forall σ, Account.createAccountFromEnv _ σ = _ |- _ => apply H
      end
  end.

Ltac run_eval :=
  repeat first
    [ run_prim
    | progress cbv beta iota zeta
    | lazymatch goal with
      | |- (if ?c then _ else _) _ = _ => destruct c
      end
    | eapply bind_run_ret; [ solve [run_prim | run_eval] | ]
    | eapply bind_run_throw; solve [run_prim | run_eval]
    | eapply bind_run_exit; solve [run_prim | run_eval]
    | eapply try_catch_run_ret; solve [run_prim | run_eval]
    | eapply try_catch_run_throw; [ solve [run_prim | run_eval] | ] ].

(** [m σ = r], computed: the run is evaluated with an unknown right-hand
    side, which is then compared with [r]. *)
Ltac run_is := etransitivity; [ run_eval | try reflexivity ].

Lemma truthy_set_to {Σ} (w : World Σ) (name value : string) :
  set_to w name value -> Js.truthy (env w !! name) = true.
Proof.
  intros [-> Hne]. cbn. destruct (String.eqb_spec value ""); [contradiction | reflexivity].
Qed.

(** ** Configuration errors *)

Lemma script_undefined_environment {Σ} (dir : Direction) (w : World Σ) (σ : Σ) :
  Script.networkConfig w = Js.Undefined ->
  Script.script dir w σ =
  ([EvConsoleError ["Invalid AZTEC_ENV: " +:+ Script.ENV w
                    +:+ ". Must be one of: devnet, sandbox, testnet"];
    EvExit 1%Z], Exit 1%Z, σ).
Proof.
  unfold Script.script. intros ->. reflexivity.
Qed.

(** A name that [networks] inherits passes the check of [networkConfig];
    [main] then throws on its first read of the network. *)
Lemma script_inherited_environment {Σ} (dir : Direction) (w : World Σ)
    (member : string) (σ : Σ) :
  Script.networkConfig w = Js.Inherited member ->
  Script.script dir w σ =
  ([EvConsoleError
      ["Unhandled error:";
       undefined_read w "networkConfig.network.l1RpcUrl"];
    EvExit 1%Z], Exit 1%Z, σ).
Proof.
  unfold Script.script. intros ->. reflexivity.
Qed.

Lemma main_without_l1_key {Σ} (dir : Direction) (w : World Σ)
    (network : Sdk.NetworkConfig) :
  missing_credential w "ETHEREUM_WALLET_PRIVATE_KEY" ->
  run_within (fun _ => False) (fun _ => False)
    (fun x => x = inl "ETHEREUM_WALLET_PRIVATE_KEY environment variable is required")
    (Script.main dir w network).
Proof.
  unfold missing_credential. intros Hkey. unfold Script.main.
  rewrite Hkey. cbn [negb]. rw_walk.
Qed.

(** A run without events that throws [e] is the run [([], Throw e, _)]. *)
Lemma silent_throw {Σ A} (m : M Σ A) (e : string) (σ : Σ) :
  run_within (fun _ => False) (fun _ => False) (fun x => x = inl e) m ->
  trace (m σ) = [] /\ outcome (m σ) = Throw e.
Proof.
  intros Hm. destruct (Hm σ) as [Ht Ho]. split.
  - destruct (trace (m σ)) as [|ev t]; [reflexivity|].
    now apply Forall_cons in Ht as [[] _].
  - destruct (outcome (m σ)) as [a|e'|c]; [contradiction | | discriminate Ho].
    now injection Ho as ->.
Qed.

Lemma script_without_l1_key {Σ} (dir : Direction) (w : World Σ)
    (network : Sdk.NetworkConfig) (σ : Σ) :
  Script.networkConfig w = Js.Own network ->
  missing_credential w "ETHEREUM_WALLET_PRIVATE_KEY" ->
  trace (Script.script dir w σ) =
    [EvConsoleError ["Unhandled error:";
                     "ETHEREUM_WALLET_PRIVATE_KEY environment variable is required"];
     EvExit 1%Z] /\
  outcome (Script.script dir w σ) = Exit 1%Z.
Proof.
  intros Hnet Hkey.
  destruct (silent_throw (Script.main dir w network) _ σ
              (main_without_l1_key dir w network Hkey)) as [Ht Ho].
  revert Ht Ho. unfold Script.script. rewrite Hnet.
  unfold try_catch, trace, outcome.
  destruct (Script.main dir w network σ) as [[t o] σ1]. cbn [fst snd].
  intros -> ->. split; reflexivity.
Qed.

(** Without one of the three account variables, building the L2 account
    throws at once, before any call to the wallet. *)
Lemma createAccountFromEnv_missing {Σ} (w : World Σ) :
  missing_credential w "ADMIN_SECRET_KEY" \/
  missing_credential w "ADMIN_SIGNING_KEY" \/
  missing_credential w "ADMIN_SALT" ->
  run_within (fun _ => False) (fun _ => False) only_throws
    (Account.createAccountFromEnv w).
Proof.
  unfold missing_credential, Account.createAccountFromEnv.
  intros [H|[H|H]]; rewrite H; cbn [negb]; rw_walk.
Qed.

(** What it throws is the message of a variable that is missing. *)
Lemma createAccountFromEnv_missing_message {Σ} (w : World Σ) :
  missing_credential w "ADMIN_SECRET_KEY" \/
  missing_credential w "ADMIN_SIGNING_KEY" \/
  missing_credential w "ADMIN_SALT" ->
  exists name,
    name ∈ ["ADMIN_SECRET_KEY"; "ADMIN_SIGNING_KEY"; "ADMIN_SALT"] /\
    missing_credential w name /\
    forall σ, Account.createAccountFromEnv w σ = ([], Throw (required_message name), σ).
Proof.
  unfold missing_credential. intros Hmissing.
  destruct (Js.truthy (env w !! "ADMIN_SECRET_KEY")) eqn:Hsecret.
  - destruct (Js.truthy (env w !! "ADMIN_SIGNING_KEY")) eqn:Hsigning.
    + assert (Hsalt : Js.truthy (env w !! "ADMIN_SALT") = false)
        by (destruct Hmissing as [H|[H|H]]; congruence).
      exists "ADMIN_SALT". split; [repeat constructor|]. split; [exact Hsalt|].
      intros σ. unfold Account.createAccountFromEnv.
      rewrite Hsecret, Hsigning, Hsalt. reflexivity.
    + exists "ADMIN_SIGNING_KEY". split; [repeat constructor|].
      split; [exact Hsigning|].
      intros σ. unfold Account.createAccountFromEnv.
      rewrite Hsecret, Hsigning. reflexivity.
  - exists "ADMIN_SECRET_KEY". split; [repeat constructor|]. split; [exact Hsecret|].
    intros σ. unfold Account.createAccountFromEnv. rewrite Hsecret. reflexivity.
Qed.

Ltac rw_walk_to_account H :=
  repeat first
    [ lazymatch goal with
      | |- run_within _ _ _ (bind (Account.getAccountFromEnv _) _) =>
          eapply (rw_bind _ (fun _ => False));
          [ eapply rw_weaken;
            [ exact (createAccountFromEnv_missing _ H)
            | intros ? []
            | intros ? []
            | intros [?|?] He; [exact I | destruct He] ]
          | intros ? [] ]
      end
    | rw_step ].

Lemma main_without_account_key {Σ} (dir : Direction) (w : World Σ)
    (network : Sdk.NetworkConfig) :
  missing_credential w "ADMIN_SECRET_KEY" \/
  missing_credential w "ADMIN_SIGNING_KEY" \/
  missing_credential w "ADMIN_SALT" ->
  run_within (fun ev => before_account ev = true) (fun _ => False)
    throws_or_exits_1 (Script.main dir w network).
Proof.
  intros H. unfold Script.main. rw_walk_to_account H.
Qed.

(** The run in which an account variable is missing, when the key is
    accepted, the node answers and the wallet is created: the error
    surfaces after these calls. *)
Lemma script_without_account_key {Σ} (dir : Direction) (w : World Σ)
    (network : Sdk.NetworkConfig) (key account name : string) (σ σ1 σ2 : Σ) :
  Script.networkConfig w = Js.Own network ->
  set_to w "ETHEREUM_WALLET_PRIVATE_KEY" key ->
  privateKeyToAccount w (Script.normalizedKey key) = Fulfilled account ->
  waitForNode w σ = (Fulfilled tt, σ1) ->
  TestWallet_create w (Sdk.skipSandbox network) σ1 = (Fulfilled tt, σ2) ->
  (forall σ', Account.createAccountFromEnv w σ'
              = ([], Throw (required_message name), σ')) ->
  Script.script dir w σ =
  ([EvCreateL1Client (Script.normalizedKey key) (Sdk.l1RpcUrl network)
      (String.eqb (Script.ENV w) "sandbox");
    EvNodeInitialize (Sdk.nodeUrl network);
    EvWaitForNode;
    EvTestWalletCreate (Sdk.skipSandbox network);
    EvConsoleError ["Unhandled error:"; required_message name];
    EvExit 1%Z],
   Exit 1%Z, σ2).
Proof.
  intros Hnet Hkey Haccount Hnode Hwallet Hthrows.
  unfold Script.script; rewrite Hnet; unfold Script.main;
    rewrite (truthy_set_to _ _ _ Hkey), (proj1 Hkey);
    cbn [negb from_option]; unfold Datatypes.id.
  unfold Account.getAccountFromEnv.
  run_is.
Qed.

(** C7 (amended).  Every configuration error is fatal: the process ends
    with status 1 and no bridge run takes place.  An environment name that
    names no network and a missing [ETHEREUM_WALLET_PRIVATE_KEY] abort the
    program before any chain interaction, with nothing in the run but the
    error report (the "Invalid AZTEC_ENV" line for a name that [networks]
    does not have at all; for a name that it inherits from
    [Object.prototype], the [TypeError] of [main]'s first read of the
    network).  A missing [ADMIN_SECRET_KEY], [ADMIN_SIGNING_KEY] or
    [ADMIN_SALT] is found when the L2 account is built, which throws at
    once; by then the script has built the L1 client, connected to the
    Aztec node and created the test wallet, and nothing else: when these
    calls succeed, the run is exactly these calls followed by the report
    of a missing variable and the exit. *)
Theorem configuration_errors_are_fatal {Σ : Type} (dir : Direction)
    (w : World Σ) (σ : Σ) :
  let run := Script.script dir w σ in
  (unknown_environment w ->
     Forall (fun ev => Script.chain_interaction ev = false) (trace run) /\
     outcome run = Exit 1%Z /\
     (Script.networkConfig w = Js.Undefined ->
        trace run =
          [EvConsoleError ["Invalid AZTEC_ENV: " +:+ Script.ENV w
                           +:+ ". Must be one of: devnet, sandbox, testnet"];
           EvExit 1%Z]) /\
     (forall member, Script.networkConfig w = Js.Inherited member ->
        trace run =
          [EvConsoleError
             ["Unhandled error:";
              undefined_read w "networkConfig.network.l1RpcUrl"];
           EvExit 1%Z])) /\
  (missing_credential w "ETHEREUM_WALLET_PRIVATE_KEY" ->
     Forall (fun ev => Script.chain_interaction ev = false) (trace run) /\
     Script.exit_code (outcome run) = 1%Z /\
     (forall network, Script.networkConfig w = Js.Own network ->
        trace run =
          [EvConsoleError
             ["Unhandled error:";
              "ETHEREUM_WALLET_PRIVATE_KEY environment variable is required"];
           EvExit 1%Z])) /\
  (missing_credential w "ADMIN_SECRET_KEY" \/
   missing_credential w "ADMIN_SIGNING_KEY" \/
   missing_credential w "ADMIN_SALT" ->
     Forall (fun ev => before_account ev = true) (trace run) /\
     Forall (fun ev => Script.bridge_event ev = false) (trace run) /\
     Script.exit_code (outcome run) = 1%Z /\
     (forall σ', trace (Account.createAccountFromEnv w σ') = [] /\
                 exists e, outcome (Account.createAccountFromEnv w σ') = Throw e) /\
     (forall network key account σ1 σ2,
        Script.networkConfig w = Js.Own network ->
        set_to w "ETHEREUM_WALLET_PRIVATE_KEY" key ->
        privateKeyToAccount w (Script.normalizedKey key) = Fulfilled account ->
        waitForNode w σ = (Fulfilled tt, σ1) ->
        TestWallet_create w (Sdk.skipSandbox network) σ1 = (Fulfilled tt, σ2) ->
        exists name,
          name ∈ ["ADMIN_SECRET_KEY"; "ADMIN_SIGNING_KEY"; "ADMIN_SALT"] /\
          missing_credential w name /\
          run =
          ([EvCreateL1Client (Script.normalizedKey key) (Sdk.l1RpcUrl network)
              (String.eqb (Script.ENV w) "sandbox");
            EvNodeInitialize (Sdk.nodeUrl network);
            EvWaitForNode;
            EvTestWalletCreate (Sdk.skipSandbox network);
            EvConsoleError ["Unhandled error:"; required_message name];
            EvExit 1%Z],
           Exit 1%Z, σ2))).
Proof.
  cbv zeta. split; [|split].
  - intros Henv. destruct (Script.networkConfig w) as [network|member|] eqn:Hnet.
    + now destruct (Henv network).
    + rewrite (script_inherited_environment dir w member σ Hnet).
      split; [repeat constructor|]. split; [reflexivity|].
      split; [discriminate | reflexivity].
    + rewrite (script_undefined_environment dir w σ Hnet).
      split; [repeat constructor|]. split; [reflexivity|].
      split; [reflexivity | discriminate].
  - intros Hkey. destruct (Script.networkConfig w) as [network|member|] eqn:Hnet.
    + destruct (script_without_l1_key dir w network σ Hnet Hkey) as [Ht Ho].
      rewrite Ht, Ho. split; [repeat constructor|]. split; [reflexivity|].
      intros network' _. reflexivity.
    + rewrite (script_inherited_environment dir w member σ Hnet).
      split; [repeat constructor|]. split; [reflexivity|].
      intros network' Hn. discriminate Hn.
    + rewrite (script_undefined_environment dir w σ Hnet).
      split; [repeat constructor|]. split; [reflexivity|].
      intros network' Hn. discriminate Hn.
  - intros Hacc.
    assert (Hrun : run_within (fun ev => before_account ev = true) (fun _ => False)
                     (fun x => x = inr 1%Z) (Script.script dir w)).
    { apply script_within; [reflexivity | reflexivity |].
      intros network _. now apply main_without_account_key. }
    destruct (run_within_exit_1 _ _ σ Hrun) as [Ht Ho].
    split; [exact Ht|]. split; [|split; [exact Ho|split]].
    + eapply Forall_impl; [exact Ht|]. intros ev Hev. now destruct ev.
    + intros σ'. destruct (createAccountFromEnv_missing w Hacc σ') as [Ht' Ho'].
      split.
      * destruct (trace (Account.createAccountFromEnv w σ')) as [|ev t];
          [reflexivity|].
        now apply Forall_cons in Ht' as [[] _].
      * destruct (outcome (Account.createAccountFromEnv w σ')) as [a|e|c];
          [contradiction | eauto | contradiction].
    + intros network key account σ1 σ2 Hnet Hkey Haccount Hnode Hwallet.
      destruct (createAccountFromEnv_missing_message w Hacc)
        as (name & Hname & Hmissing & Hthrows).
      exists name. split; [exact Hname|]. split; [exact Hmissing|].
      exact (script_without_account_key dir w network key account name σ σ1 σ2
               Hnet Hkey Haccount Hnode Hwallet Hthrows).
Qed.

(** Without [ADMIN_SECRET_KEY]: the error surfaces after the node and
    the wallet. *)
Lemma configuration_errors_are_fatal_witness :
  exists name,
    name ∈ ["ADMIN_SECRET_KEY"; "ADMIN_SIGNING_KEY"; "ADMIN_SALT"] /\
    missing_credential (Example.world Example.env_without_secret [Example.rht]) name /\
    Script.bridge_l2_to_l1
      (Example.world Example.env_without_secret [Example.rht]) tt =
    ([EvCreateL1Client ("0x" +:+ Example.l1_key) "http://l1" false;
      EvNodeInitialize "http://l2";
      EvWaitForNode;
      EvTestWalletCreate true;
      EvConsoleError ["Unhandled error:"; required_message name];
      EvExit 1%Z],
     Exit 1%Z, tt).
Proof.
  refine (proj2 (proj2 (proj2 (proj2 (proj2 (proj2
            (configuration_errors_are_fatal L2ToL1
               (Example.world Example.env_without_secret [Example.rht]) tt)) _))))
            (Example.devnet [Example.rht]) Example.l1_key "0xACC" tt tt _ _ _ _ _).
  - left. vm_compute. reflexivity.
  - vm_compute. reflexivity.
  - split; [vm_compute; reflexivity | discriminate].
  - vm_compute. reflexivity.
  - reflexivity.
  - reflexivity.
Defined.

(** C7 as the specification states it fails: without [ADMIN_SECRET_KEY]
    the script has already waited for the Aztec node and created the test
    wallet when the error surfaces. *)
Lemma missing_account_key_after_node_contact :
  missing_credential (Example.world Example.env_without_secret [Example.rht])
    "ADMIN_SECRET_KEY" /\
  trace (Script.bridge_l1_to_l2
           (Example.world Example.env_without_secret [Example.rht]) tt)
  = [EvCreateL1Client ("0x" +:+ Example.l1_key) "http://l1" false;
     EvNodeInitialize "http://l2";
     EvWaitForNode; EvTestWalletCreate true;
     EvConsoleError
       ["Unhandled error:";
        "ADMIN_SECRET_KEY environment variable is required. Please set it in your .env file."];
     EvExit 1%Z] /\
  ~ Forall (fun ev => Script.chain_interaction ev = false)
      (trace (Script.bridge_l1_to_l2
                (Example.world Example.env_without_secret [Example.rht]) tt)).
Proof.
  split; [vm_compute; reflexivity|].
  split; [vm_compute; reflexivity|].
  intros Hall.
  assert (Hin : EvWaitForNode ∈ trace (Script.bridge_l1_to_l2
            (Example.world Example.env_without_secret [Example.rht]) tt))
    by (vm_compute; set_solver).
  pose proof (proj1 (Forall_forall _ _) Hall _ Hin) as Hno.
  discriminate Hno.
Qed.

(** ** What a script reads of its environment *)

(** A script run depends on the environment only through six variables
    read as they are, the test [BRIDGE_PRIVATE === 'true'], and the L1
    key through its truthiness and its normalized form. *)
Lemma script_env_ext {Σ} (dir : Direction) (w : World Σ)
    (e1 e2 : gmap string string) (σ : Σ) :
  e1 !! "BRIDGE_AMOUNT" = e2 !! "BRIDGE_AMOUNT" ->
  e1 !! "AZTEC_ENV" = e2 !! "AZTEC_ENV" ->
  e1 !! "ADMIN_SECRET_KEY" = e2 !! "ADMIN_SECRET_KEY" ->
  e1 !! "ADMIN_SIGNING_KEY" = e2 !! "ADMIN_SIGNING_KEY" ->
  e1 !! "ADMIN_SALT" = e2 !! "ADMIN_SALT" ->
  Js.strict_eq (e1 !! "BRIDGE_PRIVATE") "true"
    = Js.strict_eq (e2 !! "BRIDGE_PRIVATE") "true" ->
  Js.truthy (e1 !! "ETHEREUM_WALLET_PRIVATE_KEY")
    = Js.truthy (e2 !! "ETHEREUM_WALLET_PRIVATE_KEY") ->
  Script.normalizedKey (default "" (e1 !! "ETHEREUM_WALLET_PRIVATE_KEY"))
    = Script.normalizedKey (default "" (e2 !! "ETHEREUM_WALLET_PRIVATE_KEY")) ->
  Script.script dir (with_env w e1) σ = Script.script dir (with_env w e2) σ.
Proof.
  intros Hamount Henv Hsecret Hsigning Hsalt Hprivate Htruthy Hkey.
  unfold Script.script, Script.main, Script.networkConfig, Script.ENV,
    Script.BRIDGE_AMOUNT, Script.BRIDGE_PRIVATE,
    Account.getAccountFromEnv, Account.createAccountFromEnv.
  cbn [env undefined_read networks privateKeyToAccount createExtendedL1Client waitForNode
       TestWallet_create Fr_fromString GrumpkinScalar_fromString
       createSchnorrAccount getAccounts getAccount getSponsoredFPCInstance
       registerContract AztecAddress_fromString getContract TokenContract_at
       operation with_env].
  rewrite Hamount, Henv, Hsecret, Hsigning, Hsalt, Hprivate, Htruthy, Hkey.
  reflexivity.
Qed.

(** ** The L1 private key *)

Lemma hex_digit_not_x (c : ascii) : hex_digit c = true -> c <> "x"%char.
Proof. intros Hc ->. vm_compute in Hc. discriminate Hc. Qed.

(** A string of hexadecimal digits does not start with ["0x"]. *)
Lemma hex_string_no_prefix (k : string) :
  hex_string k = true -> String.prefix "0x" k = false.
Proof.
  destruct k as [|c [|d k]]; cbn [hex_string String.prefix]; intros Hk.
  - reflexivity.
  - destruct (ascii_dec "0" c); reflexivity.
  - apply andb_prop in Hk as [_ Hk]. apply andb_prop in Hk as [Hd _].
    destruct (ascii_dec "0" c); [|reflexivity].
    destruct (ascii_dec "x" d) as [<-|]; [|reflexivity].
    vm_compute in Hd. discriminate Hd.
Qed.

(** Nothing is replaced in a string of hexadecimal digits. *)
Lemma replace_hex_string (k : string) :
  hex_string k = true -> Js.replace "0x" "" k = k.
Proof.
  induction k as [|c k IH]; intros Hk.
  - reflexivity.
  - cbn [Js.replace]. rewrite (hex_string_no_prefix _ Hk).
    cbn [hex_string] in Hk. apply andb_prop in Hk as [_ Hk].
    now rewrite (IH Hk).
Qed.

Lemma replace_prefixed (k : string) : Js.replace "0x" "" ("0x" +:+ k) = k.
Proof.
  change ("0x" +:+ k) with (String "0" (String "x" k)).
  destruct k; reflexivity.
Qed.

(** C9.  For a private key [k] of hexadecimal digits, both scripts turn
    the key written with the prefix ["0x"] and the key written without it
    into the same text ["0x" ++ k] before the account is derived: the
    same L1 account is derived from both, and the two runs of a script
    are the same run. *)
Theorem private_key_prefix_normalized {Σ : Type} (dir : Direction)
    (w : World Σ) (σ : Σ) (k : string) :
  hex_string k = true -> k <> "" ->
  Script.normalizedKey ("0x" +:+ k) = "0x" +:+ k /\
  Script.normalizedKey k = "0x" +:+ k /\
  privateKeyToAccount w (Script.normalizedKey ("0x" +:+ k))
    = privateKeyToAccount w (Script.normalizedKey k) /\
  Script.script dir
    (with_env w (<["ETHEREUM_WALLET_PRIVATE_KEY" := "0x" +:+ k]> (env w))) σ
  = Script.script dir
      (with_env w (<["ETHEREUM_WALLET_PRIVATE_KEY" := k]> (env w))) σ.
Proof.
  intros Hhex Hne.
  assert (H1 : Script.normalizedKey ("0x" +:+ k) = "0x" +:+ k).
  { unfold Script.normalizedKey. now rewrite replace_prefixed. }
  assert (H2 : Script.normalizedKey k = "0x" +:+ k).
  { unfold Script.normalizedKey. now rewrite (replace_hex_string _ Hhex). }
  split; [exact H1|]. split; [exact H2|]. split; [now rewrite H1, H2|].
  apply script_env_ext;
    rewrite ?lookup_insert_eq, ?lookup_insert_ne by discriminate; try reflexivity.
  - cbn [Js.truthy]. destruct k as [|c k]; [contradiction|]. reflexivity.
  - unfold from_option, Datatypes.id. now rewrite H1, H2.
Qed.

Lemma private_key_prefix_normalized_witness :
  Script.normalizedKey ("0x" +:+ Example.l1_key) = Script.normalizedKey Example.l1_key.
Proof.
  destruct (private_key_prefix_normalized L1ToL2
              (Example.world Example.full_env [Example.rht]) tt Example.l1_key)
    as (H1 & H2 & _).
  - reflexivity.
  - discriminate.
  - exact (eq_trans H1 (eq_sym H2)).
Defined.

(** ** The privacy mode *)

Lemma main_bridge_mode {Σ} (dir : Direction) (w : World Σ)
    (network : Sdk.NetworkConfig) :
  run_within (bridge_call_mode dir (Script.BRIDGE_PRIVATE w)) (fun _ => True)
    throws_or_exits_1 (Script.main dir w network).
Proof. unfold Script.main. rw_walk. Qed.

Lemma script_bridge_mode {Σ} (dir : Direction) (w : World Σ) (σ : Σ) :
  Forall (bridge_call_mode dir (Script.BRIDGE_PRIVATE w))
    (trace (Script.script dir w σ)).
Proof.
  assert (Hrun : run_within (bridge_call_mode dir (Script.BRIDGE_PRIVATE w))
                   (fun _ => True) (fun _ => True) (Script.script dir w)).
  { unfold Script.script. destruct (Script.networkConfig w) as [network|member|].
    - eapply (rw_try_catch _ _ throws_or_exits_1);
        [apply main_bridge_mode | intros e _; rw_walk | intros; exact I].
    - eapply (rw_try_catch _ _ throws_or_exits_1);
        [apply main_on_inherited_within | intros e _; rw_walk | intros; exact I].
    - rw_walk. }
  apply Hrun.
Qed.

(** C10.  Private mode is on exactly when [BRIDGE_PRIVATE] is the string
    ["true"]: every bridge call a script makes is made in that mode, and a
    script run with any other value of the variable is the same run as
    with the variable unset: public mode, and no error for the value. *)
Theorem private_mode_iff_true {Σ : Type} (dir : Direction) (w : World Σ) (σ : Σ) :
  (Script.BRIDGE_PRIVATE w = true <-> env w !! "BRIDGE_PRIVATE" = Some "true") /\
  Forall (bridge_call_mode dir (Script.BRIDGE_PRIVATE w))
    (trace (Script.script dir w σ)) /\
  (forall v : string, v <> "true" ->
     Script.BRIDGE_PRIVATE (with_env w (<["BRIDGE_PRIVATE" := v]> (env w))) = false /\
     Script.BRIDGE_PRIVATE (with_env w (delete "BRIDGE_PRIVATE" (env w))) = false /\
     Script.script dir (with_env w (<["BRIDGE_PRIVATE" := v]> (env w))) σ
     = Script.script dir (with_env w (delete "BRIDGE_PRIVATE" (env w))) σ).
Proof.
  split; [|split].
  - unfold Script.BRIDGE_PRIVATE, Js.strict_eq.
    destruct (env w !! "BRIDGE_PRIVATE") as [s|]; [|split; discriminate].
    destruct (String.eqb_spec s "true") as [->|Hne]; split; try reflexivity;
      try discriminate. intros [= ->]. contradiction.
  - apply script_bridge_mode.
  - intros v Hv.
    assert (Hoff : Js.strict_eq (<["BRIDGE_PRIVATE" := v]> (env w) !! "BRIDGE_PRIVATE")
                     "true" = false).
    { rewrite lookup_insert_eq. cbn [Js.strict_eq]. now apply String.eqb_neq. }
    assert (Hunset : Js.strict_eq (delete "BRIDGE_PRIVATE" (env w) !! "BRIDGE_PRIVATE")
                       "true" = false).
    { now rewrite lookup_delete_eq. }
    split; [exact Hoff|]. split; [exact Hunset|].
    apply script_env_ext;
      rewrite ?lookup_insert_ne, ?lookup_delete_ne by discriminate;
      try reflexivity.
    now rewrite Hoff, Hunset.
Qed.

(** [BRIDGE_PRIVATE=TRUE] is public mode. *)
Lemma private_mode_iff_true_witness :
  Script.BRIDGE_PRIVATE
    (with_env (Example.world Example.full_env [Example.rht])
       (<["BRIDGE_PRIVATE" := "TRUE"]> Example.full_env)) = false.
Proof.
  refine (proj1 (proj2 (proj2 (private_mode_iff_true L1ToL2
            (Example.world Example.full_env [Example.rht]) tt)) "TRUE" _)).
  discriminate.
Defined.

(** [replace] with a string pattern is not anchored at the start: on a
    text that is not a key, a ["0x"] further in is what it removes. *)
Example replace_first_occurrence :
  Script.normalizedKey "ab0xcd" = "0xabcd" /\
  Script.normalizedKey "0xab0xcd" = "0xab0xcd".
Proof. split; reflexivity. Qed.

(* ===================================================================== *)
(** * Further properties: the account from the environment *)
(* ===================================================================== *)

Section AccountFacts.
Context {Σ : Type} (w : World Σ).

(** X1.  The three variables are checked in the order secret, signing key,
    salt, and the first one that is missing is the one reported; nothing
    was asked of the wallet and nothing was logged as an error. *)
Theorem createAccountFromEnv_reports_first_missing (σ : Σ) :
  (missing_credential w "ADMIN_SECRET_KEY" ->
     Account.createAccountFromEnv w σ =
     ([], Throw "ADMIN_SECRET_KEY environment variable is required. Please set it in your .env file.", σ)) /\
  (forall secret,
     set_to w "ADMIN_SECRET_KEY" secret ->
     missing_credential w "ADMIN_SIGNING_KEY" ->
     Account.createAccountFromEnv w σ =
     ([], Throw "ADMIN_SIGNING_KEY environment variable is required. Please set it in your .env file.", σ)) /\
  (forall secret signing,
     set_to w "ADMIN_SECRET_KEY" secret ->
     set_to w "ADMIN_SIGNING_KEY" signing ->
     missing_credential w "ADMIN_SALT" ->
     Account.createAccountFromEnv w σ =
     ([], Throw "ADMIN_SALT environment variable is required. Please set it in your .env file.", σ)).
Proof.
  unfold missing_credential. split; [|split].
  - intros H. unfold Account.createAccountFromEnv. rewrite H. reflexivity.
  - intros secret Hs H. unfold Account.createAccountFromEnv.
    rewrite (truthy_set_to _ _ _ Hs), H. reflexivity.
  - intros secret signing Hs Hg H. unfold Account.createAccountFromEnv.
    rewrite (truthy_set_to _ _ _ Hs), (truthy_set_to _ _ _ Hg), H. reflexivity.
Qed.

(** Bringing [createAccountFromEnv] to the point where the three
    variables have been found set. *)
Ltac account_variables_set Hs Hg Ha :=
  unfold Account.createAccountFromEnv;
  rewrite (truthy_set_to _ _ _ Hs), (truthy_set_to _ _ _ Hg), (truthy_set_to _ _ _ Ha);
  rewrite (proj1 Hs), (proj1 Hg), (proj1 Ha);
  cbn [negb from_option]; unfold Datatypes.id.

(** X2.  A value that does not parse: the parser's error is logged as the
    template literal renders it (["Error: "] and its message), and what
    is thrown is the fixed "Invalid SECRET or SALT format" message,
    whichever of the three values was at fault (the signing key too); the
    values are parsed in the order secret, signing key, salt, and the
    wallet is not called. *)
Theorem createAccountFromEnv_parse_failure (σ : Σ)
    (secret signing salt reason : string) :
  set_to w "ADMIN_SECRET_KEY" secret ->
  set_to w "ADMIN_SIGNING_KEY" signing ->
  set_to w "ADMIN_SALT" salt ->
  Fr_fromString w secret = Rejected reason \/
  (exists secretKey, Fr_fromString w secret = Fulfilled secretKey /\
     GrumpkinScalar_fromString w signing = Rejected reason) \/
  (exists secretKey signingKey,
     Fr_fromString w secret = Fulfilled secretKey /\
     GrumpkinScalar_fromString w signing = Fulfilled signingKey /\
     Fr_fromString w salt = Rejected reason) ->
  Account.createAccountFromEnv w σ =
  ([EvLoggerError ("Failed to parse SECRET and SALT values: "
                   +:+ Js.error_to_string reason)],
   Throw invalid_format_message, σ).
Proof.
  intros Hs Hg Ha Hparse. account_variables_set Hs Hg Ha.
  destruct Hparse as [H1 | [(sk & H1 & H2) | (sk & gk & H1 & H2 & H3)]]; run_is.
Qed.

(** X3.  With the three values parsed, the account is created from them in
    the order (secret key, salt, signing key) and returned.  The look at
    the registered accounts that follows cannot make the call fail:
    whatever [getAccounts] answers, also when it rejects, the account is
    returned. *)
Theorem createAccountFromEnv_returns_account (σ σ1 : Σ)
    (secret signing salt secretKey signingKey saltValue account : string) :
  set_to w "ADMIN_SECRET_KEY" secret ->
  set_to w "ADMIN_SIGNING_KEY" signing ->
  set_to w "ADMIN_SALT" salt ->
  Fr_fromString w secret = Fulfilled secretKey ->
  GrumpkinScalar_fromString w signing = Fulfilled signingKey ->
  Fr_fromString w salt = Fulfilled saltValue ->
  createSchnorrAccount w secretKey saltValue signingKey σ = (Fulfilled account, σ1) ->
  Account.createAccountFromEnv w σ =
  ([EvCreateSchnorrAccount secretKey saltValue signingKey; EvGetAccounts],
   Ret account, (getAccounts w σ1).2).
Proof.
  intros Hs Hg Ha H1 H2 H3 Hacc. account_variables_set Hs Hg Ha.
  destruct (getAccounts w σ1) as [[registered|e] σ2] eqn:Hreg; cbn [snd].
  - run_is.
  - run_is.
Qed.

(** X4.  When the wallet refuses to create the account, its error is the
    error of the call, and the registered accounts are not looked at. *)
Theorem createAccountFromEnv_wallet_refuses (σ σ1 : Σ)
    (secret signing salt secretKey signingKey saltValue reason : string) :
  set_to w "ADMIN_SECRET_KEY" secret ->
  set_to w "ADMIN_SIGNING_KEY" signing ->
  set_to w "ADMIN_SALT" salt ->
  Fr_fromString w secret = Fulfilled secretKey ->
  GrumpkinScalar_fromString w signing = Fulfilled signingKey ->
  Fr_fromString w salt = Fulfilled saltValue ->
  createSchnorrAccount w secretKey saltValue signingKey σ = (Rejected reason, σ1) ->
  Account.createAccountFromEnv w σ =
  ([EvCreateSchnorrAccount secretKey saltValue signingKey], Throw reason, σ1).
Proof.
  intros Hs Hg Ha H1 H2 H3 Hacc. account_variables_set Hs Hg Ha. run_is.
Qed.

End AccountFacts.

(** Without the signing key, the signing key is the variable reported. *)
Lemma createAccountFromEnv_reports_first_missing_witness :
  Account.createAccountFromEnv
    (Scenario.world Scenario.env_without_signing_key [Example.rht] Scenario.fine) tt =
  ([], Throw "ADMIN_SIGNING_KEY environment variable is required. Please set it in your .env file.", tt).
Proof.
  refine (proj1 (proj2 (createAccountFromEnv_reports_first_missing
            (Scenario.world Scenario.env_without_signing_key [Example.rht] Scenario.fine)
            tt)) "0x01" _ _).
  - split; [vm_compute; reflexivity | discriminate].
  - vm_compute. reflexivity.
Defined.

(** A signing key that is not hexadecimal. *)
Lemma createAccountFromEnv_parse_failure_witness :
  Account.createAccountFromEnv
    (Scenario.world Scenario.env_bad_signing_key [Example.rht] Scenario.fine) tt =
  ([EvLoggerError
      "Failed to parse SECRET and SALT values: Error: expected a hex string"],
   Throw invalid_format_message, tt).
Proof.
  refine (createAccountFromEnv_parse_failure
            (Scenario.world Scenario.env_bad_signing_key [Example.rht] Scenario.fine)
            tt "0x01" "secret" "0x03" "expected a hex string" _ _ _ _).
  - split; [vm_compute; reflexivity | discriminate].
  - split; [vm_compute; reflexivity | discriminate].
  - split; [vm_compute; reflexivity | discriminate].
  - right. left. exists "0x01". split; reflexivity.
Defined.

(** The wallet cannot list its accounts: the account is returned all the
    same. *)
Lemma createAccountFromEnv_returns_account_witness :
  Account.createAccountFromEnv
    (Scenario.world Example.full_env [Example.rht] Scenario.no_account_list) tt =
  ([EvCreateSchnorrAccount "0x01" "0x03" "0x02"; EvGetAccounts], Ret "0xL2ACC", tt).
Proof.
  refine (createAccountFromEnv_returns_account
            (Scenario.world Example.full_env [Example.rht] Scenario.no_account_list)
            tt tt "0x01" "0x02" "0x03" "0x01" "0x02" "0x03" "0xL2ACC" _ _ _ _ _ _ _);
    try reflexivity; split; (vm_compute; reflexivity) || discriminate.
Defined.

Lemma createAccountFromEnv_wallet_refuses_witness :
  Account.createAccountFromEnv
    (Scenario.world Example.full_env [Example.rht] Scenario.no_account) tt =
  ([EvCreateSchnorrAccount "0x01" "0x03" "0x02"], Throw "account creation failed", tt).
Proof.
  refine (createAccountFromEnv_wallet_refuses
            (Scenario.world Example.full_env [Example.rht] Scenario.no_account)
            tt tt "0x01" "0x02" "0x03" "0x01" "0x02" "0x03" "account creation failed"
            _ _ _ _ _ _ _);
    try reflexivity; split; (vm_compute; reflexivity) || discriminate.
Defined.

(* ===================================================================== *)
(** * Further properties: the balance log *)
(* ===================================================================== *)

Section LogBalancesFacts.
Context {Σ : Type}.
Import Balance.

(** X5.  [logBalances] reads the L1 balance first and the two L2 balances
    after it.  When the L1 read fails, it fails with that error and the
    L2 balances are not queried; when the L1 read succeeds, both L2
    queries are made and the call ends as the L2 read does.  With a
    logger that only writes, these three calls are all it does. *)
Theorem logBalances_reads_in_order (label : string) (l1Client : L1Client Σ)
    (l1TokenAddress l1WalletAddress : string) (tokenContract : TokenContract Σ)
    (l2OwnerAddress symbol : string) (logger : Logger Σ) (σ : Σ) :
  quiet logger ->
  let l1 := readContract l1Client
      {| address := l1TokenAddress; functionName := "balanceOf";
         args := [l1WalletAddress] |} σ in
  let l2 := getL2TokenBalances tokenContract l2OwnerAddress l1.2 in
  logBalances label l1Client l1TokenAddress l1WalletAddress tokenContract
    l2OwnerAddress symbol logger σ =
  match l1.1 with
  | Rejected e => ([EvReadContract l1TokenAddress l1WalletAddress], Throw e, l1.2)
  | Fulfilled _ =>
      ([EvReadContract l1TokenAddress l1WalletAddress;
        EvSimulatePublic l2OwnerAddress; EvSimulatePrivate l2OwnerAddress],
       match outcome l2 with
       | Ret _ => Ret tt
       | Throw e => Throw e
       | Exit c => Exit c
       end,
       final l2)
  end.
Proof.
  intros Hquiet. cbv zeta. unfold logBalances.
  pose proof (getL1TokenBalance_run l1Client l1TokenAddress l1WalletAddress) as Hl1.
  cbv zeta in Hl1.
  unfold bind at 1. rewrite Hquiet. unfold bind at 1. rewrite Hquiet.
  unfold bind at 1. rewrite Hl1.
  destruct (readContract l1Client _ σ) as [[b|e] σ1]; cbn [fst snd]; [|reflexivity].
  unfold bind at 1. rewrite Hquiet. unfold bind at 1.
  pose proof (getL2TokenBalances_run tokenContract l2OwnerAddress σ1) as Hl2.
  cbv zeta in Hl2. rewrite Hl2. unfold outcome, final. cbn [fst snd].
  destruct (Promise_all _ _ _) as [r|e]; [|reflexivity].
  unfold bind at 1. rewrite Hquiet. unfold bind at 1. rewrite Hquiet.
  rewrite Hquiet. reflexivity.
Qed.

End LogBalancesFacts.

(** The L1 read fails: the log stops there. *)
Lemma logBalances_reads_in_order_witness :
  Balance.logBalances "BEFORE BRIDGE"
    (createExtendedL1Client
       (Scenario.world Example.full_env [Example.rht] Scenario.l1_read_fails) "0xACC")
    "0xL1T" "0xACC" Example.tokenContract "0xL2ACC" "RHT" Script.logger tt
  = ([EvReadContract "0xL1T" "0xACC"], Throw "execution reverted", tt).
Proof.
  refine (logBalances_reads_in_order "BEFORE BRIDGE"
            (createExtendedL1Client
               (Scenario.world Example.full_env [Example.rht] Scenario.l1_read_fails)
               "0xACC")
            "0xL1T" "0xACC" Example.tokenContract "0xL2ACC" "RHT" Script.logger tt _).
  intros msg σ. reflexivity.
Defined.

Section LogBalancesLines.
Context {Σ : Type}.
Import Balance.

(** X6.  What [logBalances] writes when the three reads succeed: an empty
    line, the label between [===], then the L1 balance, the public and the
    private L2 balance, each rendered by [formatBalance] with the default
    decimals and followed by the symbol, each on the line that names it,
    and an empty line; the first two lines are written before the L1
    read, and the call returns normally. *)
Theorem logBalances_lines (label : string) (l1Client : L1Client Σ)
    (l1TokenAddress l1WalletAddress : string) (tokenContract : TokenContract Σ)
    (l2OwnerAddress symbol : string) (logger : Logger Σ)
    (write : string -> Σ -> Σ) (a b c : Z) (σ : Σ) :
  writes logger write ->
  answers (readContract l1Client
             {| address := l1TokenAddress; functionName := "balanceOf";
                args := [l1WalletAddress] |}) a ->
  answers (balance_of_public tokenContract l2OwnerAddress) b ->
  answers (balance_of_private tokenContract l2OwnerAddress) c ->
  logBalances label l1Client l1TokenAddress l1WalletAddress
    tokenContract l2OwnerAddress symbol logger σ =
  ([EvReadContract l1TokenAddress l1WalletAddress;
    EvSimulatePublic l2OwnerAddress; EvSimulatePrivate l2OwnerAddress],
   Ret tt,
   foldl (fun σ' line => write line σ') σ
    [ "";
      "=== " +:+ label +:+ " ===";
      "L1 " +:+ symbol +:+ " Balance: " +:+ formatBalance a None +:+ " " +:+ symbol;
      "L2 " +:+ symbol +:+ " Public Balance: " +:+ formatBalance b None
        +:+ " " +:+ symbol;
      "L2 " +:+ symbol +:+ " Private Balance: " +:+ formatBalance c None
        +:+ " " +:+ symbol;
      "" ]).
Proof.
  intros Hlog Ha Hb Hc. unfold logBalances.
  unfold bind at 1. rewrite Hlog. unfold bind at 1. rewrite Hlog.
  unfold bind at 1. rewrite getL1TokenBalance_run. cbv zeta. rewrite Ha. cbn [fst snd].
  unfold bind at 1. rewrite Hlog. unfold bind at 1.
  rewrite getL2TokenBalances_run. cbv zeta. rewrite Hb. cbn [fst snd].
  rewrite Hc. cbn [fst snd Promise_all public private].
  unfold bind at 1. rewrite Hlog. unfold bind at 1. rewrite Hlog. rewrite Hlog.
  rewrite ?Ha, ?Hb, ?Hc. cbn [fst snd]. rewrite ?Ha, ?Hb, ?Hc. cbn [fst snd].
  rewrite ?Ha, ?Hb, ?Hc. reflexivity.
Qed.

End LogBalancesLines.

Lemma logBalances_lines_witness :
  final (Balance.logBalances "AFTER BRIDGE" (Scenario.l1Client_holding 1500000000000000000)
           "0xL1T" "0xACC" (Scenario.tokenContract_holding 0 2000000000000000000)
           "0xL2ACC" "RHT" Scenario.recorder [])
  = [ ""; "=== AFTER BRIDGE ===";
      "L1 RHT Balance: 1.5 RHT";
      "L2 RHT Public Balance: 0 RHT";
      "L2 RHT Private Balance: 2 RHT";
      "" ].
Proof.
  refine (f_equal final (logBalances_lines "AFTER BRIDGE"
            (Scenario.l1Client_holding 1500000000000000000) "0xL1T" "0xACC"
            (Scenario.tokenContract_holding 0 2000000000000000000) "0xL2ACC" "RHT"
            Scenario.recorder (fun line log => log ++ [line])
            1500000000000000000 0 2000000000000000000 [] _ _ _ _));
    intros ?; reflexivity.
Defined.

(* ===================================================================== *)
(** * Further properties: the environment of the scripts *)
(* ===================================================================== *)

(** All that a script run takes from the environment: the three
    configuration constants, and each of the four credentials through
    its truthiness and its text. *)
Lemma script_env_reads {Σ} (dir : Direction) (w : World Σ)
    (e1 e2 : gmap string string) (σ : Σ) :
  Script.BRIDGE_AMOUNT dir (with_env w e1) = Script.BRIDGE_AMOUNT dir (with_env w e2) ->
  Script.BRIDGE_PRIVATE (with_env w e1) = Script.BRIDGE_PRIVATE (with_env w e2) ->
  Script.ENV (with_env w e1) = Script.ENV (with_env w e2) ->
  (forall name,
     name ∈ ["ETHEREUM_WALLET_PRIVATE_KEY"; "ADMIN_SECRET_KEY";
             "ADMIN_SIGNING_KEY"; "ADMIN_SALT"] ->
     Js.truthy (e1 !! name) = Js.truthy (e2 !! name) /\
     default "" (e1 !! name) = default "" (e2 !! name)) ->
  Script.script dir (with_env w e1) σ = Script.script dir (with_env w e2) σ.
Proof.
  intros Hamount Hprivate Henv Hcred.
  destruct (Hcred "ETHEREUM_WALLET_PRIVATE_KEY") as [Hk1 Hk2]; [repeat constructor|].
  destruct (Hcred "ADMIN_SECRET_KEY") as [Hs1 Hs2]; [repeat constructor|].
  destruct (Hcred "ADMIN_SIGNING_KEY") as [Hg1 Hg2]; [repeat constructor|].
  destruct (Hcred "ADMIN_SALT") as [Ha1 Ha2]; [repeat constructor|].
  unfold Script.script, Script.main, Script.networkConfig,
    Account.getAccountFromEnv, Account.createAccountFromEnv.
  cbn [env undefined_read networks privateKeyToAccount createExtendedL1Client waitForNode
       TestWallet_create Fr_fromString GrumpkinScalar_fromString
       createSchnorrAccount getAccounts getAccount getSponsoredFPCInstance
       registerContract AztecAddress_fromString getContract TokenContract_at
       operation with_env].
  rewrite Hamount, Hprivate, Henv, Hk1, Hk2, Hs1, Hs2, Hg1, Hg2, Ha1, Ha2.
  reflexivity.
Qed.

(** What the readings of a variable make of the empty text and of no
    text at all. *)
Lemma empty_is_unset (e : gmap string string) (name read : string) :
  Js.truthy (<[name := ""]> e !! read) = Js.truthy (delete name e !! read) /\
  default "" (<[name := ""]> e !! read) = default "" (delete name e !! read) /\
  (forall dflt, Js.or_else (<[name := ""]> e !! read) dflt
                = Js.or_else (delete name e !! read) dflt) /\
  Js.strict_eq (<[name := ""]> e !! read) "true"
    = Js.strict_eq (delete name e !! read) "true".
Proof.
  destruct (decide (name = read)) as [->|Hne].
  - rewrite lookup_insert_eq, lookup_delete_eq. repeat split.
  - rewrite lookup_insert_ne, lookup_delete_ne by assumption. repeat split.
Qed.

(** X7.  For the scripts a variable set to the empty text is a variable
    that is not set: whatever the variable, the two runs are the same run
    (an empty credential is reported as missing, an empty [AZTEC_ENV] or
    [BRIDGE_AMOUNT] gives the default). *)
Theorem empty_variable_is_unset {Σ : Type} (dir : Direction) (w : World Σ)
    (name : string) (σ : Σ) :
  Script.script dir (with_env w (<[name := ""]> (env w))) σ
  = Script.script dir (with_env w (delete name (env w))) σ.
Proof.
  apply script_env_reads.
  - unfold Script.BRIDGE_AMOUNT. cbn [env with_env].
    apply (empty_is_unset (env w) name "BRIDGE_AMOUNT").
  - unfold Script.BRIDGE_PRIVATE. cbn [env with_env].
    apply (empty_is_unset (env w) name "BRIDGE_PRIVATE").
  - unfold Script.ENV. cbn [env with_env].
    apply (empty_is_unset (env w) name "AZTEC_ENV").
  - intros read _. split; apply (empty_is_unset (env w) name read).
Qed.

(** The two variables with a default are not credentials. *)
Lemma credential_not_configuration (read : string) :
  read ∈ ["ETHEREUM_WALLET_PRIVATE_KEY"; "ADMIN_SECRET_KEY";
          "ADMIN_SIGNING_KEY"; "ADMIN_SALT"] ->
  "AZTEC_ENV" <> read /\ "BRIDGE_AMOUNT" <> read.
Proof.
  rewrite !elem_of_cons. intros [-> | [-> | [-> | [-> | Hnil]]]];
    try (split; discriminate).
  inversion Hnil.
Qed.

(** X8.  The defaults: a script run without [AZTEC_ENV] (unset or empty)
    is the run with [AZTEC_ENV=devnet], and a run without [BRIDGE_AMOUNT]
    is the run with [BRIDGE_AMOUNT=2] from L1 to L2 and with
    [BRIDGE_AMOUNT=1] from L2 to L1. *)
Theorem unset_variables_take_defaults {Σ : Type} (dir : Direction) (w : World Σ)
    (σ : Σ) :
  (Js.truthy (env w !! "AZTEC_ENV") = false ->
     Script.script dir w σ
     = Script.script dir (with_env w (<["AZTEC_ENV" := "devnet"]> (env w))) σ) /\
  (Js.truthy (env w !! "BRIDGE_AMOUNT") = false ->
     Script.script dir w σ
     = Script.script dir
         (with_env w (<["BRIDGE_AMOUNT" :=
                          match dir with L1ToL2 => "2" | L2ToL1 => "1" end]> (env w))) σ).
Proof.
  assert (Hsame : Script.script dir (with_env w (env w)) σ = Script.script dir w σ)
    by (destruct w; reflexivity).
  split; intros Hunset; rewrite <- Hsame; apply script_env_reads;
    unfold Script.BRIDGE_AMOUNT, Script.BRIDGE_PRIVATE, Script.ENV;
    cbn [env with_env];
    rewrite ?lookup_insert_eq, ?lookup_insert_ne by discriminate;
    try reflexivity.
  - destruct (env w !! "AZTEC_ENV") as [v|]; [|reflexivity].
    cbn in Hunset |- *. destruct (String.eqb v ""); [reflexivity | discriminate].
  - intros read Hread.
    rewrite lookup_insert_ne; [split; reflexivity|].
    apply (credential_not_configuration read Hread).
  - destruct (env w !! "BRIDGE_AMOUNT") as [v|]; [|now destruct dir].
    cbn in Hunset |- *. destruct (String.eqb v ""); [now destruct dir | discriminate].
  - intros read Hread.
    rewrite lookup_insert_ne; [split; reflexivity|].
    apply (credential_not_configuration read Hread).
Qed.

(** Without [BRIDGE_AMOUNT], a deposit is a deposit of 2. *)
Lemma unset_variables_take_defaults_witness :
  Script.bridge_l1_to_l2 (Example.world Example.full_env [Example.rht]) tt
  = Script.bridge_l1_to_l2
      (with_env (Example.world Example.full_env [Example.rht])
         (<["BRIDGE_AMOUNT" := "2"]> Example.full_env)) tt.
Proof.
  refine (proj2 (unset_variables_take_defaults L1ToL2
            (Example.world Example.full_env [Example.rht]) tt) _).
  vm_compute. reflexivity.
Defined.

(* ===================================================================== *)
(** * Further properties: how a script run ends early *)
(* ===================================================================== *)

Section EarlyEnds.
Context {Σ : Type} (dir : Direction) (w : World Σ).

(** Bringing a script to the point where its L1 key has been found set. *)
Ltac l1_key_set Hnet Hkey :=
  unfold Script.script; rewrite Hnet; unfold Script.main;
  rewrite (truthy_set_to _ _ _ Hkey), (proj1 Hkey);
  cbn [negb from_option]; unfold Datatypes.id.

(** X9.  A private key that viem refuses ends the script at once: the
    error is reported as unhandled, the status is 1, and nothing was
    built or contacted: no L1 client, no node, no wallet. *)
Theorem refused_private_key_stops_script (network : Sdk.NetworkConfig)
    (key reason : string) (σ : Σ) :
  Script.networkConfig w = Js.Own network ->
  set_to w "ETHEREUM_WALLET_PRIVATE_KEY" key ->
  privateKeyToAccount w (Script.normalizedKey key) = Rejected reason ->
  Script.script dir w σ =
  ([EvConsoleError ["Unhandled error:"; reason]; EvExit 1%Z], Exit 1%Z, σ).
Proof.
  intros Hnet Hkey Hrefused. l1_key_set Hnet Hkey. run_is.
Qed.

(** X10.  When the Aztec node cannot be reached, the script ends with
    status 1 on the node's error, right after the L1 client was built;
    the account variables have not been looked at, so a missing or
    malformed one is not reported in that run. *)
Theorem unreachable_node_stops_script (network : Sdk.NetworkConfig)
    (key account reason : string) (σ σ1 : Σ) :
  Script.networkConfig w = Js.Own network ->
  set_to w "ETHEREUM_WALLET_PRIVATE_KEY" key ->
  privateKeyToAccount w (Script.normalizedKey key) = Fulfilled account ->
  waitForNode w σ = (Rejected reason, σ1) ->
  Script.script dir w σ =
  ([EvCreateL1Client (Script.normalizedKey key) (Sdk.l1RpcUrl network)
      (String.eqb (Script.ENV w) "sandbox");
    EvNodeInitialize (Sdk.nodeUrl network);
    EvWaitForNode;
    EvConsoleError ["Unhandled error:"; reason];
    EvExit 1%Z],
   Exit 1%Z, σ1).
Proof.
  intros Hnet Hkey Haccount Hnode. l1_key_set Hnet Hkey. run_is.
Qed.

End EarlyEnds.

(** A key of two bytes. *)
Lemma refused_private_key_stops_script_witness :
  Script.bridge_l1_to_l2
    (Scenario.world Scenario.env_short_key [Example.rht] Scenario.fine) tt =
  ([EvConsoleError ["Unhandled error:"; "invalid private key"]; EvExit 1%Z],
   Exit 1%Z, tt).
Proof.
  refine (refused_private_key_stops_script L1ToL2
            (Scenario.world Scenario.env_short_key [Example.rht] Scenario.fine)
            (Example.devnet [Example.rht]) "ab12" "invalid private key" tt _ _ _).
  - vm_compute. reflexivity.
  - split; [vm_compute; reflexivity | discriminate].
  - reflexivity.
Defined.

(** The node is down and [ADMIN_SECRET_KEY] is missing: the run reports
    the node. *)
Lemma unreachable_node_stops_script_witness :
  trace (Script.bridge_l2_to_l1
           (Scenario.world Example.env_without_secret [Example.rht] Scenario.node_down) tt)
  = [EvCreateL1Client ("0x" +:+ Example.l1_key) "http://l1" false;
     EvNodeInitialize "http://l2";
     EvWaitForNode; EvConsoleError ["Unhandled error:"; "node unreachable"];
     EvExit 1%Z].
Proof.
  refine (f_equal trace (unreachable_node_stops_script L2ToL1
            (Scenario.world Example.env_without_secret [Example.rht] Scenario.node_down)
            (Example.devnet [Example.rht]) Example.l1_key "0xACC" "node unreachable"
            tt tt _ _ _ _)).
  - vm_compute. reflexivity.
  - split; [vm_compute; reflexivity | discriminate].
  - reflexivity.
  - reflexivity.
Defined.

(* ===================================================================== *)
(** * Further properties: small functions of the scripts *)
(* ===================================================================== *)

(** X11.  In each of the two copies of [getStepStatusIcon], each of the
    four statuses has an icon of its own, and the text of the [default]
    branch is returned exactly for the texts that are none of the four
    status names.  The literals are those of each file: the bullet in
    [bridge_l2_to_l1.ts], its mis-encoded form in [bridge_l1_to_l2.ts];
    on no text do the two copies return the same. *)
Theorem getStepStatusIcon_distinct :
  (forall (dir : Direction) (a b : StepStatus),
     Script.getStepStatusIcon dir (Script.status_text a)
     = Script.getStepStatusIcon dir (Script.status_text b) -> a = b) /\
  (forall status : string,
     Script.getStepStatusIcon L2ToL1 status = "•" <->
     (forall st : StepStatus, status <> Script.status_text st)) /\
  (forall status : string,
     Script.getStepStatusIcon L1ToL2 status = "â€¢" <->
     (forall st : StepStatus, status <> Script.status_text st)) /\
  (forall status : string,
     Script.getStepStatusIcon L1ToL2 status <> Script.getStepStatusIcon L2ToL1 status).
Proof.
  assert (Hdefault : forall (dir : Direction) (status : string),
            Script.getStepStatusIcon dir status = Script.getStepStatusIcon dir "" <->
            (forall st : StepStatus, status <> Script.status_text st)).
  { intros dir status. unfold Script.getStepStatusIcon.
    destruct (String.eqb_spec status "pending") as [->|H1].
    { split; [intros H; destruct dir; vm_compute in H; discriminate H|].
      intros H. now destruct (H pending). }
    destruct (String.eqb_spec status "loading") as [->|H2].
    { split; [intros H; destruct dir; vm_compute in H; discriminate H|].
      intros H. now destruct (H loading). }
    destruct (String.eqb_spec status "completed") as [->|H3].
    { split; [intros H; destruct dir; vm_compute in H; discriminate H|].
      intros H. now destruct (H completed). }
    destruct (String.eqb_spec status "error") as [->|H4].
    { split; [intros H; destruct dir; vm_compute in H; discriminate H|].
      intros H. now destruct (H error). }
    split; [|destruct dir; reflexivity]. intros _ []; assumption. }
  split; [|split; [|split]].
  - intros [] [] []; intros H; try reflexivity; vm_compute in H; discriminate H.
  - intros status. exact (Hdefault L2ToL1 status).
  - intros status. exact (Hdefault L1ToL2 status).
  - intros status. unfold Script.getStepStatusIcon.
    repeat (destruct (String.eqb status _); [vm_compute; discriminate|]).
    vm_compute. discriminate.
Qed.

(** X12.  Normalizing a private key always gives a text that starts with
    ["0x"], and normalizing twice is normalizing once, for every text. *)
Theorem normalizedKey_idempotent (privateKey : string) :
  String.prefix "0x" (Script.normalizedKey privateKey) = true /\
  Script.normalizedKey (Script.normalizedKey privateKey)
  = Script.normalizedKey privateKey.
Proof.
  unfold Script.normalizedKey at 1 3. split.
  - change ("0x" +:+ Js.replace "0x" "" privateKey)
      with (String "0" (String "x" (Js.replace "0x" "" privateKey))).
    cbn [String.prefix]. destruct (ascii_dec "0" "0"); [|congruence].
    destruct (ascii_dec "x" "x"); [|congruence].
    now destruct (Js.replace "0x" "" privateKey).
  - unfold Script.normalizedKey. now rewrite replace_prefixed.
Qed.

(** X13.  Only the lower-case prefix is recognised: a hexadecimal key
    written with ["0X"] keeps that prefix behind the ["0x"] that is added,
    so it is not the text that the same key gives without a prefix. *)
Theorem upper_case_prefix_is_kept (k : string) :
  hex_string k = true ->
  Script.normalizedKey ("0X" +:+ k) = "0x0X" +:+ k /\
  Script.normalizedKey ("0X" +:+ k) <> Script.normalizedKey k.
Proof.
  intros Hhex.
  assert (H1 : Script.normalizedKey ("0X" +:+ k) = "0x0X" +:+ k).
  { unfold Script.normalizedKey.
    change ("0X" +:+ k) with (String "0" (String "X" k)).
    cbn [Js.replace String.prefix].
    destruct (ascii_dec "0" "0"); [|congruence].
    destruct (ascii_dec "x" "X") as [Hx|_]; [discriminate Hx|].
    destruct (ascii_dec "0" "X") as [Hx|_]; [discriminate Hx|].
    now rewrite (replace_hex_string _ Hhex). }
  split; [exact H1|]. rewrite H1.
  unfold Script.normalizedKey. rewrite (replace_hex_string _ Hhex).
  change ("0x0X" +:+ k) with (String "0" (String "x" (String "0" (String "X" k)))).
  change ("0x" +:+ k) with (String "0" (String "x" k)).
  intros [= Hk]. destruct k as [|c k]; [discriminate Hk|].
  injection Hk as Hc Hk. subst c.
  cbn [hex_string] in Hhex. apply andb_prop in Hhex as [_ Hhex].
  destruct k as [|d k]; [discriminate Hk|]. injection Hk as Hd _. subst d.
  cbn [hex_string] in Hhex. apply andb_prop in Hhex as [Hx _].
  vm_compute in Hx. discriminate Hx.
Qed.

Lemma upper_case_prefix_is_kept_witness :
  Script.normalizedKey "0Xab12" = "0x0Xab12".
Proof.
  refine (proj1 (upper_case_prefix_is_kept "ab12" _)). reflexivity.
Defined.

(* ===================================================================== *)
(** * Further properties: the order of events in a run *)
(* ===================================================================== *)

Section PhaseRules.
Context {Σ S : Type} (step : S -> Event -> option S).
Implicit Types (s : S) (E : S -> string + Z -> Prop).

Lemma follows_app s (t1 t2 : list Event) :
  follows step s (t1 ++ t2) =
  match follows step s t1 with
  | Some s1 => follows step s1 t2
  | None => None
  end.
Proof.
  revert s. induction t1 as [|ev t1 IH]; intros s; [reflexivity|].
  cbn [app follows]. destruct (step s ev); [apply IH | reflexivity].
Qed.

Lemma rp_ret {A} s (R : A -> S -> Prop) E (a : A) :
  R a s -> run_phase (Σ := Σ) step s R E (ret a).
Proof. intros Hr σ. exists s. split; [reflexivity | exact Hr]. Qed.

Lemma rp_throw {A} s (R : A -> S -> Prop) E (e : string) :
  E s (inl e) -> run_phase (Σ := Σ) step s R E (throw e).
Proof. intros He σ. exists s. split; [reflexivity | exact He]. Qed.

Lemma rp_exit {A} s s' (R : A -> S -> Prop) E (c : Z) :
  step s (EvExit c) = Some s' -> E s' (inr c) ->
  run_phase (Σ := Σ) step s R E (exit c).
Proof.
  intros Hs He σ. exists s'. split; [cbn; now rewrite Hs | exact He].
Qed.

Lemma rp_emit s s' (R : unit -> S -> Prop) E (ev : Event) :
  step s ev = Some s' -> R tt s' -> run_phase (Σ := Σ) step s R E (emit ev).
Proof.
  intros Hs Hr σ. exists s'. split; [cbn; now rewrite Hs | exact Hr].
Qed.

Lemma rp_await {A} s s' (R : A -> S -> Prop) E (ev : Event)
    (f : Σ -> Settled A * Σ) :
  step s ev = Some s' -> (forall a, R a s') -> (forall e, E s' (inl e)) ->
  run_phase step s R E (await ev f).
Proof.
  intros Hs Hr He σ. exists s'. unfold await, trace, outcome.
  destruct (f σ) as [[a|e] σ1]; cbn; rewrite Hs; auto.
Qed.

Lemma rp_start {A} s s' (R : Settled A -> S -> Prop) E (ev : Event)
    (f : Σ -> Settled A * Σ) :
  step s ev = Some s' -> (forall p, R p s') -> run_phase step s R E (start ev f).
Proof.
  intros Hs Hr σ. exists s'. unfold start, trace, outcome.
  destruct (f σ) as [p σ1]; cbn; rewrite Hs; auto.
Qed.

Lemma rp_settle {A} s (R : A -> S -> Prop) E (p : Settled A) :
  (forall a, R a s) -> (forall e, E s (inl e)) ->
  run_phase (Σ := Σ) step s R E (settle p).
Proof.
  intros Hr He. destruct p as [a|e]; [apply rp_ret | apply rp_throw]; auto.
Qed.

Lemma rp_bind {A B} s (R1 : A -> S -> Prop) (R2 : B -> S -> Prop) E
    (m : M Σ A) (k : A -> M Σ B) :
  run_phase step s R1 E m ->
  (forall a s1, R1 a s1 -> run_phase step s1 R2 E (k a)) ->
  run_phase step s R2 E (bind m k).
Proof.
  intros Hm Hk σ. destruct (Hm σ) as (s1 & Ht & Ho). revert Ht Ho.
  unfold bind, trace, outcome. destruct (m σ) as [[t1 [a|e|c]] σ1]; cbn.
  - intros Ht Ha. destruct (Hk a s1 Ha σ1) as (s2 & Ht2 & Ho2). revert Ht2 Ho2.
    unfold trace, outcome. destruct (k a σ1) as [[t2 o] σ2]; cbn.
    intros Ht2 Ho2. exists s2. split; [|exact Ho2].
    now rewrite follows_app, Ht.
  - intros Ht He. exists s1. split; assumption.
  - intros Ht He. exists s1. split; assumption.
Qed.

Lemma rp_try_catch {A} s (R : A -> S -> Prop) E1 E
    (m : M Σ A) (h : string -> M Σ A) :
  run_phase step s R E1 m ->
  (forall e s1, E1 s1 (inl e) -> run_phase step s1 R E (h e)) ->
  (forall c s1, E1 s1 (inr c) -> E s1 (inr c)) ->
  run_phase step s R E (try_catch m h).
Proof.
  intros Hm Hh Hc σ. destruct (Hm σ) as (s1 & Ht & Ho). revert Ht Ho.
  unfold try_catch, trace, outcome. destruct (m σ) as [[t1 [a|e|c]] σ1]; cbn.
  - intros Ht Ha. exists s1. split; assumption.
  - intros Ht He. destruct (Hh e s1 He σ1) as (s2 & Ht2 & Ho2). revert Ht2 Ho2.
    unfold trace, outcome. destruct (h e σ1) as [[t2 o] σ2]; cbn.
    intros Ht2 Ho2. exists s2. split; [|exact Ho2].
    now rewrite follows_app, Ht.
  - intros Ht He. exists s1. split; [assumption | now apply Hc].
Qed.

(** The step machine stays where the two kinds of step events loop. *)
Lemma run_steps_phase s (R : bool * list BridgeStep * option string * string -> S -> Prop)
    E (operation : StepId -> Σ -> Settled (option string) * Σ)
    (sink : BridgeStep -> Settled unit) (todo : list BridgeStep) :
  (forall b, step s (EvStep b) = Some s) ->
  (forall i, step s (EvStepOperation i) = Some s) ->
  (forall r, R r s) ->
  forall done tx, run_phase step s R E (Sdk.run_steps operation sink done todo tx).
Proof.
  intros Hs Hi Hr. induction todo as [|b rest IH]; intros done tx σ.
  - exists s. split; [reflexivity | apply Hr].
  - rewrite run_steps_cons. destruct (operation (id b) σ) as [[h|e] σ1]; cbv zeta.
    + destruct (IH (done ++ [Sdk.with_status completed None b])
                  (match h with Some _ => h | None => tx end) σ1) as (s' & Ht & Ho).
      exists s'. unfold trace, outcome in *. cbn [fst snd].
      split; [|exact Ho]. unfold done_events. cbn [app follows].
      repeat (first [rewrite Hs | rewrite Hi]; cbv beta iota). exact Ht.
    + exists s. unfold trace, outcome. cbn [fst snd]. split; [|apply Hr].
      unfold fail_events. cbn [follows].
      repeat (first [rewrite Hs | rewrite Hi]; cbv beta iota). reflexivity.
Qed.

Lemma log_steps_phase s (R : unit -> S -> Prop) E (dir : Direction)
    (l : list BridgeStep) :
  R tt s -> run_phase (Σ := Σ) step s R E (Script.log_steps dir l).
Proof.
  intros Hr. induction l as [|b l IH]; cbn [Script.log_steps].
  - now apply rp_ret.
  - eapply (rp_bind _ (fun _ s1 => s1 = s)); [now apply rp_ret|].
    intros _ s1 ->. exact IH.
Qed.

(** The rules with the strongest conclusion on the state. *)
Lemma rp_emit_eq s s' E (ev : Event) :
  step s ev = Some s' ->
  run_phase (Σ := Σ) step s (fun _ s1 => s1 = s') E (emit ev).
Proof. intros Hs. now apply (rp_emit s s'). Qed.

Lemma rp_await_eq {A} s s' E (ev : Event) (f : Σ -> Settled A * Σ) :
  step s ev = Some s' -> (forall e, E s' (inl e)) ->
  run_phase step s (fun _ s1 => s1 = s') E (await ev f).
Proof. intros Hs He. now apply (rp_await s s'). Qed.

Lemma rp_start_eq {A} s s' E (ev : Event) (f : Σ -> Settled A * Σ) :
  step s ev = Some s' ->
  run_phase step s (fun _ s1 => s1 = s') E (start ev f).
Proof. intros Hs. now apply (rp_start s s'). Qed.

Lemma rp_weaken {A} s (R R' : A -> S -> Prop) (E E' : S -> string + Z -> Prop)
    (m : M Σ A) :
  run_phase step s R E m ->
  (forall a s1, R a s1 -> R' a s1) -> (forall s1 x, E s1 x -> E' s1 x) ->
  run_phase step s R' E' m.
Proof.
  intros Hm Hr He σ. destruct (Hm σ) as (s1 & Ht & Ho). exists s1.
  split; [exact Ht|]. destruct (outcome (m σ)); auto.
Qed.

End PhaseRules.

Ltac rp_side := cbn; try reflexivity; try exact I; auto.

(** Walking through a script with an automaton; [E1] says where a [try]
    block may throw, given the state in which it begins. *)
Ltac rp_step E1 :=
  lazymatch goal with
  | |- forall _, _ => intros
  | |- run_phase ?step ?s _ _ ?m =>
      lazymatch m with
      | ret _ =>
          first [ apply (rp_ret step s (fun _ s1 => s1 = s)); reflexivity
                | apply rp_ret; rp_side ]
      | logger_info _ =>
          first [ apply (rp_ret step s (fun _ s1 => s1 = s)); reflexivity
                | apply rp_ret; rp_side ]
      | throw _ => apply rp_throw; rp_side
      | exit _ => eapply rp_exit; [cbn; reflexivity | rp_side]
      | emit _ =>
          first [ eapply rp_emit_eq; cbn; reflexivity
                | eapply rp_emit; [cbn; reflexivity | rp_side] ]
      | logger_error _ =>
          first [ eapply rp_emit_eq; cbn; reflexivity
                | eapply rp_emit; [cbn; reflexivity | rp_side] ]
      | console_error _ =>
          first [ eapply rp_emit_eq; cbn; reflexivity
                | eapply rp_emit; [cbn; reflexivity | rp_side] ]
      | await _ _ =>
          first [ eapply rp_await_eq; [cbn; reflexivity | intros; rp_side]
                | eapply rp_await; [cbn; reflexivity | intros; rp_side | intros; rp_side] ]
      | start _ _ =>
          eapply rp_start_eq; cbn; reflexivity
      | settle _ =>
          first [ apply (rp_settle step s (fun _ s1 => s1 = s));
                  [intros; reflexivity | intros; rp_side]
                | apply rp_settle; [intros; rp_side | intros; rp_side] ]
      | bind _ _ => eapply rp_bind
      | try_catch _ _ => eapply (rp_try_catch step s _ (E1 s)); cbv beta
      | attempt _ => unfold attempt
      | (if ?c then _ else _) => destruct c
      | (match ?x with | (_, _) => _ end) => destruct x
      | (match ?x with | Some _ => _ | None => _ end) => destruct x
      | (match ?x with | nil => _ | cons _ _ => _ end) => destruct x
      | (match ?x with | L1ToL2 => _ | L2ToL1 => _ end) => destruct x
      | Account.getAccountFromEnv _ =>
          unfold Account.getAccountFromEnv, Account.createAccountFromEnv
      | Balance.logBalances _ _ _ _ _ _ _ _ => unfold Balance.logBalances
      | Balance.getL1TokenBalance _ _ _ => unfold Balance.getL1TokenBalance
      | Balance.getL2TokenBalances _ _ => unfold Balance.getL2TokenBalances
      | Balance.info Script.logger _ => unfold Script.logger; cbn [Balance.info]
      | Sdk.bridgeL1ToL2 _ _ _ => unfold Sdk.bridgeL1ToL2
      | Sdk.bridgeL2ToL1 _ _ _ => unfold Sdk.bridgeL2ToL1
      | Sdk.bridge _ _ _ _ => unfold Sdk.bridge
      | Sdk.execute _ _ _ _ => unfold Sdk.execute
      | Sdk.run_steps _ _ _ _ _ =>
          first [ apply (run_steps_phase step s (fun _ s1 => s1 = s));
                  [intros; reflexivity | intros; reflexivity | intros; reflexivity]
                | apply run_steps_phase;
                  [intros; reflexivity | intros; reflexivity | intros; rp_side] ]
      | Script.log_steps _ _ =>
          first [ apply (log_steps_phase step s (fun _ s1 => s1 = s)); reflexivity
                | apply log_steps_phase; rp_side ]
      end
  end.

(** After a step: the state that a sequence has reached is substituted. *)
Ltac rp_next :=
  repeat match goal with
         | H : thrown_while_running _ (inl _) |- _ => cbn in H; subst
         | H : thrown_while_running _ (inr _) |- _ => destruct H
         | H : thrown_in_block _ _ (inl _) |- _ => cbn in H
         | H : thrown_in_block _ _ (inr _) |- _ => destruct H
         | H : ?s1 = _ |- _ => is_var s1; subst s1
         end;
  cbv beta iota zeta.

Ltac rp_walk E1 := repeat (rp_next; rp_step E1).

(** ** A script does not end silently *)

Lemma main_ending {Σ} (dir : Direction) (w : World Σ) (network : Sdk.NetworkConfig) :
  run_phase ending_step Running (fun _ s => s = Running) main_ends
    (Script.main dir w network).
Proof. unfold Script.main. rp_walk (fun _ : Ending => thrown_while_running). Qed.

Lemma main_on_inherited_ending {Σ} (dir : Direction) (w : World Σ) (member : string) :
  run_phase ending_step Running (fun _ s => s = Running) main_ends
    (Script.main_on_inherited dir w member).
Proof.
  unfold Script.main_on_inherited. rp_walk (fun _ : Ending => thrown_while_running).
Qed.

Lemma script_ending {Σ} (dir : Direction) (w : World Σ) :
  run_phase ending_step Running (fun _ s => s = Running)
    (fun s x => s = Exited /\ x = inr 1%Z) (Script.script dir w).
Proof.
  unfold Script.script. destruct (Script.networkConfig w) as [network|member|].
  - eapply (rp_try_catch _ _ _ main_ends).
    + apply main_ending.
    + intros e s1 [-> | ->].
      * eapply rp_bind; [eapply rp_emit_eq; reflexivity|].
        intros _ s1 ->. eapply rp_exit; [reflexivity | split; reflexivity].
      * eapply rp_bind; [eapply rp_emit_eq; reflexivity|].
        intros _ s1 ->. eapply rp_exit; [reflexivity | split; reflexivity].
    + intros c s1 [-> ->]. split; reflexivity.
  - eapply (rp_try_catch _ _ _ main_ends).
    + apply main_on_inherited_ending.
    + intros e s1 [-> | ->].
      * eapply rp_bind; [eapply rp_emit_eq; reflexivity|].
        intros _ s1 ->. eapply rp_exit; [reflexivity | split; reflexivity].
      * eapply rp_bind; [eapply rp_emit_eq; reflexivity|].
        intros _ s1 ->. eapply rp_exit; [reflexivity | split; reflexivity].
    + intros c s1 [-> ->]. split; reflexivity.
  - eapply rp_bind; [eapply rp_emit_eq; reflexivity|].
    intros _ s1 ->. eapply rp_exit; [reflexivity | split; reflexivity].
Qed.

(** What the automaton of endings accepts. *)
Lemma ending_no_return (t : list Event) :
  forall s, s <> Running -> follows ending_step s t <> Some Running.
Proof.
  induction t as [|ev t IH]; intros s Hs; cbn [follows]; [congruence|].
  destruct (ending_step s ev) as [s'|] eqn:Hstep; [|discriminate].
  apply IH. intros ->.
  destruct ev, s; cbn in Hstep; try discriminate Hstep; try contradiction;
    destruct (_ =? _)%Z; discriminate Hstep.
Qed.

Lemma ending_stays_running (t : list Event) :
  follows ending_step Running t = Some Running ->
  Forall (fun ev => is_call ev = true) t.
Proof.
  induction t as [|ev t IH]; intros Ht; [constructor|].
  cbn [follows] in Ht.
  destruct (ending_step Running ev) as [s'|] eqn:Hstep; [|discriminate Ht].
  destruct s'.
  - constructor; [|now apply IH]. destruct ev; cbn in Hstep |- *;
      discriminate Hstep || reflexivity.
  - now apply ending_no_return in Ht.
  - now apply ending_no_return in Ht.
Qed.

Lemma ending_exited_is_final (t : list Event) (s : Ending) :
  follows ending_step Exited t = Some s -> t = [].
Proof.
  destruct t as [|ev t]; [reflexivity|]. cbn [follows].
  destruct ev; cbn; discriminate.
Qed.

Lemma ending_reported_exits (t : list Event) :
  follows ending_step Reported t = Some Exited ->
  exists reports,
    t = reports ++ [EvExit 1%Z] /\ Forall (fun ev => is_report ev = true) reports.
Proof.
  induction t as [|ev t IH]; intros Ht; [discriminate Ht|].
  cbn [follows] in Ht.
  destruct (ending_step Reported ev) as [s'|] eqn:Hstep; [|discriminate Ht].
  destruct s'.
  - destruct ev; cbn in Hstep; try discriminate Hstep.
    destruct (_ =? _)%Z; discriminate Hstep.
  - destruct (IH Ht) as (reports & -> & Hrep).
    exists (ev :: reports). split; [reflexivity|]. constructor; [|exact Hrep].
    destruct ev; cbn in Hstep |- *; try discriminate Hstep; try reflexivity.
    destruct (_ =? _)%Z; discriminate Hstep.
  - rewrite (ending_exited_is_final t _ Ht). exists []. split; [|constructor].
    destruct ev; cbn in Hstep; try discriminate Hstep.
    destruct (Z.eqb_spec code 1) as [->|]; [reflexivity | discriminate Hstep].
Qed.

Lemma ending_running_exits (t : list Event) :
  follows ending_step Running t = Some Exited ->
  exists calls reports,
    t = calls ++ reports ++ [EvExit 1%Z] /\
    Forall (fun ev => is_call ev = true) calls /\
    Forall (fun ev => is_report ev = true) reports /\
    reports <> [].
Proof.
  induction t as [|ev t IH]; intros Ht; [discriminate Ht|].
  cbn [follows] in Ht.
  destruct (ending_step Running ev) as [s'|] eqn:Hstep; [|discriminate Ht].
  destruct s'.
  - destruct (IH Ht) as (calls & reports & -> & Hcalls & Hrep & Hne).
    exists (ev :: calls), reports. split; [reflexivity|].
    split; [|split; assumption]. constructor; [|exact Hcalls].
    destruct ev; cbn in Hstep |- *; discriminate Hstep || reflexivity.
  - destruct (ending_reported_exits t Ht) as (reports & -> & Hrep).
    exists [], (ev :: reports). split; [reflexivity|].
    split; [constructor|]. split; [|discriminate].
    constructor; [|exact Hrep].
    destruct ev; cbn in Hstep |- *; discriminate Hstep || reflexivity.
  - destruct ev; cbn in Hstep; discriminate Hstep.
Qed.

(** X14.  A script does not end silently, and stops calling once it has
    reported: a run either ends normally, having reported no error, or it
    ends by [process.exit(1)], and then its trace is the outside calls it
    made, followed by at least one error report ([console.error] or
    [logger.error]), followed by the exit; no call comes after a report,
    and nothing after the exit.  A run never ends on an error that was not
    caught. *)
Theorem script_reports_before_exit {Σ : Type} (dir : Direction) (w : World Σ)
    (σ : Σ) :
  let run := Script.script dir w σ in
  (outcome run = Ret tt /\ Forall (fun ev => is_call ev = true) (trace run)) \/
  (outcome run = Exit 1%Z /\
   exists calls reports,
     trace run = calls ++ reports ++ [EvExit 1%Z] /\
     Forall (fun ev => is_call ev = true) calls /\
     Forall (fun ev => is_report ev = true) reports /\
     reports <> []).
Proof.
  cbv zeta. destruct (script_ending dir w σ) as (s' & Ht & Ho).
  destruct (outcome (Script.script dir w σ)) as [[]|e|c].
  - left. subst s'. split; [reflexivity|]. now apply ending_stays_running.
  - destruct Ho as [_ Ho]. discriminate Ho.
  - right. destruct Ho as [-> Ho]. injection Ho as ->.
    split; [reflexivity|]. now apply ending_running_exits.
Qed.

(** ** The bridge is called once, between two balance snapshots *)

Lemma main_bridge_order {Σ} (dir : Direction) (w : World Σ) (network : Sdk.NetworkConfig) :
  run_phase bridge_step Setup (fun _ s => s = Done) ends_anywhere
    (Script.main dir w network).
Proof. unfold Script.main. rp_walk thrown_in_block. Qed.

Lemma script_bridge_order {Σ} (dir : Direction) (w : World Σ) :
  run_phase bridge_step Setup (fun _ s => s = Done) ends_anywhere
    (Script.script dir w).
Proof.
  unfold Script.script. destruct (Script.networkConfig w) as [network|member|].
  - eapply (rp_try_catch _ _ _ ends_anywhere).
    + apply main_bridge_order.
    + intros e s1 _. eapply rp_bind; [eapply rp_emit_eq; reflexivity|].
      intros _ s2 ->. eapply rp_exit; [reflexivity | exact I].
    + intros c s1 _. exact I.
  - eapply (rp_try_catch _ _ _ ends_anywhere).
    + unfold Script.main_on_inherited. rp_walk thrown_in_block.
    + intros e s1 _. eapply rp_bind; [eapply rp_emit_eq; reflexivity|].
      intros _ s2 ->. eapply rp_exit; [reflexivity | exact I].
    + intros c s1 _. exact I.
  - eapply rp_bind; [eapply rp_emit_eq; reflexivity|].
    intros _ s1 ->. eapply rp_exit; [reflexivity | exact I].
Qed.

(** What the automaton of the bridge accepts. *)
Lemma bridge_step_forward (s s1 : BridgePhase) (ev : Event) :
  bridge_step s ev = Some s1 -> bridge_called s = true ->
  bridge_called s1 = true /\ is_bridge_call ev = false.
Proof.
  destruct ev, s; cbn; intros Hstep Hs; try discriminate Hstep; try discriminate Hs;
    injection Hstep as <-; split; reflexivity.
Qed.

Lemma after_the_call (t : list Event) :
  forall s s', follows bridge_step s t = Some s' -> bridge_called s = true ->
  bridge_called s' = true /\ Forall (fun ev => is_bridge_call ev = false) t.
Proof.
  induction t as [|ev t IH]; intros s s'; cbn [follows].
  - intros [= <-] Hs. split; [exact Hs | constructor].
  - destruct (bridge_step s ev) as [s1|] eqn:Hstep; [|discriminate].
    intros Ht Hs. destruct (bridge_step_forward _ _ _ Hstep Hs) as [Hs1 Hev].
    destruct (IH s1 s' Ht Hs1) as [Hs' Hquiet].
    split; [exact Hs' | constructor; assumption].
Qed.

Lemma snapshot_taken (t : list Event) :
  forall s, follows bridge_step s t = Some Ready ->
  match s with
  | Setup | Handle =>
      exists token wallet pub priv,
        balance_reads t =
        [EvReadContract token wallet; EvSimulatePublic pub; EvSimulatePrivate priv]
  | ReadL1 =>
      exists pub priv, balance_reads t = [EvSimulatePublic pub; EvSimulatePrivate priv]
  | ReadPublic => exists priv, balance_reads t = [EvSimulatePrivate priv]
  | Ready => balance_reads t = []
  | _ => False
  end /\
  Forall (fun ev => Script.bridge_event ev = false) t.
Proof.
  induction t as [|ev t IH]; intros s; cbn [follows].
  - intros [= ->]. split; [reflexivity | constructor].
  - destruct (bridge_step s ev) as [s1|] eqn:Hstep; [|discriminate].
    intros Ht. destruct (IH s1 Ht) as [Hreads Hquiet].
    destruct ev, s; cbn in Hstep; try discriminate Hstep;
      injection Hstep as <-; try contradiction;
      (split; [cbn [balance_reads] | constructor; [reflexivity | exact Hquiet]]);
      repeat match goal with
             | H : exists _, _ |- _ => destruct H
             end;
      try match goal with
          | H : balance_reads _ = _ |- _ => rewrite H
          end;
      eauto 10.
Qed.

Lemma second_snapshot_taken (t : list Event) :
  forall s, follows bridge_step s t = Some Done -> bridge_called s = true ->
  match s with
  | Bridged =>
      exists token wallet pub priv,
        balance_reads t =
        [EvReadContract token wallet; EvSimulatePublic pub; EvSimulatePrivate priv]
  | AfterL1 =>
      exists pub priv, balance_reads t = [EvSimulatePublic pub; EvSimulatePrivate priv]
  | AfterPublic => exists priv, balance_reads t = [EvSimulatePrivate priv]
  | _ => balance_reads t = []
  end.
Proof.
  induction t as [|ev t IH]; intros s; cbn [follows].
  - intros [= ->] _. reflexivity.
  - destruct (bridge_step s ev) as [s1|] eqn:Hstep; [|discriminate].
    intros Ht Hs. destruct (bridge_step_forward _ _ _ Hstep Hs) as [Hs1 _].
    specialize (IH s1 Ht Hs1).
    destruct ev, s; cbn in Hstep; try discriminate Hstep; try discriminate Hs;
      injection Hstep as <-; cbn [balance_reads];
      repeat match goal with
             | H : exists _, _ |- _ => destruct H
             end;
      try match goal with
          | H : balance_reads _ = _ |- _ => rewrite H
          end;
      eauto 10.
Qed.

Lemma bridge_call_splits (t : list Event) :
  forall s s', follows bridge_step s t = Some s' ->
  bridge_called s = false ->
  existsb is_bridge_call t = true \/ bridge_called s' = true ->
  exists pre call post,
    t = pre ++ call :: post /\ is_bridge_call call = true /\
    follows bridge_step s pre = Some Ready /\
    follows bridge_step Bridged post = Some s'.
Proof.
  induction t as [|ev t IH]; intros s s'; cbn [follows existsb].
  - intros [= <-] Hs [Hcall | Hs']; [discriminate Hcall | congruence].
  - destruct (bridge_step s ev) as [s1|] eqn:Hstep; [|discriminate].
    intros Ht Hs Hcall. destruct (is_bridge_call ev) eqn:Hev.
    + exists [], ev, t. split; [reflexivity|]. split; [exact Hev|].
      destruct ev; try discriminate Hev.
      destruct s; cbn in Hstep; try discriminate Hstep. injection Hstep as <-.
      split; [reflexivity | exact Ht].
    + assert (Hs1 : bridge_called s1 = false).
      { destruct ev, s; cbn in Hstep; try discriminate Hstep; try discriminate Hs;
          try discriminate Hev; injection Hstep as <-; reflexivity. }
      destruct (IH s1 s' Ht Hs1 Hcall)
        as (pre & call & post & -> & Hc & Hpre & Hpost).
      exists (ev :: pre), call, post. split; [reflexivity|]. split; [exact Hc|].
      split; [|exact Hpost]. cbn [follows]. now rewrite Hstep.
Qed.

(** X15.  The scripts call the bridge at most once, and only on a balance
    snapshot: in a run that calls the bridge, what comes before the call
    holds exactly one L1 balance read, one public and one private L2
    simulation, in this order, and no step operation or announcement; what
    comes after holds no second call of the bridge. *)
Theorem bridge_called_once_after_snapshot {Σ : Type} (dir : Direction)
    (w : World Σ) (σ : Σ) :
  existsb is_bridge_call (trace (Script.script dir w σ)) = true ->
  exists pre call post,
    trace (Script.script dir w σ) = pre ++ call :: post /\
    is_bridge_call call = true /\
    (exists token wallet pub priv,
       balance_reads pre =
       [EvReadContract token wallet; EvSimulatePublic pub; EvSimulatePrivate priv]) /\
    Forall (fun ev => Script.bridge_event ev = false) pre /\
    Forall (fun ev => is_bridge_call ev = false) post.
Proof.
  intros Hcall. destruct (script_bridge_order dir w σ) as (s & Hs & _).
  destruct (bridge_call_splits _ _ _ Hs eq_refl (or_introl Hcall))
    as (pre & call & post & Ht & Hc & Hpre & Hpost).
  exists pre, call, post. split; [exact Ht|]. split; [exact Hc|].
  destruct (snapshot_taken pre Setup Hpre) as [Hreads Hquiet].
  destruct (after_the_call post _ _ Hpost eq_refl) as [_ Hpost'].
  repeat split; assumption.
Qed.

Lemma bridge_called_once_after_snapshot_witness :
  exists pre call post,
    trace (Script.bridge_l1_to_l2 (Example.world Example.full_env [Example.rht]) tt)
    = pre ++ call :: post /\
    is_bridge_call call = true /\
    (exists token wallet pub priv,
       balance_reads pre =
       [EvReadContract token wallet; EvSimulatePublic pub; EvSimulatePrivate priv]) /\
    Forall (fun ev => Script.bridge_event ev = false) pre /\
    Forall (fun ev => is_bridge_call ev = false) post.
Proof.
  refine (bridge_called_once_after_snapshot L1ToL2
            (Example.world Example.full_env [Example.rht]) tt _).
  vm_compute. reflexivity.
Defined.

(** X16.  A script ends normally only after the whole course: a run that
    returns (exit status 0) has called the bridge, with a full balance
    snapshot before the call and a second full snapshot after it. *)
Theorem normal_end_only_after_bridge {Σ : Type} (dir : Direction)
    (w : World Σ) (σ : Σ) :
  outcome (Script.script dir w σ) = Ret tt ->
  exists pre call post,
    trace (Script.script dir w σ) = pre ++ call :: post /\
    is_bridge_call call = true /\
    (exists token wallet pub priv,
       balance_reads pre =
       [EvReadContract token wallet; EvSimulatePublic pub; EvSimulatePrivate priv]) /\
    (exists token wallet pub priv,
       balance_reads post =
       [EvReadContract token wallet; EvSimulatePublic pub; EvSimulatePrivate priv]).
Proof.
  intros Hret. destruct (script_bridge_order dir w σ) as (s & Hs & Ho).
  rewrite Hret in Ho. subst s.
  destruct (bridge_call_splits _ _ _ Hs eq_refl (or_intror eq_refl))
    as (pre & call & post & Ht & Hc & Hpre & Hpost).
  exists pre, call, post. split; [exact Ht|]. split; [exact Hc|].
  split; [exact (proj1 (snapshot_taken pre Setup Hpre))|].
  exact (second_snapshot_taken post Bridged Hpost eq_refl).
Qed.

Lemma normal_end_only_after_bridge_witness :
  exists pre call post,
    trace (Script.bridge_l2_to_l1 (Example.world Example.full_env [Example.rht]) tt)
    = pre ++ call :: post /\
    is_bridge_call call = true /\
    (exists token wallet pub priv,
       balance_reads pre =
       [EvReadContract token wallet; EvSimulatePublic pub; EvSimulatePrivate priv]) /\
    (exists token wallet pub priv,
       balance_reads post =
       [EvReadContract token wallet; EvSimulatePublic pub; EvSimulatePrivate priv]).
Proof.
  refine (normal_end_only_after_bridge L2ToL1
            (Example.world Example.full_env [Example.rht]) tt _).
  vm_compute. reflexivity.
Defined.

(** ** What a script hands on *)

Section Answers.
Context {Σ : Type}.

(** A settled promise gives the value it was fulfilled with. *)
Lemma rw_settle_answer {A} P (R : A -> Prop) E (p : Settled A) :
  (forall a, p = Fulfilled a -> R a) -> (forall e, E (inl e)) ->
  run_within (Σ := Σ) P R E (settle p).
Proof.
  intros Hr He. destruct p as [a|e]; [apply rw_ret | apply rw_throw]; auto.
Qed.

End Answers.

(** Walking through a script while keeping what was found on the way:
    the values of settled promises and the cases of the tables. *)
Ltac rw_keep :=
  lazymatch goal with
  | |- run_within _ _ _ (bind (settle ?p) _) =>
      eapply (rw_bind _ (fun a => p = Fulfilled a));
      [ apply rw_settle_answer; [intros ? Ha; exact Ha | intros; exact I]
      | intros ? ? ]
  | |- run_within _ _ _ (bind (ret ?a) _) =>
      eapply (rw_bind _ (eq a)); [apply rw_ret; reflexivity | intros ? <-]
  | |- run_within _ _ _ (bind (throw _) _) =>
      eapply (rw_bind _ (fun _ => False)); [apply rw_throw; exact I | intros ? []]
  | |- run_within _ _ _ (bind (match ?x with | nil => _ | cons _ _ => _ end) _) =>
      destruct x eqn:?
  | |- run_within _ _ _ (match ?x with | Some _ => _ | None => _ end) =>
      destruct x eqn:?
  end.

Ltac rw_walk_keeping := repeat first [rw_keep | rw_step].

Lemma main_hands_on {Σ} (dir : Direction) (w : World Σ) (network : Sdk.NetworkConfig) :
  run_within (handed_on dir w network) (fun _ => True) throws_or_exits_1
    (Script.main dir w network).
Proof.
  unfold Script.main. rw_walk_keeping; cbn; eauto 10.
Qed.

(** X17.  A script hands its configuration on unchanged: in every run,
    the L1 client is built on the normalized private key, the RPC URL of
    the network and the sandbox flag; the contracts looked up on the node
    and the L2 token handle are those of the first token of the network
    table, whatever its symbol; the L1 balance read and the bridge call
    take the token found under ["RHT"]; and the bridge is called in the
    direction of the script, with the amount and the mode of the
    environment. *)
Theorem script_hands_configuration_on {Σ : Type} (dir : Direction)
    (w : World Σ) (network : Sdk.NetworkConfig) (σ : Σ) :
  Script.networkConfig w = Js.Own network ->
  Forall (handed_on dir w network) (trace (Script.script dir w σ)).
Proof.
  intros Hnet.
  assert (Hscript : run_within (handed_on dir w network) (fun _ => True)
                      (fun _ => True) (Script.script dir w)).
  { unfold Script.script. rewrite Hnet.
    eapply (rw_try_catch _ _ throws_or_exits_1).
    - apply main_hands_on.
    - intros e _. eapply (rw_bind _ (fun _ => True)).
      + apply rw_emit; exact I.
      + intros _ _. apply rw_exit; exact I.
    - intros c _. exact I. }
  exact (proj1 (Hscript σ)).
Qed.

(** A network whose first token is USDC and which lists RHT second: the
    contracts looked up are those of USDC, the token bridged is RHT. *)
Lemma script_hands_configuration_on_witness :
  Forall (handed_on L2ToL1 (Example.world Example.full_env [Example.usdc; Example.rht])
            (Example.devnet [Example.usdc; Example.rht]))
    (trace (Script.bridge_l2_to_l1
              (Example.world Example.full_env [Example.usdc; Example.rht]) tt)).
Proof.
  refine (script_hands_configuration_on L2ToL1
            (Example.world Example.full_env [Example.usdc; Example.rht])
            (Example.devnet [Example.usdc; Example.rht]) tt _).
  vm_compute. reflexivity.
Defined.

(** ** A contract the node does not know *)

Section Answered.
Context {Σ : Type}.

(** An awaited call gives what the outside answered. *)
Lemma rw_await_answer {A} P (R : A -> Prop) E (ev : Event) (f : Σ -> Settled A * Σ) :
  P ev -> (forall σ a, (f σ).1 = Fulfilled a -> R a) -> (forall e, E (inl e)) ->
  run_within P R E (await ev f).
Proof.
  intros Hp Hr He σ. unfold await, trace, outcome.
  specialize (Hr σ). destruct (f σ) as [[a|e] σ1]; cbn in *;
    (split; [repeat constructor; exact Hp|]); auto.
Qed.

End Answered.

Lemma main_without_contract {Σ} (dir : Direction) (w : World Σ)
    (network : Sdk.NetworkConfig) :
  (forall a σ, (getContract w a σ).1 <> Fulfilled true) ->
  run_within (fun ev => bridge_order_event ev = false) (fun _ => False)
    throws_or_exits_1 (Script.main dir w network).
Proof.
  intros Hnone. unfold Script.main.
  repeat first
    [ lazymatch goal with
      | |- run_within _ _ _ (bind (await (EvNodeGetContract ?a) _) _) =>
          eapply (rw_bind _ (fun found => found = false));
          [ apply rw_await_answer;
            [ reflexivity
            | intros σ [] Hfound; [destruct (Hnone a σ Hfound) | reflexivity]
            | intros; exact I ]
          | intros ? ->; cbn [negb] ]
      | |- run_within _ _ _ (bind (throw _) _) =>
          eapply (rw_bind _ (fun _ => False)); [apply rw_throw; exact I | intros ? []]
      end
    | rw_step ].
Qed.

(** X18.  When the node knows no contract, a script stops at the first
    lookup: it ends with status 1, and it has built no handle of the L2
    token, read no balance and not called the bridge. *)
Theorem missing_contract_stops_script {Σ : Type} (dir : Direction)
    (w : World Σ) (σ : Σ) :
  (forall a σ', (getContract w a σ').1 <> Fulfilled true) ->
  Forall (fun ev => bridge_order_event ev = false) (trace (Script.script dir w σ)) /\
  Script.exit_code (outcome (Script.script dir w σ)) = 1%Z.
Proof.
  intros Hnone. apply run_within_exit_1. apply script_within.
  - reflexivity.
  - reflexivity.
  - intros network _. now apply main_without_contract.
Qed.

Lemma missing_contract_stops_script_witness :
  Forall (fun ev => bridge_order_event ev = false)
    (trace (Script.bridge_l1_to_l2
              (Scenario.world Example.full_env [Example.rht] Scenario.no_contract) tt)) /\
  Script.exit_code
    (outcome (Script.bridge_l1_to_l2
                (Scenario.world Example.full_env [Example.rht] Scenario.no_contract) tt))
  = 1%Z.
Proof.
  refine (missing_contract_stops_script L1ToL2
            (Scenario.world Example.full_env [Example.rht] Scenario.no_contract) tt _).
  intros a σ'. discriminate.
Defined.
